(** * Explorer grid selection and the open dispatcher

    A shallow embedding of pieces of the explorer interface:

    - the [Grid] view component (keyboard navigation, the marquee tick
      handler of the drag-select widget, drag end, the escape shortcut);
    - [useViewItemDoubleClick.doubleClick], the open dispatcher;
    - the rename handler of [RenamableItemText] and the arrow buttons of
      [HorizontalScroll], each in a module of its own.

    Handlers are functions from the mutable selection state to the next
    state; what a handler only reads is gathered in an environment record.
    Pixel values are finite doubles, each given by the rational it denotes,
    and what is computed from them is rounded as double arithmetic rounds;
    indices are integers. *)

From Stdlib Require Import ZArith QArith Qround Qabs List Bool Ascii String.
From Stdlib Require Import DecimalString FinFun Sorted Permutation Lia Lqa.
Import ListNotations.
Local Open Scope list_scope.
Local Open Scope Z_scope.

(** ** Explorer items *)

Record FilePath := {
  fp_id : Z;
  fp_is_dir : bool;
  fp_materialized_path : string;
  fp_name : string;
  fp_object_id : option Z
}.

Record LocationData := { loc_id : Z }.

Record NonIndexedPathItem := { nip_path : string; nip_is_dir : bool }.

Record LabelData := { label_id : Z; label_name : string }.

Record ObjectData := { obj_id : Z; obj_file_paths : list FilePath }.

(** The discriminated union [ExplorerItem]; the constructor is the [type]
    tag and its argument the [item] payload. *)
Inductive ExplorerItem :=
| Path (item : FilePath)
| Object (item : ObjectData)
| Location (item : LocationData)
| NonIndexedPath (item : NonIndexedPathItem)
| SpacedropPeer (name : string)
| Label (item : LabelData).

Definition option_eq_dec {A} (dec : forall x y : A, {x = y} + {x <> y})
  (x y : option A) : {x = y} + {x <> y}.
Proof. decide equality. Defined.

Definition option_Z_eq_dec : forall x y : option Z, {x = y} + {x <> y} :=
  option_eq_dec Z.eq_dec.

Definition option_string_eq_dec
  : forall x y : option string, {x = y} + {x <> y} :=
  option_eq_dec string_dec.

Definition FilePath_eq_dec (x y : FilePath) : {x = y} + {x <> y}.
Proof.
  decide equality;
    auto using Z.eq_dec, bool_dec, string_dec, option_Z_eq_dec.
Defined.

Definition list_FilePath_eq_dec
  : forall x y : list FilePath, {x = y} + {x <> y} :=
  list_eq_dec FilePath_eq_dec.

Definition LocationData_eq_dec (x y : LocationData) : {x = y} + {x <> y}.
Proof. decide equality; auto using Z.eq_dec. Defined.

Definition NonIndexedPathItem_eq_dec (x y : NonIndexedPathItem)
  : {x = y} + {x <> y}.
Proof. decide equality; auto using bool_dec, string_dec. Defined.

Definition LabelData_eq_dec (x y : LabelData) : {x = y} + {x <> y}.
Proof. decide equality; auto using Z.eq_dec, string_dec. Defined.

Definition ObjectData_eq_dec (x y : ObjectData) : {x = y} + {x <> y}.
Proof. decide equality; auto using Z.eq_dec, list_FilePath_eq_dec. Defined.

Definition ExplorerItem_eq_dec (x y : ExplorerItem) : {x = y} + {x <> y}.
Proof.
  decide equality;
    auto using FilePath_eq_dec, ObjectData_eq_dec, LocationData_eq_dec,
      NonIndexedPathItem_eq_dec, LabelData_eq_dec, string_dec.
Defined.

(** [a === b] on items.  The source compares object references; the
    collection holds one object per entity, so on it reference equality is
    equality of the values. *)
Definition item_eqb (x y : ExplorerItem) : bool :=
  if ExplorerItem_eq_dec x y then true else false.

(** ** Geometry and the rendered document *)

Record Rect := { top : Q; bottom : Q; left : Q; right : Q }.

(** A rendered [[data-selectable]] element: its [data-selectable-id] and
    [data-selectable-index] attributes and its bounding client rectangle. *)
Record Element := {
  el_id : option string;
  el_index : option Z;
  el_rect : Rect
}.

Definition Rect_eq_dec (x y : Rect) : {x = y} + {x <> y}.
Proof. repeat decide equality. Defined.

Definition Element_eq_dec (x y : Element) : {x = y} + {x <> y}.
Proof.
  decide equality;
    auto using Rect_eq_dec, option_Z_eq_dec, option_string_eq_dec.
Defined.

(** How [document.querySelector] answers: with the first element the
    selector matches, with [null], or by throwing a [SyntaxError] for a
    selector it cannot parse. *)
Inductive QueryResult :=
| Found (element : Element)
| NotFound
| SyntaxError.

(** Modelled from the spec: the virtualization engine ([useGrid] of the
    virtual-grid package) is an external collaborator.  The parameters the
    component hands to it or reads back from it are the fields; the rectangle
    of an index is a pure function of the index. *)
Record Grid := {
  columnCount : Z;
  totalCount : Z;
  gap_y : Q;
  virtualItemSize_height : Q;
  rectOf : Z -> Rect
}.

(** What [grid.getItem] returns.  [gi_id] is the string produced by the
    [getItemId] callback, or the index itself when the callback yields
    nothing. *)
Record GridItem := {
  gi_index : Z;
  gi_id : string + Z;
  gi_data : option ExplorerItem;
  gi_row : Z;
  gi_column : Z;
  gi_rect : Rect
}.

(** ** Environment and state *)

(** What the handlers read but do not write. [uniqueId] is the helper
    imported from the explorer utilities.  [realOS] is what
    [useOperatingSystem(true)] returns and [parentType] is
    [explorer.parent?.type].  [document] lists the [[data-selectable]]
    elements in document order, and [querySelector] is the selector engine of
    the browser, which the component does not define. *)
Record Env := {
  uniqueId : ExplorerItem -> string;
  items : list ExplorerItem;
  grid : Grid;
  allowMultiSelect : bool;
  selectable : bool;
  quickPreviewOpen : bool;
  isAnyDialogOpen : bool;
  realOS : string;
  parentType : option string;
  document : list Element;
  querySelector : string -> QueryResult;
  viewRectTop : Q
}.

(** What the handlers write: the selection of the explorer context, the
    refs of the component, its [dragFromThumbnail] state and the
    [isDragSelecting] flag of the explorer store.  [selectoTargets] are the
    selected targets of the drag-select widget. *)
Record State := {
  selectedItems : list ExplorerItem;
  selectoTargets : list Element;
  selectoUnselected : list string;
  selectoFirstColumn : option Z;
  selectoLastColumn : option Z;
  activeItem : option ExplorerItem;
  dragFromThumbnail : bool;
  isDragSelecting : bool
}.

Definition set_selectedItems (v : list ExplorerItem) (s : State) : State :=
  {| selectedItems := v; selectoTargets := selectoTargets s;
     selectoUnselected := selectoUnselected s;
     selectoFirstColumn := selectoFirstColumn s;
     selectoLastColumn := selectoLastColumn s; activeItem := activeItem s;
     dragFromThumbnail := dragFromThumbnail s;
     isDragSelecting := isDragSelecting s |}.

Definition set_selectoTargets (v : list Element) (s : State) : State :=
  {| selectedItems := selectedItems s; selectoTargets := v;
     selectoUnselected := selectoUnselected s;
     selectoFirstColumn := selectoFirstColumn s;
     selectoLastColumn := selectoLastColumn s; activeItem := activeItem s;
     dragFromThumbnail := dragFromThumbnail s;
     isDragSelecting := isDragSelecting s |}.

Definition set_selectoUnselected (v : list string) (s : State) : State :=
  {| selectedItems := selectedItems s; selectoTargets := selectoTargets s;
     selectoUnselected := v;
     selectoFirstColumn := selectoFirstColumn s;
     selectoLastColumn := selectoLastColumn s; activeItem := activeItem s;
     dragFromThumbnail := dragFromThumbnail s;
     isDragSelecting := isDragSelecting s |}.

Definition set_selectoColumns (first last : option Z) (s : State) : State :=
  {| selectedItems := selectedItems s; selectoTargets := selectoTargets s;
     selectoUnselected := selectoUnselected s;
     selectoFirstColumn := first;
     selectoLastColumn := last; activeItem := activeItem s;
     dragFromThumbnail := dragFromThumbnail s;
     isDragSelecting := isDragSelecting s |}.

Definition set_activeItem (v : option ExplorerItem) (s : State) : State :=
  {| selectedItems := selectedItems s; selectoTargets := selectoTargets s;
     selectoUnselected := selectoUnselected s;
     selectoFirstColumn := selectoFirstColumn s;
     selectoLastColumn := selectoLastColumn s; activeItem := v;
     dragFromThumbnail := dragFromThumbnail s;
     isDragSelecting := isDragSelecting s |}.

Definition set_dragFromThumbnail (v : bool) (s : State) : State :=
  {| selectedItems := selectedItems s; selectoTargets := selectoTargets s;
     selectoUnselected := selectoUnselected s;
     selectoFirstColumn := selectoFirstColumn s;
     selectoLastColumn := selectoLastColumn s; activeItem := activeItem s;
     dragFromThumbnail := v;
     isDragSelecting := isDragSelecting s |}.

Definition set_isDragSelecting (v : bool) (s : State) : State :=
  {| selectedItems := selectedItems s; selectoTargets := selectoTargets s;
     selectoUnselected := selectoUnselected s;
     selectoFirstColumn := selectoFirstColumn s;
     selectoLastColumn := selectoLastColumn s; activeItem := activeItem s;
     dragFromThumbnail := dragFromThumbnail s;
     isDragSelecting := v |}.

(** ** Selection model *)

(** [explorer.selectedItems.has(item)]. *)
Definition has (x : ExplorerItem) (sel : list ExplorerItem) : bool :=
  existsb (item_eqb x) sel.

(** A JS [Set] built from an array: first occurrences, in order. *)
Fixpoint toSet (acc xs : list ExplorerItem) : list ExplorerItem :=
  match xs with
  | [] => acc
  | x :: xs' => toSet (if has x acc then acc else acc ++ [x]) xs'
  end.

(** Modelled from the spec: the selection model of the explorer context
    ([addSelectedItem], [removeSelectedItem], [resetSelectedItems]) is not
    part of the sources at hand.  The set is kept in insertion order, as a JS
    [Set] is; [add] and [remove] are idempotent, and with multi-select
    disabled [add] first clears the set. *)
Definition addSelectedItem (env : Env) (x : ExplorerItem) (s : State) : State :=
  if allowMultiSelect env then
    if has x (selectedItems s) then s
    else set_selectedItems (selectedItems s ++ [x]) s
  else set_selectedItems [x] s.

(** Modelled from the spec: [removeSelectedItem] of the explorer context;
    removing an absent item changes nothing. *)
Definition removeSelectedItem (x : ExplorerItem) (s : State) : State :=
  set_selectedItems
    (filter (fun y => negb (item_eqb x y)) (selectedItems s)) s.

(** Modelled from the spec: [resetSelectedItems] of the explorer context;
    the selection becomes the set of the given items. *)
Definition resetSelectedItems (xs : list ExplorerItem) (s : State) : State :=
  set_selectedItems (toSet [] xs) s.

(** ** Grid lookups *)

(** [array?.[i]]: nothing outside the array, negative indices included. *)
Definition at_index {A} (l : list A) (i : Z) : option A :=
  if i <? 0 then None else nth_error l (Z.to_nat i).

(** [array.findIndex(p)], with [None] for the source's [-1]. *)
Fixpoint findIndex_from {A} (p : A -> bool) (l : list A) (i : Z) : option Z :=
  match l with
  | [] => None
  | x :: l' => if p x then Some i else findIndex_from p l' (i + 1)
  end.

Definition findIndex {A} (p : A -> bool) (l : list A) : option Z :=
  findIndex_from p l 0.

(** Modelled from the spec: [grid.getItem] of the virtualization engine.
    It yields nothing for an index outside [0, totalCount); otherwise the
    data is what the [getItemData] callback of the component returns
    ([explorer.items?.[index]]), the id what its [getItemId] callback returns,
    and row and column follow from the column count. *)
Definition getItem (env : Env) (index : Z) : option GridItem :=
  if (index <? 0) || (totalCount (grid env) <=? index) then None
  else
    let data := at_index (items env) index in
    Some {| gi_index := index;
            gi_id := match data with
                     | Some d => inl (uniqueId env d)
                     | None => inr index
                     end;
            gi_data := data;
            gi_row := index / columnCount (grid env);
            gi_column := index mod columnCount (grid env);
            gi_rect := rectOf (grid env) index |}.

Definition string_opt_eqb (a : option string) (b : string) : bool :=
  match a with
  | Some a' => String.eqb a' b
  | None => false
  end.

(** [s.replaceAll(c, by)] for a pattern of one character. *)
Fixpoint replaceAll (c : Ascii.ascii) (by_ : string) (s : string) : string :=
  match s with
  | EmptyString => EmptyString
  | String x rest =>
    if Ascii.eqb x c then (by_ ++ replaceAll c by_ rest)%string
    else String x (replaceAll c by_ rest)
  end.

(** The double quote character. *)
Definition quote : Ascii.ascii := Ascii.ascii_of_nat 34.

(** The template literal of the selector: [id] is written between the
    quotes as it is. *)
Definition selectableIdSelector (id : string) : string :=
  ("[data-selectable-id=" ++ String quote (id ++ String quote "]"))%string.

(** [getElementById(id)]: on Windows with an ephemeral parent every
    backslash of [id] is doubled; the selector is then handed to the engine.
    [None] stands for [null] and also for the [SyntaxError] of the engine:
    the keyboard handler and the down shortcut, the two callers modelled
    here, have written nothing when they call, so that the exception leaves
    the state as the early return on [null] does. *)
Definition getElementById (env : Env) (id : string) : option Element :=
  let id :=
    if String.eqb (realOS env) "windows"
       && string_opt_eqb (parentType env) "Ephemeral"
    then replaceAll "\"%char "\\"%string id
    else id in
  match querySelector env (selectableIdSelector id) with
  | Found element => Some element
  | NotFound | SyntaxError => None
  end.

(** The first [[data-selectable]] element of the document whose
    [data-selectable-id] attribute is [id]. *)
Definition elementWithId (env : Env) (id : string) : option Element :=
  find (fun el => string_opt_eqb (el_id el) id) (document env).

Definition getElementId (element : Element) : option string := el_id element.

Definition getElementIndex (element : Element) : option Z := el_index element.

Definition getElementItem (env : Env) (element : Element) : option GridItem :=
  match getElementIndex element with
  | None => None
  | Some index => getItem env index
  end.

(** [grid.getItem(index)?.data]. *)
Definition dataAt (env : Env) (index : Z) : option ExplorerItem :=
  match getItem env index with
  | Some item => gi_data item
  | None => None
  end.

(** The reducer of [getActiveItem]: the item of least index met so far. *)
Definition leastItem (env : Env) (least : option GridItem) (current : Element)
  : option GridItem :=
  match getElementItem env current with
  | None => least
  | Some currentItem =>
    match least with
    | None => Some currentItem
    | Some l =>
      if gi_index currentItem <? gi_index l then Some currentItem else Some l
    end
  end.

Definition getActiveItem (env : Env) (elements : list Element)
  : option ExplorerItem :=
  match fold_left (leastItem env) elements None with
  | Some it => gi_data it
  | None => None
  end.

(** [selecto.current?.getSelectedTargets() ?? []]: the widget is rendered,
    and its ref set, only when multi-select is allowed. *)
Definition getSelectedTargets (env : Env) (s : State) : list Element :=
  if allowMultiSelect env then selectoTargets s else [].

(** [selecto.current?.setSelectedTargets(targets)]. *)
Definition setSelectedTargets (env : Env) (targets : list Element) (s : State)
  : State :=
  if allowMultiSelect env then set_selectoTargets targets s else s.

Definition handleDragEnd (env : Env) (s : State) : State :=
  let s1 := set_isDragSelecting false s in
  let s2 := set_selectoColumns None None s1 in
  let s3 := set_dragFromThumbnail false s2 in
  let allSelected := getSelectedTargets env s3 in
  set_activeItem (getActiveItem env allSelected) s3.

(** ** Effects run after a render *)

(** The effect on [explorer.selectedItems]: an empty selection drops the
    shadow set and the active item. *)
Definition clearActiveEffect (s : State) : State :=
  if (Z.of_nat (List.length (selectedItems s)) =? 0)
  then set_activeItem None (set_selectoUnselected [] s)
  else s.

(** ** Keyboard shortcuts *)

Definition explorerEscape (env : Env) (s : State) : State :=
  if negb (selectable env) || (Z.of_nat (List.length (selectedItems s)) =? 0)
  then s
  else setSelectedTargets env [] (resetSelectedItems [] s).

(** The escape shortcut followed by the render it causes. *)
Definition escapeShortcut (env : Env) (s : State) : State :=
  clearActiveEffect (explorerEscape env s).

(** [keyboardHandler(e, newIndex)], with [shiftKey] standing for [e.shiftKey].
    The tail of the source function, which only scrolls the container so
    that the new item is in view, writes none of the fields of [State] and
    is left out. *)
Definition keyboardHandler (env : Env) (shiftKey : bool) (newIndex : Z)
  (s : State) : State :=
  if negb (selectable env) then s
  else
    match getItem env newIndex with
    | None => s
    | Some newSelectedItem =>
      match gi_data newSelectedItem with
      | None => s
      | Some data =>
        if negb (allowMultiSelect env)
        then set_activeItem (Some data) (resetSelectedItems [data] s)
        else
          match getElementById env (uniqueId env data) with
          | None => s
          | Some selectedItemElement =>
            let s' :=
              if shiftKey && negb (quickPreviewOpen env) then
                if negb (has data (selectedItems s)) then
                  let s1 := addSelectedItem env data s in
                  setSelectedTargets env
                    (getSelectedTargets env s1 ++ [selectedItemElement]) s1
                else s
              else
                let s1 := resetSelectedItems [data] s in
                let s2 := setSelectedTargets env [selectedItemElement] s1 in
                if (0 <? Z.of_nat (List.length (selectoUnselected s2)))
                then set_selectoUnselected [] s2
                else s2
            in
            set_activeItem (Some data) s'
          end
      end
    end.

Inductive ArrowKey := ArrowUp | ArrowDown | ArrowLeft | ArrowRight.

(** [getGridItemHandler(key)]: the index the key moves to from the active
    item, or nothing when there is no active item in the collection. *)
Definition getGridItemHandler (env : Env) (key : ArrowKey) (s : State)
  : option Z :=
  match activeItem s with
  | None => None
  | Some lastItem =>
    match findIndex (fun item => item_eqb item lastItem) (items env) with
    | None => None
    | Some lastItemIndex =>
      match getItem env lastItemIndex with
      | None => None
      | Some gridItem =>
        let newIndex := gi_index gridItem in
        Some match key with
             | ArrowUp => newIndex - columnCount (grid env)
             | ArrowDown => newIndex + columnCount (grid env)
             | ArrowLeft => newIndex - 1
             | ArrowRight => newIndex + 1
             end
      end
    end
  end.

(** The body shared by the up, left and right shortcuts, and by the down
    shortcut once the selection is not empty. *)
Definition arrowShortcut (env : Env) (key : ArrowKey) (shiftKey : bool)
  (s : State) : State :=
  match getGridItemHandler env key s with
  | None => s
  | Some newIndex => keyboardHandler env shiftKey newIndex s
  end.

Definition explorerDown (env : Env) (shiftKey : bool) (s : State) : State :=
  if negb (selectable env) || isAnyDialogOpen env then s
  else if (Z.of_nat (List.length (selectedItems s)) =? 0) then
    match getItem env 0 with
    | None => s
    | Some item =>
      match gi_data item with
      | None => s
      | Some data =>
        match getElementById env (uniqueId env data) with
        | None => s
        | Some selectedItemElement =>
          let s1 := resetSelectedItems [data] s in
          let s2 := setSelectedTargets env [selectedItemElement] s1 in
          set_activeItem (Some data) s2
        end
      end
    end
  else arrowShortcut env ArrowDown shiftKey s.

Definition explorerUp (env : Env) (shiftKey : bool) (s : State) : State :=
  if negb (selectable env) || isAnyDialogOpen env then s
  else arrowShortcut env ArrowUp shiftKey s.

Definition explorerLeft (env : Env) (shiftKey : bool) (s : State) : State :=
  if negb (selectable env) || isAnyDialogOpen env then s
  else arrowShortcut env ArrowLeft shiftKey s.

Definition explorerRight (env : Env) (shiftKey : bool) (s : State) : State :=
  if negb (selectable env) || isAnyDialogOpen env then s
  else arrowShortcut env ArrowRight shiftKey s.

(** The shortcut bound to an arrow key. *)
Definition pressArrow (env : Env) (key : ArrowKey) (shiftKey : bool)
  (s : State) : State :=
  match key with
  | ArrowUp => explorerUp env shiftKey s
  | ArrowDown => explorerDown env shiftKey s
  | ArrowLeft => explorerLeft env shiftKey s
  | ArrowRight => explorerRight env shiftKey s
  end.

(** ** Pointer handlers *)

(** [onMouseDown] of the grid item rendered for [index]. *)
Definition onMouseDown (env : Env) (button : Z) (index : Z) (s : State)
  : State :=
  if negb (button =? 0) || negb (selectable env) then s
  else
    match getItem env index with
    | None => s
    | Some item =>
      match gi_data item with
      | None => s
      | Some data =>
        let s1 :=
          if negb (allowMultiSelect env) then resetSelectedItems [data] s
          else set_selectoColumns (Some (gi_column item))
                 (Some (gi_column item)) s
        in
        set_activeItem (Some data) s1
      end
    end.

(** [onDragStart] of the drag-select widget. *)
Definition onDragStart (targetIsImage : bool) (s : State) : State :=
  let s1 := set_isDragSelecting true s in
  if targetIsImage then set_dragFromThumbnail true s1 else s1.

(** [onDrag]: [storeDrag] tells whether [explorerStore.drag] is set. *)
Definition onDrag (env : Env) (storeDrag : bool) (s : State) : State :=
  if negb storeDrag then s else handleDragEnd env s.

(** ** The [onSelect] handler of the drag-select widget *)

(** The event: the widget's added, removed, selected and previously selected
    targets, the drag rectangle, and the pointer event's position and shift
    state. *)
Record SelectEvent := {
  added : list Element;
  removed : list Element;
  selected : list Element;
  beforeSelected : list Element;
  ev_rect : Rect;
  input_x : Q;
  input_y : Q;
  ev_shiftKey : bool
}.

Definition Qltb (x y : Q) : bool := negb (Qle_bool y x).

(** [onSelect] for a [mousedown] input event. *)
Definition onSelectMouseDown (env : Env) (e : SelectEvent) (s : State)
  : State :=
  let el :=
    if ev_shiftKey e then
      match added e with
      | a :: _ => Some a
      | [] => hd_error (removed e)
      end
    else hd_error (selected e) in
  match el with
  | None => s
  | Some el =>
    match getElementItem env el with
    | None => s
    | Some item =>
      match gi_data item with
      | None => s
      | Some data =>
        if negb (ev_shiftKey e) then
          if has data (selectedItems s)
          then setSelectedTargets env (beforeSelected e) s
          else resetSelectedItems [data] (set_selectoUnselected [] s)
        else
          match added e with
          | _ :: _ => addSelectedItem env data s
          | [] => removeSelectedItem data s
          end
      end
    end
  end.

(** [document.contains(el)]. *)
Definition document_contains (env : Env) (el : Element) : bool :=
  existsb (fun x => if Element_eq_dec x el then true else false)
    (document env).

(** The [e.added.forEach] loop. *)
Definition addHit (env : Env) (s : State) (el : Element) : State :=
  match getElementItem env el with
  | None => s
  | Some item =>
    match gi_data item with
    | None => s
    | Some data => addSelectedItem env data s
    end
  end.

(** The [e.removed.forEach] loop; the second component collects
    [unselectedItems]. *)
Definition removeHit (env : Env) (acc : State * list string) (el : Element)
  : State * list string :=
  let (s, unselectedItems) := acc in
  match getElementItem env el with
  | None => acc
  | Some item =>
    match gi_data item, gi_id item with
    | Some data, inl id =>
      if document_contains env el then (removeSelectedItem data s, unselectedItems)
      else (s, unselectedItems ++ [id])
    | _, _ => acc
    end
  end.

(** The reducer building [items] from the added and removed elements. *)
Definition dragItems (env : Env) (elements : list Element) : list GridItem :=
  fold_left
    (fun items el =>
       match getElementItem env el with
       | None => items
       | Some item => items ++ [item]
       end)
    elements [].

(** The [columns] set: the distinct columns of the items, in order. *)
Definition dragColumns (its : list GridItem) : list Z :=
  fold_left
    (fun columns item =>
       if existsb (Z.eqb (gi_column item)) columns then columns
       else columns ++ [gi_column item])
    its [].

(** [items.sort((a, b) => key(a) - key(b))]; the sort is stable. *)
Fixpoint insertBy (key : GridItem -> Z) (x : GridItem) (l : list GridItem)
  : list GridItem :=
  match l with
  | [] => [x]
  | y :: l' => if key x <=? key y then x :: l else y :: insertBy key x l'
  end.

Definition sortBy (key : GridItem -> Z) (l : list GridItem) : list GridItem :=
  fold_right (insertBy key) [] l.

(** ** Double-precision arithmetic

    The pixel values the handlers read (rectangles, pointer positions, the
    sizes of the grid) are finite doubles, each given by the rational it
    denotes.  What the handlers compute from them is computed in doubles:
    every sum, difference and quotient is the exact result rounded to the
    nearest double, ties to the even mantissa. *)

Module Double.

(** A number: a finite double by its value, an infinity, or NaN.  A zero
    carries no sign, which nothing computed here shows: the comparisons
    ignore it, [Math.abs] drops it, a zero count is an array length under
    either sign, and the infinite quotients, whose sign it decides, all end
    in the [RangeError]. *)
Inductive t :=
| Finite (value : Q)
| Infinity (negative : bool)
| NaN.

(** The power of two of exponent [e]. *)
Definition pow2 (e : Z) : Q :=
  if 0 <=? e then inject_Z (2 ^ e) else 1 # Z.to_pos (2 ^ (- e)).

(** The exponent [e] with [2^e <= a < 2^(e+1)], for [a > 0]. *)
Definition exponentOf (a : Q) : Z :=
  let e := Z.log2 (Qnum a) - Z.log2 (Zpos (Qden a)) in
  if Qle_bool (pow2 e) a then e else e - 1.

(** The integer nearest to [a], the even one of two equally near. *)
Definition roundHalfEven (a : Q) : Z :=
  let n := Qnum a in
  let d := Zpos (Qden a) in
  let q := n / d in
  match 2 * (n mod d) ?= d with
  | Lt => q
  | Gt => q + 1
  | Eq => if Z.even q then q else q + 1
  end.

(** The double nearest to [q] (binary64: 53 bits of mantissa, least
    exponent -1074 for the last bit, overflow from [2^1024] on). *)
Definition nearest (q : Q) : t :=
  if Qeq_bool q 0 then Finite 0
  else
    let a := Qabs q in
    let e := Z.max (exponentOf a - 52) (-1074) in
    let v := Qred (inject_Z (roundHalfEven (a / pow2 e)) * pow2 e) in
    if Qle_bool (pow2 1024) v then Infinity (Qltb q 0)
    else Finite (if Qltb q 0 then - v else v)%Q.

Definition add (x y : t) : t :=
  match x, y with
  | NaN, _ | _, NaN => NaN
  | Infinity a, Infinity b => if Bool.eqb a b then Infinity a else NaN
  | Infinity a, Finite _ | Finite _, Infinity a => Infinity a
  | Finite a, Finite b => nearest (a + b)
  end.

Definition opp (x : t) : t :=
  match x with
  | Finite a => Finite (- a)
  | Infinity a => Infinity (negb a)
  | NaN => NaN
  end.

Definition sub (x y : t) : t := add x (opp y).

Definition div (x y : t) : t :=
  match x, y with
  | NaN, _ | _, NaN => NaN
  | Infinity _, Infinity _ => NaN
  | Infinity a, Finite b => Infinity (xorb a (Qltb b 0))
  | Finite _, Infinity _ => Finite 0
  | Finite a, Finite b =>
    if Qeq_bool b 0 then
      if Qeq_bool a 0 then NaN else Infinity (Qltb a 0)
    else nearest (a / b)
  end.

(** [x < y]. *)
Definition ltb (x y : t) : bool :=
  match x, y with
  | NaN, _ | _, NaN => false
  | Finite a, Finite b => Qltb a b
  | Finite _, Infinity b => negb b
  | Infinity a, Finite _ => a
  | Infinity a, Infinity b => a && negb b
  end.

End Double.

(** [Math.abs], [Math.ceil] and [Math.round] (halves go up).  The ceiling
    and the rounding of a double are integers that are doubles again. *)
Definition Math_abs (x : Double.t) : Double.t :=
  match x with
  | Double.Finite q => Double.Finite (Qabs q)
  | Double.Infinity _ => Double.Infinity false
  | Double.NaN => Double.NaN
  end.

Definition Math_ceil (x : Double.t) : Double.t :=
  match x with
  | Double.Finite q => Double.Finite (inject_Z (Qceiling q))
  | _ => x
  end.

Definition Math_round (x : Double.t) : Double.t :=
  match x with
  | Double.Finite q => Double.Finite (inject_Z (Qfloor (q + (1 # 2))))
  | _ => x
  end.

(** [Array(n)]: the length of the array, or [None] for the [RangeError]
    raised when [n] is not an integer from 0 to 2^32 - 1. *)
Definition arrayLength (n : Double.t) : option Z :=
  match n with
  | Double.Finite q =>
    let z := Qfloor q in
    if Qeq_bool (inject_Z z) q && (0 <=? z) && (z <=? 4294967295)
    then Some z else None
  | _ => None
  end.

(** The quotient [(dragHeight - grid.gap.y) /
    (grid.virtualItemSize.height + grid.gap.y)]. *)
Definition itemsInDragQuotient (dragHeight : Double.t) (gap height : Q)
  : Double.t :=
  Double.div (Double.sub dragHeight (Double.Finite gap))
    (Double.add (Double.Finite height) (Double.Finite gap)).

(** The rounded [itemsInDragCount], as [Array(itemsInDragCount)] takes it:
    [None] stands for the [RangeError]. *)
Definition itemsInDragCount (dragHeight : Double.t) (gap height : Q)
  : option Z :=
  let quotient := itemsInDragQuotient dragHeight gap height in
  let n := if Double.ltb (Double.Finite 1) quotient then Math_ceil quotient
           else Math_round quotient in
  arrayLength n.

(** The [itemIndex] computed at each turn [i = 0 .. n-1] of the loop. *)
Definition dragIndex (down : bool) (firstIndex n cc i : Z) : Z :=
  let index := if down then n - i else i + 1 in
  firstIndex + (if down then - index else index) * cc.

Definition dragIndices (down : bool) (firstIndex n cc : Z) : list Z :=
  map (fun i => dragIndex down firstIndex n cc (Z.of_nat i))
    (seq 0 (Z.to_nat n)).

(** The body of the loop over the implied items. *)
Definition synthItem (env : Env) (shiftKey inDragArea : bool)
  (acc : State * list string) (itemIndex : Z) : State * list string :=
  let (s, unselectedItems) := acc in
  match at_index (items env) itemIndex with
  | None => acc
  | Some item =>
    if shiftKey then
      if has item (selectedItems s) then
        (removeSelectedItem item s, unselectedItems)
      else
        (addSelectedItem env item s,
         if inDragArea then unselectedItems ++ [uniqueId env item]
         else unselectedItems)
    else if negb inDragArea then (removeSelectedItem item s, unselectedItems)
    else
      (addSelectedItem env item s,
       if inDragArea then unselectedItems ++ [uniqueId env item]
       else unselectedItems)
  end.

(** [new Set([...old, ...extra])] on strings. *)
Definition stringSet (xs : list string) : list string :=
  fold_left
    (fun acc x => if existsb (String.eqb x) acc then acc else acc ++ [x])
    xs [].

Definition option_Z_eqb (a : option Z) (b : Z) : bool :=
  match a with
  | Some a' => a' =? b
  | None => false
  end.

(** The direction of the drag and the point it started from, read off the
    pointer position and the drag rectangle. *)
Definition dragRight (e : SelectEvent) : bool :=
  negb (Qeq_bool (input_x e) (left (ev_rect e))).

Definition dragDown (e : SelectEvent) : bool :=
  Qeq_bool (input_y e) (bottom (ev_rect e)).

Definition dragStart_y (e : SelectEvent) : Q :=
  if dragDown e then top (ev_rect e) else bottom (ev_rect e).

(** [inDragArea], for the bounding rectangle of the first element. *)
Definition inDragArea (e : SelectEvent) (itemRect : Rect) : bool :=
  if dragRight e then Qle_bool (left itemRect) (input_x e)
  else Qle_bool (input_x e) (right itemRect).

(** The two [forEach] loops over the added and the removed elements. *)
Definition directHits (env : Env) (e : SelectEvent) (s : State)
  : State * list string :=
  fold_left (removeHit env) (removed e)
    (fold_left (addHit env) (added e) s, []).

(** The gate of the single-column branch on the last touched column. *)
Definition gateOpen (s : State) (column : Z) (inArea : bool) : bool :=
  negb (option_Z_eqb (selectoLastColumn s) column)
  || (option_Z_eqb (selectoLastColumn s) column && negb inArea).

(** Whether the drag started beyond the near edge of [firstItem]. *)
Definition crossed (env : Env) (e : SelectEvent) (firstItem : GridItem)
  : bool :=
  let itemTop :=
    Double.add (Double.Finite (top (gi_rect firstItem)))
      (Double.Finite (viewRectTop env)) in
  let itemBottom :=
    Double.add (Double.Finite (bottom (gi_rect firstItem)))
      (Double.Finite (viewRectTop env)) in
  if dragDown e then Double.ltb (Double.Finite (dragStart_y e)) itemTop
  else Double.ltb itemBottom (Double.Finite (dragStart_y e)).

Definition dragHeight (env : Env) (e : SelectEvent) (firstItem : GridItem)
  : Double.t :=
  let itemTop :=
    Double.add (Double.Finite (top (gi_rect firstItem)))
      (Double.Finite (viewRectTop env)) in
  let itemBottom :=
    Double.add (Double.Finite (bottom (gi_rect firstItem)))
      (Double.Finite (viewRectTop env)) in
  Math_abs
    (Double.sub (Double.Finite (dragStart_y e))
       (if dragDown e then itemTop else itemBottom)).

(** The changes for the implied items beyond [firstItem].  [None] is the
    [RangeError] of [itemsInDragCount]. *)
Definition synthesize (env : Env) (e : SelectEvent) (inArea : bool)
  (firstItem : GridItem) (acc : State * list string)
  : option (State * list string) :=
  if crossed env e firstItem then
    match itemsInDragCount (dragHeight env e firstItem) (gap_y (grid env))
            (virtualItemSize_height (grid env)) with
    | None => None
    | Some n =>
      Some (fold_left (synthItem env (ev_shiftKey e) inArea)
              (dragIndices (dragDown e) (gi_index firstItem) n
                 (columnCount (grid env)))
              acc)
    end
  else Some acc.

(** The update of the first and last touched columns. *)
Definition touchColumn (inArea : bool) (column : Z) (s : State) : State :=
  if negb inArea && option_Z_eqb (selectoFirstColumn s) column
  then set_selectoColumns None None s
  else
    set_selectoColumns
      (match selectoFirstColumn s with
       | None => Some column
       | Some c => Some c
       end)
      (Some column) s.

(** The single-column branch; [its] are the items sorted by row. *)
Definition singleColumn (env : Env) (e : SelectEvent) (inArea : bool)
  (column : Z) (its : list GridItem) (acc : State * list string)
  : option (State * list string) :=
  if gateOpen (fst acc) column inArea then
    let firstItem := if dragDown e then hd_error its
                     else hd_error (rev its) in
    let synth :=
      match firstItem with
      | None => Some acc
      | Some firstItem => synthesize env e inArea firstItem acc
      end in
    match synth with
    | None => None
    | Some (s1, unselectedItems) =>
      Some (touchColumn inArea column s1, unselectedItems)
    end
  else Some acc.

(** The multi-column branch; [its] are the items sorted by column. *)
Definition multiColumn (e : SelectEvent) (its : list GridItem)
  (acc : State * list string) : State * list string :=
  let firstItem := if dragRight e then hd_error its
                   else hd_error (rev its) in
  let lastItem := if dragRight e then hd_error (rev its)
                  else hd_error its in
  match firstItem, lastItem with
  | Some f, Some l =>
    (set_selectoColumns (Some (gi_column f)) (Some (gi_column l)) (fst acc),
     snd acc)
  | _, _ => acc
  end.

(** The merge of [unselectedItems] into the shadow set. *)
Definition mergeUnselected (acc : State * list string) : State :=
  let (s, unselectedItems) := acc in
  if (0 <? Z.of_nat (List.length unselectedItems))
  then set_selectoUnselected
         (stringSet (selectoUnselected s ++ unselectedItems)) s
  else s.

(** [onSelect] for a [mousemove] input event: one tick of the marquee. *)
Definition onSelectMouseMove (env : Env) (e : SelectEvent) (s : State)
  : option State :=
  let acc := directHits env e s in
  let elements := added e ++ removed e in
  let its := dragItems env elements in
  let columns := dragColumns its in
  let after :=
    if (1 <? Z.of_nat (List.length columns)) then
      Some (multiColumn e (sortBy gi_column its) acc)
    else
      match columns, elements with
      | [column], el0 :: _ =>
        singleColumn env e (inDragArea e (el_rect el0)) column
          (sortBy gi_row its) acc
      | _, _ => Some acc
      end in
  option_map mergeUnselected after.

(** ** The open dispatcher *)

Inductive OpenOnDoubleClick := openFile | quickPreview.

(** How an awaited platform call ends. *)
Inductive Outcome := Resolved | Rejected (error : string).

(** What the dispatcher reads: the platform's optional open functions, the
    library and the explorer setting. *)
Record Platform := {
  dc_uniqueId : ExplorerItem -> string;
  library_uuid : string;
  openOnDoubleClick : OpenOnDoubleClick;
  openFilePaths : option (string -> list Z -> Outcome);
  openEphemeralFiles : option (list string -> Outcome)
}.

(** What the dispatcher hands to its collaborators, in order. *)
Inductive Action :=
| UpdateAccessTime (object_ids : list Z)
| OpenFilePaths (library : string) (ids : list Z)
| OpenEphemeralFiles (paths : list string)
| ToastError (title body : string)
| SetSearchParamsPath (path : string)
| NavigateLocation (id : Z)
| NavigateEphemeralPath (path : string)
| NavigateLabelSearch (label : Z).

Record QuickPreviewStore := { qp_open : bool; qp_itemIndex : Z }.

(** The selection state of the explorer, the quick-preview store and the
    trace of actions dispatched so far. *)
Record World := {
  explorer : State;
  quickPreviewStore : QuickPreviewStore;
  trace : list Action
}.

Definition emit (a : list Action) (w : World) : World :=
  {| explorer := explorer w; quickPreviewStore := quickPreviewStore w;
     trace := trace w ++ a |}.

Definition openQuickPreview (itemIndex : Z) (w : World) : World :=
  {| explorer := explorer w;
     quickPreviewStore := {| qp_open := true; qp_itemIndex := itemIndex |};
     trace := trace w |}.

(** [array.splice(start, 0, x)]: a negative [start] counts from the end. *)
Definition splice {A} (start : Z) (x : A) (l : list A) : list A :=
  let len := Z.of_nat (List.length l) in
  let k := if start <? 0 then Z.max (len + start) 0 else Z.min start len in
  firstn (Z.to_nat k) l ++ x :: skipn (Z.to_nat k) l.

Record Buckets := {
  dirs : list FilePath;
  paths : list FilePath;
  locations : list LocationData;
  non_indexed : list NonIndexedPathItem
}.

Definition sameAsClicked (p : Platform) (item : option ExplorerItem)
  (selectedItem : ExplorerItem) : bool :=
  match item with
  | None => false
  | Some item => String.eqb (dc_uniqueId p item) (dc_uniqueId p selectedItem)
  end.

Definition addFilePath (same : bool) (b : Buckets) (filePath : FilePath)
  : Buckets :=
  if fp_is_dir filePath then
    {| dirs := splice (if same then 0 else -1) filePath (dirs b);
       paths := paths b; locations := locations b;
       non_indexed := non_indexed b |}
  else
    {| dirs := dirs b;
       paths := splice (if same then 0 else -1) filePath (paths b);
       locations := locations b; non_indexed := non_indexed b |}.

(** The reducer over the selected items; the first component is
    [itemIndex], the last the index [i] of the next item. *)
Definition bucketStep (p : Platform) (item : option ExplorerItem)
  (acc : Z * Buckets * Z) (selectedItem : ExplorerItem) : Z * Buckets * Z :=
  let '(itemIndex, b, i) := acc in
  let same := sameAsClicked p item selectedItem in
  let itemIndex' := if same then i else itemIndex in
  let b' :=
    match selectedItem with
    | Location l =>
      {| dirs := dirs b; paths := paths b;
         locations := splice (if same then 0 else -1) l (locations b);
         non_indexed := non_indexed b |}
    | NonIndexedPath n =>
      {| dirs := dirs b; paths := paths b; locations := locations b;
         non_indexed := splice (if same then 0 else -1) n (non_indexed b) |}
    | SpacedropPeer _ => b
    | Label _ => b
    | Path fp => fold_left (addFilePath same) [fp] b
    | Object o => fold_left (addFilePath same) (obj_file_paths o) b
    end in
  (itemIndex', b', i + 1).

Definition emptyBuckets : Buckets :=
  {| dirs := []; paths := []; locations := []; non_indexed := [] |}.

Definition partitionSelection (p : Platform) (item : option ExplorerItem)
  (selectedItems : list ExplorerItem) : Z * Buckets :=
  fst (fold_left (bucketStep p item) selectedItems (0, emptyBuckets, 0)).

(** The [try { await open(...) } catch (error) { toast.error(...) }]
    block: the call, then a toast when it is rejected. *)
Definition awaitOpen (call : Action) (result : Outcome) : list Action :=
  match result with
  | Resolved => [call]
  | Rejected error =>
    [call;
     ToastError "Failed to open file"
       ("Error: " ++ error ++ ".")%string]
  end.

(** [item.type !== 'Location' && !(isPath(item) && item.item.is_dir)]. *)
Definition previewable (item : ExplorerItem) : bool :=
  match item with
  | Location _ => false
  | Path fp => negb (fp_is_dir fp)
  | _ => true
  end.

(** [object_id!] mapped over the paths, then [filter(Boolean)]. *)
Definition objectIds (ps : list FilePath) : list Z :=
  flat_map
    (fun fp =>
       match fp_object_id fp with
       | Some o => if o =? 0 then [] else [o]
       | None => []
       end)
    ps.

(** The part of [doubleClick] from the check of the non-indexed bucket on. *)
Definition openNonIndexed (p : Platform) (item : option ExplorerItem)
  (itemIndex : Z) (b : Buckets) (w : World) : World :=
  let label (w : World) :=
    match item with
    | Some (Label l) => emit [NavigateLabelSearch (label_id l)] w
    | _ => w
    end in
  match non_indexed b with
  | [] => label w
  | first :: rest =>
    if (match rest with [] => nip_is_dir first | _ => false end)
    then emit [NavigateEphemeralPath (nip_path first)] w
    else
      match openOnDoubleClick p, openEphemeralFiles p, item with
      | openFile, Some open, _ =>
        let ps := map nip_path (non_indexed b) in
        label (emit (awaitOpen (OpenEphemeralFiles ps) (open ps)) w)
      | quickPreview, _, Some it =>
        if previewable it then openQuickPreview itemIndex w else label w
      | _, _, _ => label w
      end
  end.

(** The part of [doubleClick] from the check of the directory bucket on. *)
Definition openDirs (p : Platform) (item : option ExplorerItem)
  (itemIndex : Z) (b : Buckets) (w : World) : World :=
  match dirs b with
  | d :: _ =>
    emit [SetSearchParamsPath
            (fp_materialized_path d ++ fp_name d ++ "/")%string] w
  | [] =>
    match locations b with
    | l :: _ => emit [NavigateLocation (loc_id l)] w
    | [] => openNonIndexed p item itemIndex b w
    end
  end.

(** [doubleClick(item)]; [item] is the clicked item, when there is one. *)
Definition doubleClick (p : Platform) (item : option ExplorerItem) (w : World)
  : World :=
  match selectedItems (explorer w) with
  | [] => w
  | sel =>
    let (itemIndex, b) := partitionSelection p item sel in
    match paths b with
    | [] => openDirs p item itemIndex b w
    | _ :: _ =>
      match openOnDoubleClick p, openFilePaths p, item with
      | openFile, Some open, _ =>
        let ids := map fp_id (paths b) in
        openDirs p item itemIndex b
          (emit (UpdateAccessTime (objectIds (paths b))
                 :: awaitOpen (OpenFilePaths (library_uuid p) ids)
                      (open (library_uuid p) ids)) w)
      | quickPreview, _, Some it =>
        if previewable it then openQuickPreview itemIndex w
        else openDirs p item itemIndex b w
      | _, _, _ => openDirs p item itemIndex b w
      end
    end
  end.

(** The same platform with open calls that always resolve. *)
Definition resolving (p : Platform) : Platform :=
  {| dc_uniqueId := dc_uniqueId p; library_uuid := library_uuid p;
     openOnDoubleClick := openOnDoubleClick p;
     openFilePaths :=
       option_map (fun _ => fun _ _ => Resolved) (openFilePaths p);
     openEphemeralFiles :=
       option_map (fun _ => fun _ => Resolved) (openEphemeralFiles p) |}.

Definition isToast (a : Action) : bool :=
  match a with
  | ToastError _ _ => true
  | _ => false
  end.

Definition notToast (a : Action) : bool := negb (isToast a).







(** ** A synthetic explorer for the scenarios

    A collection of files laid out in rows of [cc] squares of 100 pixels
    with a gap of 10, of which the elements of the indices [mounted] are
    rendered. *)

Definition decimal (z : Z) : string := NilZero.string_of_int (Z.to_int z).

Definition fileItem (i : Z) : ExplorerItem :=
  Path {| fp_id := i; fp_is_dir := false; fp_materialized_path := "/";
          fp_name := decimal i; fp_object_id := Some (i + 1) |}.

Definition dirItem (i : Z) : ExplorerItem :=
  Path {| fp_id := i; fp_is_dir := true; fp_materialized_path := "/";
          fp_name := decimal i; fp_object_id := None |}.

(** An identity by kind and key. *)
Definition kindKey (item : ExplorerItem) : string :=
  match item with
  | Path fp => "path:" ++ decimal (fp_id fp)
  | Object o => "object:" ++ decimal (obj_id o)
  | Location l => "location:" ++ decimal (loc_id l)
  | NonIndexedPath n => "ephemeral:" ++ nip_path n
  | SpacedropPeer name => "peer:" ++ name
  | Label l => "label:" ++ label_name l
  end%string.

Definition fileItems (n : nat) : list ExplorerItem :=
  map (fun i => fileItem (Z.of_nat i)) (seq 0 n).

Definition squareRect (cc : Z) (offset : Q) (index : Z) : Rect :=
  let row := index / cc in
  let column := index mod cc in
  {| top := (inject_Z (row * 110) + offset)%Q;
     bottom := (inject_Z (row * 110 + 100) + offset)%Q;
     left := inject_Z (column * 110);
     right := inject_Z (column * 110 + 100) |}.

Definition squareGrid (cc : Z) (n : nat) : Grid :=
  {| columnCount := cc; totalCount := Z.of_nat n; gap_y := 10%Q;
     virtualItemSize_height := 100%Q; rectOf := squareRect cc 0%Q |}.

Definition fileElement (cc : Z) (viewTop : Q) (index : Z) : Element :=
  {| el_id := Some (kindKey (fileItem index)); el_index := Some index;
     el_rect := squareRect cc viewTop index |}.

(** The selector engine of the scenarios.  The ids of their elements hold
    no quote, no backslash and no line break, so that the quoted text of a
    selector denotes itself: the selector written for an id finds the first
    element of the document that carries this id. *)
Definition queryDocument (doc : list Element) (selector : string)
  : QueryResult :=
  match find (fun el =>
                match el_id el with
                | Some id => String.eqb selector (selectableIdSelector id)
                | None => false
                end) doc with
  | Some element => Found element
  | None => NotFound
  end.

Definition squareEnv (cc : Z) (n : nat) (multi quickPreview : bool)
  (viewTop : Q) (mounted : list Z) : Env :=
  {| uniqueId := kindKey; items := fileItems n; grid := squareGrid cc n;
     allowMultiSelect := multi; selectable := true;
     quickPreviewOpen := quickPreview; isAnyDialogOpen := false;
     realOS := "macOS"; parentType := Some "Location"%string;
     document := map (fileElement cc viewTop) mounted;
     querySelector := queryDocument (map (fileElement cc viewTop) mounted);
     viewRectTop := viewTop |}.

(** The state in which exactly the files of [indices] are selected, their
    elements of view [viewTop] are the widget's targets, and [anchor] is the
    active item. *)
Definition selectionOf (cc : Z) (viewTop : Q) (indices : list Z)
  (anchor : option Z) : State :=
  {| selectedItems := map fileItem indices;
     selectoTargets := map (fileElement cc viewTop) indices;
     selectoUnselected := [];
     selectoFirstColumn := None; selectoLastColumn := None;
     activeItem := option_map fileItem anchor;
     dragFromThumbnail := false; isDragSelecting := false |}.

Definition zrange (from : Z) (n : nat) : list Z :=
  map (fun i => from + Z.of_nat i) (seq 0 n).

(** A world with the given selection, nothing dispatched and the quick
    preview closed. *)
Definition freshWorld (sel : list ExplorerItem) : World :=
  {| explorer :=
       {| selectedItems := sel; selectoTargets := [];
          selectoUnselected := []; selectoFirstColumn := None;
          selectoLastColumn := None; activeItem := hd_error (rev sel);
          dragFromThumbnail := false; isDragSelecting := false |};
     quickPreviewStore := {| qp_open := false; qp_itemIndex := 0 |};
     trace := [] |}.

(** A desktop platform whose open calls are rejected. *)
Definition failingPlatform (mode : OpenOnDoubleClick) : Platform :=
  {| dc_uniqueId := kindKey; library_uuid := "lib";
     openOnDoubleClick := mode;
     openFilePaths := Some (fun _ _ => Rejected "denied");
     openEphemeralFiles := Some (fun _ => Rejected "denied") |}.

(** Two worlds that differ at most by the toasts in their traces. *)
Definition sameButToasts (w1 w2 : World) : Prop :=
  explorer w1 = explorer w2
  /\ quickPreviewStore w1 = quickPreviewStore w2
  /\ filter notToast (trace w1) = filter notToast (trace w2).

Definition failedToOpen (error : string) : Action :=
  ToastError "Failed to open file" ("Error: " ++ error ++ ".")%string.



(** The marquee scenario: 24 files in 4 columns, the view scrolled by 300
    pixels so that only the rows 4 and 5 are mounted.  The drag started in
    the gap left of column 1 at the height of row 1 and the pointer is now
    inside the item of index 17 (row 4, column 1): the rectangle sweeps the
    rows 1 to 4 of column 1 and hits the element of index 17 only. *)
Definition sweepEnv : Env := squareEnv 4 24 true false (-300)%Q (zrange 16 8).

Definition sweepEvent : SelectEvent :=
  {| added := [fileElement 4 (-300)%Q 17]; removed := [];
     selected := [fileElement 4 (-300)%Q 17]; beforeSelected := [];
     ev_rect := {| top := (-150)%Q; bottom := 200%Q;
                   left := 105%Q; right := 160%Q |};
     input_x := 160%Q; input_y := 200%Q; ev_shiftKey := false |}.

(** Before the tick nothing is selected and no column has been touched. *)
Definition sweepStart : State := selectionOf 4 (-300)%Q [] None.

(** The same tick met later in a drag that has stayed in column 1: the item
    of index 5 was hit while it was mounted, then its row was scrolled out
    and unmounted. *)
Definition sweepInColumn : State :=
  {| selectedItems := [fileItem 5];
     selectoTargets := [];
     selectoUnselected := [kindKey (fileItem 5)];
     selectoFirstColumn := Some 1; selectoLastColumn := Some 1;
     activeItem := None;
     dragFromThumbnail := false; isDragSelecting := true |}.

(** The grid item of the one hit element of the scenario. *)
Definition sweepFirst : GridItem :=
  {| gi_index := 17; gi_id := inl (kindKey (fileItem 17));
     gi_data := Some (fileItem 17); gi_row := 4; gi_column := 1;
     gi_rect := squareRect 4 0%Q 17 |}.

(** A tick in which rounding decides the count: the view is at
    -120 + 2^-45, so that the top of the item of index 17 (440 in the grid)
    is 320 + 2^-45 on the reals, which is no double; the drag started at
    height 90 in the gap left of column 1. *)
Definition tieElement : Element :=
  {| el_id := Some (kindKey (fileItem 17)); el_index := Some 17;
     el_rect := {| top := 320%Q; bottom := 420%Q;
                   left := 110%Q; right := 210%Q |} |}.

Definition tieEnv : Env :=
  {| uniqueId := kindKey; items := fileItems 24; grid := squareGrid 4 24;
     allowMultiSelect := true; selectable := true;
     quickPreviewOpen := false; isAnyDialogOpen := false;
     realOS := "macOS"; parentType := Some "Location"%string;
     document := [tieElement];
     querySelector := queryDocument [tieElement];
     viewRectTop := (-120 + (1 # 2 ^ 45))%Q |}.

Definition tieEvent : SelectEvent :=
  {| added := [tieElement]; removed := [];
     selected := [tieElement]; beforeSelected := [];
     ev_rect := {| top := 90%Q; bottom := 400%Q;
                   left := 105%Q; right := 160%Q |};
     input_x := 160%Q; input_y := 400%Q; ev_shiftKey := false |}.

(** The implied items of a single-column tick: those at [k] rows from
    [firstIndex] for [k = 1 .. n], above it when dragging down and below it
    when dragging up. *)
Definition impliedItem (env : Env) (down : bool) (firstIndex n : Z)
  (x : ExplorerItem) : Prop :=
  exists k, 1 <= k <= n
            /\ at_index (items env)
                 (firstIndex + (if down then - k else k) * columnCount (grid env))
               = Some x.

(** [ceil_or_round], as the marquee algorithm words it: the quotient rounded
    up when it exceeds 1 and to the nearest integer otherwise. *)
Definition ceil_or_round (q : Q) (n : Z) : Prop :=
  (1 < q -> inject_Z n - 1 < q /\ q <= inject_Z n)%Q
  /\ (q <= 1 -> inject_Z n - (1 # 2) <= q /\ q < inject_Z n + (1 # 2))%Q.

(** ** Sequences of operations *)

(** The operations on the selection that remain when the drag-select
    widget is not rendered: the arrow keys, escape, and mouse-down on an
    item. *)
Inductive SelectionOp :=
| OpArrow (key : ArrowKey) (shiftKey : bool)
| OpEscape
| OpMouseDown (button index : Z).

Definition applyOp (env : Env) (op : SelectionOp) (s : State) : State :=
  match op with
  | OpArrow key shiftKey => pressArrow env key shiftKey s
  | OpEscape => escapeShortcut env s
  | OpMouseDown button index => onMouseDown env button index s
  end.

(** A run: each operation comes with the environment it meets. *)
Definition runOps (ops : list (Env * SelectionOp)) (s : State) : State :=
  fold_left (fun s eo => applyOp (fst eo) (snd eo) s) ops s.

(** The step of each arrow key, as the keyboard contract words it. *)
Definition arrowDelta (env : Env) (key : ArrowKey) : Z :=
  match key with
  | ArrowUp => - columnCount (grid env)
  | ArrowDown => columnCount (grid env)
  | ArrowLeft => -1
  | ArrowRight => 1
  end.

(** ** Runs of arrow keys *)

(** The active item, when there is one, is selected. *)
Definition anchorSelected (s : State) : Prop :=
  forall a, activeItem s = Some a -> In a (selectedItems s).

(** A run of arrow keys without shift. *)
Definition pressArrows (env : Env) (keys : list ArrowKey) (s : State) : State :=
  fold_left (fun s key => pressArrow env key false s) keys s.

(** The index a run of arrow keys leads to from [i]. *)
Definition walkIndex (env : Env) (i : Z) (keys : list ArrowKey) : Z :=
  fold_left (fun i key => i + arrowDelta env key) keys i.

(** Every step of the run from [i] lands on an item of the collection
    whose element the lookup finds (or multi-select is disabled). *)
Fixpoint walkable (env : Env) (i : Z) (keys : list ArrowKey) : Prop :=
  match keys with
  | [] => True
  | key :: keys' =>
    let j := i + arrowDelta env key in
    j < totalCount (grid env)
    /\ (exists d, at_index (items env) j = Some d
                  /\ (allowMultiSelect env = false
                      \/ getElementById env (uniqueId env d) <> None))
    /\ walkable env j keys'
  end.

(** ** Reading elements, and the widget's reconciliation *)

(** [getElementItem(el)?.data]. *)
Definition elementData (env : Env) (el : Element) : option ExplorerItem :=
  match getElementItem env el with
  | Some item => gi_data item
  | None => None
  end.

(** [set.delete(id)] on a set of strings. *)
Definition stringSet_delete (id : string) (set : list string) : list string :=
  filter (fun x => negb (String.eqb id x)) set.

(** The [filter] callback of the reconciliation effect run over the
    [[data-selectable]] elements, with the [set] of hashes it consumes: an
    element is kept when its id is still in the set, and the id is then
    taken out of the set. *)
Fixpoint keepSelected (elements : list Element) (set : list string)
  : list Element * list string :=
  match elements with
  | [] => ([], set)
  | item :: rest =>
    match getElementId item with
    | None => keepSelected rest set
    | Some id =>
      let selected := existsb (String.eqb id) set in
      let set' := if selected then stringSet_delete id set else set in
      let (kept, left_) := keepSelected rest set' in
      (if selected then item :: kept else kept, left_)
    end
  end.

(** The effect run when the column count or the items change: the
    selected hashes are split between the mounted elements, which become the
    widget's targets, and the shadow set.  [hashes] is
    [explorer.selectedItemHashes.value]. *)
Definition syncSelecto (env : Env) (hashes : list string) (s : State) : State :=
  if negb (allowMultiSelect env) then s
  else
    let set := stringSet hashes in
    if (Z.of_nat (List.length set) =? 0) then s
    else
      let (elements, set') := keepSelected (document env) set in
      let s1 := set_selectoUnselected set' s in
      let s2 := setSelectedTargets env elements s1 in
      set_activeItem (getActiveItem env elements) s2.

(** A tick across columns: all 24 files of the 4-column grid are mounted,
    the rectangle runs right and down from inside the item of index 5 to
    inside the item of index 10 and hits the items 5, 6, 9 and 10. *)
Definition acrossEnv : Env := squareEnv 4 24 true false 0%Q (zrange 0 24).

Definition acrossEvent : SelectEvent :=
  {| added := map (fileElement 4 0%Q) [10; 5; 6; 9]; removed := [];
     selected := map (fileElement 4 0%Q) [10; 5; 6; 9]; beforeSelected := [];
     ev_rect := {| top := 150%Q; bottom := 260%Q;
                   left := 150%Q; right := 260%Q |};
     input_x := 260%Q; input_y := 260%Q; ev_shiftKey := false |}.

(** A later tick of the same drag: the pointer went back left and up into
    the item of index 5, and the elements of 6, 9 and 10 left the
    rectangle; that of 10 has been unmounted meanwhile. *)
Definition shrinkEnv : Env :=
  squareEnv 4 24 true false 0%Q [0; 1; 2; 3; 4; 5; 6; 7; 8; 9].

Definition shrinkEvent : SelectEvent :=
  {| added := []; removed := map (fileElement 4 0%Q) [6; 9; 10];
     selected := [fileElement 4 0%Q 5];
     beforeSelected := map (fileElement 4 0%Q) [10; 5; 6; 9];
     ev_rect := {| top := 150%Q; bottom := 200%Q;
                   left := 150%Q; right := 200%Q |};
     input_x := 200%Q; input_y := 200%Q; ev_shiftKey := false |}.

(** ** Bucket orders *)

(** An array with its first element moved to the end. *)
Definition firstLast {A} (l : list A) : list A :=
  match l with
  | [] => []
  | x :: rest => rest ++ [x]
  end.

(** The insertions a bucket receives, in order: the payload and whether
    its item is the clicked one. *)
Definition spliceAll {A} (ins : list (bool * A)) (b : list A) : list A :=
  fold_left
    (fun (b : list A) (fx : bool * A) =>
       splice (if fst fx then 0 else -1) (snd fx) b)
    ins b.

Definition locationInsertions (p : Platform) (item : option ExplorerItem)
  (sel : list ExplorerItem) : list (bool * LocationData) :=
  flat_map
    (fun x => match x with
              | Location l => [(sameAsClicked p item x, l)]
              | _ => []
              end)
    sel.

Definition nonIndexedInsertions (p : Platform) (item : option ExplorerItem)
  (sel : list ExplorerItem) : list (bool * NonIndexedPathItem) :=
  flat_map
    (fun x => match x with
              | NonIndexedPath n => [(sameAsClicked p item x, n)]
              | _ => []
              end)
    sel.

(** The file paths of the selection that are directories ([isDir] true) or
    files ([isDir] false). *)
Definition filePathInsertions (isDir : bool) (p : Platform)
  (item : option ExplorerItem) (sel : list ExplorerItem)
  : list (bool * FilePath) :=
  flat_map
    (fun x =>
       map (fun fp => (sameAsClicked p item x, fp))
         (filter (fun fp => Bool.eqb (fp_is_dir fp) isDir)
            match x with
            | Path fp => [fp]
            | Object o => obj_file_paths o
            | _ => []
            end))
    sel.


(** A selection with a peer, two directories, a location and a file. *)
Definition mixedSelection : list ExplorerItem :=
  [SpacedropPeer "a"; dirItem 1; Location (Build_LocationData 7); fileItem 4;
   dirItem 2; dirItem 3].

(** ** The renamable item text *)

Module RenamableItemText.

(** The [type] tag of an explorer item. *)
Inductive ItemType :=
| PathType
| ObjectType
| LocationType
| NonIndexedPathType
| SpacedropPeerType
| LabelType.

Definition ItemType_eqb (a b : ItemType) : bool :=
  match a, b with
  | PathType, PathType | ObjectType, ObjectType
  | LocationType, LocationType | NonIndexedPathType, NonIndexedPathType
  | SpacedropPeerType, SpacedropPeerType | LabelType, LabelType => true
  | _, _ => false
  end.

Definition typeOf (item : ExplorerItem) : ItemType :=
  match item with
  | Path _ => PathType
  | Object _ => ObjectType
  | Location _ => LocationType
  | NonIndexedPath _ => NonIndexedPathType
  | SpacedropPeer _ => SpacedropPeerType
  | Label _ => LabelType
  end.

Definition RENAMABLE_ITEM_TYPES : list ItemType :=
  [PathType; NonIndexedPathType; ObjectType; LocationType].

Definition includes (l : list ItemType) (t : ItemType) : bool :=
  existsb (ItemType_eqb t) l.

(** The two fields the handler reads of the file path that
    [getIndexedItemFilePath] returns. *)
Record IndexedFilePath := { id : Z; location_id : option Z }.

(** The arguments of the three library mutations, reduced to the fields that
    are not constant. *)
Inductive Mutation :=
| LocationsUpdate (id : Z) (name : string)
| FilesRenameFile (location_id from_file_path_id : Z) (to : string)
| EphemeralFilesRenameFile (from_path to : string).

(** What the [catch] clause can receive: an [Error] made by the handler, or
    the error a mutation was rejected with. *)
Inductive Thrown :=
| ErrorObject (message : string)
| MutationError (error : string).

(** What the component hands to its collaborators: a mutation sent to the
    library, the invalidation of the [search.paths] queries, and the error
    toast, whose title interpolates [fullName] and [newName] and whose body
    interpolates the error. *)
Inductive Effect :=
| Sent (m : Mutation)
| InvalidateSearchPaths
| CouldNotRename (fullName : option string) (newName : string) (e : Thrown).

(** What the component reads: its props, the stores, the data of the item
    ([getExplorerItemData]), the two accessors of the client package, and how
    the library answers a mutation.  [explorerSelection] is the selection of
    the explorer context, which may be absent. *)
Record Props := {
  item : ExplorerItem;
  selected : bool;
  isDragging : bool;
  explorerSelection : option (list ExplorerItem);
  quickPreviewIsOpen : bool;
  fullName : option string;
  getIndexedItemFilePath : ExplorerItem -> option IndexedFilePath;
  getEphemeralPath : ExplorerItem -> option NonIndexedPathItem;
  server : Mutation -> Outcome
}.

(** The text of the element behind [ref] ([None] while [ref.current] is
    null) and the effects so far.  The component creates the ref with null
    and hands it to no element; see [initialText]. *)
Record Text := { innerText : option string; effects : list Effect }.

Definition log (e : Effect) (st : Text) : Text :=
  {| innerText := innerText st; effects := effects st ++ [e] |}.

Definition reset (p : Props) (st : Text) : Text :=
  match innerText st, fullName p with
  | Some _, Some name =>
      if String.eqb name "" then st
      else {| innerText := Some name; effects := effects st |}
  | _, _ => st
  end.

(** A mutation with its [onError] and [onSuccess] callbacks, run to its
    end. *)
Definition settle (p : Props) (m : Mutation) (st : Text) : Text * Outcome :=
  let st := log (Sent m) st in
  match server p m with
  | Resolved => (log InvalidateSearchPaths st, Resolved)
  | Rejected error => (reset p st, Rejected error)
  end.

(** [await mutation.mutateAsync(m)]: a rejection is thrown. *)
Definition mutateAsync (p : Props) (m : Mutation) (st : Text)
  : Text * option Thrown :=
  match settle p m st with
  | (st, Resolved) => (st, None)
  | (st, Rejected error) => (st, Some (MutationError error))
  end.

(** [mutation.mutate(m)]: nothing is awaited and nothing is thrown. *)
Definition mutate (p : Props) (m : Mutation) (st : Text) : Text :=
  fst (settle p m st).

(** The body of the [try] block, with what it throws. *)
Definition tryRename (p : Props) (newName : string) (st : Text)
  : Text * option Thrown :=
  match item p with
  | Location l =>
      let locationId := loc_id l in
      if locationId =? 0 then (st, Some (ErrorObject "Missing location id"))
      else mutateAsync p (LocationsUpdate locationId newName) st
  | Path _ | Object _ =>
      match getIndexedItemFilePath p (item p) with
      | None => (st, Some (ErrorObject "Failed to get file path object"))
      | Some filePathData =>
          match location_id filePathData with
          | None => (st, Some (ErrorObject "Missing location id"))
          | Some location_id =>
              if location_id =? 0
              then (st, Some (ErrorObject "Missing location id"))
              else mutateAsync p
                     (FilesRenameFile location_id (id filePathData) newName)
                     st
          end
      end
  | NonIndexedPath _ =>
      match getEphemeralPath p (item p) with
      | None => (st, Some (ErrorObject "Failed to get ephemeral file object"))
      | Some ephemeralFile =>
          (mutate p (EphemeralFilesRenameFile (nip_path ephemeralFile) newName)
             st, None)
      end
  | _ => (st, Some (ErrorObject "Invalid explorer item type"))
  end.

Definition handleRename (p : Props) (newName : string) (st : Text) : Text :=
  match tryRename p newName st with
  | (st, None) => st
  | (st, Some e) => log (CouldNotRename (fullName p) newName e) (reset p st)
  end.

Definition disabled (p : Props) : bool :=
  negb (selected p)
  || isDragging p
  || match explorerSelection p with
     | None => true
     | Some selectedItems =>
         (1 <? Z.of_nat (List.length selectedItems))
         || quickPreviewIsOpen p
         || negb (includes RENAMABLE_ITEM_TYPES (typeOf (item p)))
     end.

(** What one call of the handler adds to the effects. *)
Definition emitted (p : Props) (newName : string) (st : Text) : list Effect :=
  skipn (List.length (effects st)) (effects (handleRename p newName st)).

Definition isSent (e : Effect) : bool :=
  match e with Sent _ => true | _ => false end.

(** A selected location in an explorer of one selected item, with a library
    that rejects every mutation when [rejects] holds. *)
Definition locationProps (l : Z) (rejects : bool) : Props :=
  {| item := Location (Build_LocationData l);
     selected := true; isDragging := false;
     explorerSelection := Some [Location (Build_LocationData l)];
     quickPreviewIsOpen := false;
     fullName := Some "Home"%string;
     getIndexedItemFilePath := fun _ => None;
     getEphemeralPath := fun _ => None;
     server := fun _ => if rejects then Rejected "denied" else Resolved |}.

(** The same for a file outside any location. *)
Definition ephemeralProps (path : string) (rejects : bool) : Props :=
  let n := {| nip_path := path; nip_is_dir := false |} in
  {| item := NonIndexedPath n;
     selected := true; isDragging := false;
     explorerSelection := Some [NonIndexedPath n];
     quickPreviewIsOpen := false;
     fullName := Some "notes.txt"%string;
     getIndexedItemFilePath := fun _ => None;
     getEphemeralPath :=
       fun x => match x with NonIndexedPath n => Some n | _ => None end;
     server := fun _ => if rejects then Rejected "denied" else Resolved |}.

Definition shown (text : string) : Text :=
  {| innerText := Some text; effects := [] |}.

(** The state the component starts in: the ref is created with [null], and
    the component hands it to no element. *)
Definition initialText : Text := {| innerText := None; effects := [] |}.

(** A run of renames, each with the props of its render. *)
Definition renames (calls : list (Props * string)) (st : Text) : Text :=
  fold_left (fun st call => handleRename (fst call) (snd call) st) calls st.

End RenamableItemText.

(** ** The horizontal scroller *)

Module HorizontalScroll.

(** The scrolled element: the three layout numbers the hook reads. *)
Record ScrollElement := { scrollLeft : Q; scrollWidth : Q; clientWidth : Q }.

(** The two pieces of component state. *)
Record ScrollState := { scroll : Q; lastItemVisible : bool }.

Definition initialState : ScrollState :=
  {| scroll := 0%Q; lastItemVisible := false |}.

Definition updateScrollState (ref : option ScrollElement) (st : ScrollState)
  : ScrollState :=
  match ref with
  | Some element =>
      {| scroll := scrollLeft element;
         lastItemVisible :=
           Qeq_bool (scrollWidth element - clientWidth element)%Q
             (scrollLeft element) |}
  | None => st
  end.

Inductive Direction := toRight | toLeft.

(** The [left] position handed to [element.scrollTo], if any. *)
Definition handleArrowOnClick (ref : option ScrollElement)
  (direction : Direction) : option Q :=
  match ref with
  | None => None
  | Some element =>
      Some (match direction with
            | toLeft => scrollLeft element - 200
            | toRight => scrollLeft element + 200
            end)%Q
  end.

(** A click on the arrow button at the left edge, which takes no pointer
    events while [scroll === 0]. *)
Definition clickLeftButton (ref : option ScrollElement) (st : ScrollState)
  : option Q :=
  if Qeq_bool (scroll st) 0 then None else handleArrowOnClick ref toRight.

(** A click on the arrow button at the right edge, which takes no pointer
    events while the last item is visible. *)
Definition clickRightButton (ref : option ScrollElement) (st : ScrollState)
  : option Q :=
  if lastItemVisible st then None else handleArrowOnClick ref toLeft.

End HorizontalScroll.

(** The shapes of what one call emits. *)
Inductive RenameRun (p : RenamableItemText.Props) (newName : string)
  (st : RenamableItemText.Text) : Prop :=
| RunRefused (message : string)
    (Hemitted : RenamableItemText.emitted p newName st
                = [RenamableItemText.CouldNotRename
                     (RenamableItemText.fullName p) newName
                     (RenamableItemText.ErrorObject message)])
    (Hstate : RenamableItemText.handleRename p newName st
              = RenamableItemText.log
                  (RenamableItemText.CouldNotRename
                     (RenamableItemText.fullName p) newName
                     (RenamableItemText.ErrorObject message))
                  (RenamableItemText.reset p st))
    (Hmessage :
       message = "Invalid explorer item type"%string
       <-> RenamableItemText.includes RenamableItemText.RENAMABLE_ITEM_TYPES
             (RenamableItemText.typeOf (RenamableItemText.item p)) = false)
| RunResolved (m : RenamableItemText.Mutation)
    (Hserver : RenamableItemText.server p m = Resolved)
    (Hrenamable :
       RenamableItemText.includes RenamableItemText.RENAMABLE_ITEM_TYPES
         (RenamableItemText.typeOf (RenamableItemText.item p)) = true)
    (Hemitted : RenamableItemText.emitted p newName st
                = [RenamableItemText.Sent m;
                   RenamableItemText.InvalidateSearchPaths])
    (Htext : RenamableItemText.innerText
               (RenamableItemText.handleRename p newName st)
             = RenamableItemText.innerText st)
| RunRejected (m : RenamableItemText.Mutation) (error : string)
    (Hserver : RenamableItemText.server p m = Rejected error)
    (Hrenamable :
       RenamableItemText.includes RenamableItemText.RENAMABLE_ITEM_TYPES
         (RenamableItemText.typeOf (RenamableItemText.item p)) = true)
    (Hemitted : RenamableItemText.emitted p newName st
                = match m with
                  | RenamableItemText.EphemeralFilesRenameFile _ _ =>
                      [RenamableItemText.Sent m]
                  | _ =>
                      [RenamableItemText.Sent m;
                       RenamableItemText.CouldNotRename
                         (RenamableItemText.fullName p) newName
                         (RenamableItemText.MutationError error)]
                  end)
    (Htext : RenamableItemText.innerText
               (RenamableItemText.handleRename p newName st)
             = RenamableItemText.innerText
                 (RenamableItemText.reset p st)).

(** * Properties *)

(** ** Escape *)

(** C8: from a state with a non-empty selection, in a selectable view, the
    escape shortcut leaves the selection empty (size 0), the drag-select
    widget without selected targets, and no active item. *)
Theorem escape_clears_selection (env : Env) (s : State) :
  selectable env = true ->
  selectedItems s <> [] ->
  selectedItems (escapeShortcut env s) = []
  /\ List.length (selectedItems (escapeShortcut env s)) = 0%nat
  /\ getSelectedTargets env (escapeShortcut env s) = []
  /\ activeItem (escapeShortcut env s) = None.
Proof.
  intros Hsel Hne.
  unfold escapeShortcut, explorerEscape.
  rewrite Hsel. cbn [negb orb].
  destruct (selectedItems s) as [|x xs] eqn:Hs; [contradiction|].
  cbn [List.length]. rewrite Nat2Z.inj_succ.
  replace (Z.succ (Z.of_nat (List.length xs)) =? 0) with false
    by (symmetry; apply Z.eqb_neq; lia).
  unfold setSelectedTargets, getSelectedTargets, clearActiveEffect.
  destruct (allowMultiSelect env); cbn; repeat split; reflexivity.
Qed.

Lemma escape_clears_selection_witness :
  let env := squareEnv 5 20 true false 0%Q (zrange 0 20) in
  let s := selectionOf 5 0%Q [7; 8] (Some 8) in
  selectedItems (escapeShortcut env s) = []
  /\ List.length (selectedItems (escapeShortcut env s)) = 0%nat
  /\ getSelectedTargets env (escapeShortcut env s) = []
  /\ activeItem (escapeShortcut env s) = None.
Proof.
  intros env s.
  apply (escape_clears_selection env s); [reflexivity | discriminate].
Defined.

(** ** Keyboard navigation *)

Lemma size_zero_iff {A} (l : list A) :
  (Z.of_nat (List.length l) =? 0) = true <-> l = [].
Proof.
  destruct l as [|x xs]; cbn [List.length]; split; intro H;
    try reflexivity; discriminate.
Qed.

Lemma size_nonzero {A} (l : list A) :
  l <> [] -> (Z.of_nat (List.length l) =? 0) = false.
Proof.
  intro H. destruct (Z.of_nat (List.length l) =? 0) eqn:E; [|reflexivity].
  apply size_zero_iff in E. contradiction.
Qed.

(** The handler, read through [dataAt]. *)
Lemma keyboardHandler_no_data (env : Env) (shiftKey : bool) (i : Z) (s : State) :
  dataAt env i = None -> keyboardHandler env shiftKey i s = s.
Proof.
  unfold dataAt, keyboardHandler. intro H.
  destruct (selectable env); cbn [negb]; [|reflexivity].
  destruct (getItem env i) as [it|]; [|reflexivity].
  rewrite H. reflexivity.
Qed.

Lemma keyboardHandler_unmounted (env : Env) (shiftKey : bool) (i : Z)
  (s : State) (data : ExplorerItem) :
  allowMultiSelect env = true ->
  dataAt env i = Some data ->
  getElementById env (uniqueId env data) = None ->
  keyboardHandler env shiftKey i s = s.
Proof.
  unfold dataAt, keyboardHandler. intros Hm Hd He.
  destruct (selectable env); cbn [negb]; [|reflexivity].
  destruct (getItem env i) as [it|]; [|reflexivity].
  rewrite Hd, Hm. cbn [negb]. rewrite He. reflexivity.
Qed.

Lemma pressArrow_nonempty (env : Env) (key : ArrowKey) (shiftKey : bool)
  (s : State) :
  (key = ArrowDown -> selectedItems s <> []) ->
  pressArrow env key shiftKey s =
  if negb (selectable env) || isAnyDialogOpen env then s
  else arrowShortcut env key shiftKey s.
Proof.
  intro H. destruct key; cbn [pressArrow]; try reflexivity.
  unfold explorerDown.
  rewrite (size_nonzero (selectedItems s) (H eq_refl)). reflexivity.
Qed.

(** C10: in multi-select mode an arrow keypress whose target item exists
    but for which the element lookup returns nothing changes nothing,
    neither the selection nor the active item; nor does the down key on an
    empty selection when the lookup returns nothing for the item of
    index 0. *)
Theorem unmounted_target_is_noop (env : Env) (shiftKey : bool) (s : State)
  (data : ExplorerItem) :
  getElementById env (uniqueId env data) = None ->
  (forall key newIndex,
      allowMultiSelect env = true ->
      (key = ArrowDown -> selectedItems s <> []) ->
      getGridItemHandler env key s = Some newIndex ->
      dataAt env newIndex = Some data ->
      pressArrow env key shiftKey s = s)
  /\ (selectedItems s = [] ->
      dataAt env 0 = Some data ->
      explorerDown env shiftKey s = s).
Proof.
  intro He. split.
  - intros key newIndex Hm Hne Hidx Hd.
    rewrite (pressArrow_nonempty env key shiftKey s Hne).
    destruct (negb (selectable env) || isAnyDialogOpen env); [reflexivity|].
    unfold arrowShortcut. rewrite Hidx.
    exact (keyboardHandler_unmounted env shiftKey newIndex s data Hm Hd He).
  - intros Hs Hd. unfold explorerDown.
    destruct (negb (selectable env) || isAnyDialogOpen env); [reflexivity|].
    rewrite (proj2 (size_zero_iff (selectedItems s)) Hs).
    unfold dataAt in Hd.
    destruct (getItem env 0) as [it|]; [|reflexivity].
    rewrite Hd, He. reflexivity.
Qed.

Lemma unmounted_target_is_noop_witness :
  let far := squareEnv 5 400 true false (-33000)%Q (zrange 300 50) in
  let s := selectionOf 5 (-33000)%Q [7] (Some 7) in
  let empty := selectionOf 5 (-33000)%Q [] None in
  pressArrow far ArrowDown false s = s
  /\ selectedItems (pressArrow far ArrowDown false s) = [fileItem 7]
  /\ activeItem (pressArrow far ArrowDown false s) = Some (fileItem 7)
  /\ explorerDown far false empty = empty.
Proof.
  intros far s empty.
  assert (H12 : pressArrow far ArrowDown false s = s).
  { apply (proj1 (unmounted_target_is_noop far false s (fileItem 12)
                    eq_refl) ArrowDown 12);
      [reflexivity | discriminate | reflexivity | reflexivity]. }
  split; [exact H12|]. rewrite H12.
  split; [reflexivity|]. split; [reflexivity|].
  apply (proj2 (unmounted_target_is_noop far false empty (fileItem 0)
                  eq_refl)); reflexivity.
Defined.

(** ** Drag end *)

(** What the reduction of [getActiveItem] returns: nothing only when it
    started from nothing and no element has an item; otherwise an item that
    is the starting one or that of some element, of index at most that of
    the starting one and of every element's item. *)
Lemma leastItem_fold (env : Env) (elements : list Element) :
  forall acc,
    match fold_left (leastItem env) elements acc with
    | None =>
      acc = None
      /\ forall el, In el elements -> getElementItem env el = None
    | Some it =>
      (acc = Some it
       \/ exists el, In el elements /\ getElementItem env el = Some it)
      /\ (forall a, acc = Some a -> gi_index it <= gi_index a)
      /\ (forall el it', In el elements ->
                         getElementItem env el = Some it' ->
                         gi_index it <= gi_index it')
    end.
Proof.
  induction elements as [|el els IH]; intro acc; cbn [fold_left].
  - destruct acc as [a|].
    + split; [left; reflexivity|]. split.
      * intros a' Ha. injection Ha as <-. lia.
      * intros el it' [].
    + split; [reflexivity|]. intros el [].
  - specialize (IH (leastItem env acc el)).
    destruct (fold_left (leastItem env) els (leastItem env acc el)) as [it|].
    + destruct IH as (Hfrom & Hacc & Hall).
      unfold leastItem in Hfrom, Hacc.
      destruct (getElementItem env el) as [cur|] eqn:Hcur.
      * destruct acc as [a|].
        -- destruct (gi_index cur <? gi_index a) eqn:Hlt.
           ++ apply Z.ltb_lt in Hlt. split; [|split].
              ** destruct Hfrom as [Hf | (el' & Hin & Hel')].
                 --- injection Hf as <-. right. exists el.
                     split; [left; reflexivity | exact Hcur].
                 --- right. exists el'. split; [right; exact Hin | exact Hel'].
              ** intros a' Ha. injection Ha as <-.
                 specialize (Hacc cur eq_refl). lia.
              ** intros el' it' [<- | Hin] Hel'.
                 --- rewrite Hcur in Hel'. injection Hel' as <-.
                     exact (Hacc cur eq_refl).
                 --- exact (Hall el' it' Hin Hel').
           ++ apply Z.ltb_ge in Hlt. split; [|split].
              ** destruct Hfrom as [Hf | (el' & Hin & Hel')].
                 --- left. exact Hf.
                 --- right. exists el'. split; [right; exact Hin | exact Hel'].
              ** intros a' Ha. injection Ha as <-. exact (Hacc a eq_refl).
              ** intros el' it' [<- | Hin] Hel'.
                 --- rewrite Hcur in Hel'. injection Hel' as <-.
                     specialize (Hacc a eq_refl). lia.
                 --- exact (Hall el' it' Hin Hel').
        -- split; [|split].
           ++ right. destruct Hfrom as [Hf | (el' & Hin & Hel')].
              ** injection Hf as <-. exists el.
                 split; [left; reflexivity | exact Hcur].
              ** exists el'. split; [right; exact Hin | exact Hel'].
           ++ intros a Ha. discriminate Ha.
           ++ intros el' it' [<- | Hin] Hel'.
              ** rewrite Hcur in Hel'. injection Hel' as <-.
                 exact (Hacc cur eq_refl).
              ** exact (Hall el' it' Hin Hel').
      * split; [|split].
        -- destruct Hfrom as [Hf | (el' & Hin & Hel')].
           ++ left. exact Hf.
           ++ right. exists el'. split; [right; exact Hin | exact Hel'].
        -- exact Hacc.
        -- intros el' it' [<- | Hin] Hel'.
           ++ rewrite Hcur in Hel'. discriminate Hel'.
           ++ exact (Hall el' it' Hin Hel').
    + destruct IH as (Hacc & Hall). unfold leastItem in Hacc.
      destruct (getElementItem env el) as [cur|] eqn:Hcur.
      * destruct acc as [a|]; [|discriminate Hacc].
        destruct (gi_index cur <? gi_index a); discriminate Hacc.
      * split; [exact Hacc|].
        intros el' [<- | Hin]; [exact Hcur | exact (Hall el' Hin)].
Qed.

(** C5: drag end clears the per-drag bookkeeping (first and last touched
    column, the drag-from-thumbnail flag, the is-drag-selecting flag), keeps
    the selection, and makes the active item the data of the grid item of
    least index among the widget's selected targets: when some target has a
    grid item, the active item is the data of such an item, whose index is at
    most that of every target's item; when none has, there is no active
    item. *)
Theorem drag_end_sets_least_anchor (env : Env) (s : State) :
  let s' := handleDragEnd env s in
  let targets := getSelectedTargets env s in
  isDragSelecting s' = false
  /\ selectoFirstColumn s' = None
  /\ selectoLastColumn s' = None
  /\ dragFromThumbnail s' = false
  /\ selectedItems s' = selectedItems s
  /\ ((forall el, In el targets -> getElementItem env el = None) ->
      activeItem s' = None)
  /\ ((exists el, In el targets /\ getElementItem env el <> None) ->
      exists el it,
        In el targets /\ getElementItem env el = Some it
        /\ activeItem s' = gi_data it
        /\ forall el' it', In el' targets ->
                           getElementItem env el' = Some it' ->
                           gi_index it <= gi_index it').
Proof.
  intros s' targets.
  assert (Ht : getSelectedTargets env
                 (set_dragFromThumbnail false
                    (set_selectoColumns None None
                       (set_isDragSelecting false s))) = targets).
  { unfold targets, getSelectedTargets.
    destruct (allowMultiSelect env); reflexivity. }
  assert (Ha : activeItem s' = getActiveItem env targets).
  { unfold s', handleDragEnd. cbv zeta. rewrite Ht. reflexivity. }
  repeat (split; [reflexivity|]).
  rewrite Ha. unfold getActiveItem.
  pose proof (leastItem_fold env targets None) as Hfold.
  destruct (fold_left (leastItem env) targets None) as [it|].
  - destruct Hfold as (Hfrom & _ & Hall).
    destruct Hfrom as [Hf | (el & Hin & Hel)]; [discriminate Hf|].
    split.
    + intro Hnone. rewrite (Hnone el Hin) in Hel. discriminate Hel.
    + intros _. exists el, it. repeat split; assumption.
  - destruct Hfold as (_ & Hall). split; [reflexivity|].
    intros (el & Hin & Hel). elim Hel. exact (Hall el Hin).
Qed.

Lemma drag_end_sets_least_anchor_witness :
  let env := squareEnv 4 24 true false 0%Q (zrange 0 24) in
  let s :=
    {| selectedItems := map fileItem [13; 9; 17];
       selectoTargets := map (fileElement 4 0%Q) [13; 9; 17];
       selectoUnselected := []; selectoFirstColumn := Some 1;
       selectoLastColumn := Some 1; activeItem := None;
       dragFromThumbnail := true; isDragSelecting := true |} in
  activeItem (handleDragEnd env s) = Some (fileItem 9)
  /\ exists el it,
      In el (getSelectedTargets env s) /\ getElementItem env el = Some it
      /\ activeItem (handleDragEnd env s) = gi_data it
      /\ forall el' it', In el' (getSelectedTargets env s) ->
                         getElementItem env el' = Some it' ->
                         gi_index it <= gi_index it'.
Proof.
  intros env s. split; [reflexivity|].
  apply (proj2 (proj2 (proj2 (proj2 (proj2 (proj2
           (drag_end_sets_least_anchor env s))))))).
  exists (fileElement 4 0%Q 13). split; [left; reflexivity | discriminate].
Defined.

(** ** Arrow keys *)

Lemma findIndex_from_ge {A} (p : A -> bool) (l : list A) :
  forall i j, findIndex_from p l i = Some j -> i <= j.
Proof.
  induction l as [|x l IH]; intros i j H; cbn in H; [discriminate|].
  destruct (p x).
  - injection H as <-. lia.
  - apply IH in H. lia.
Qed.

(** The index an arrow key computes: the index of the active item in the
    collection, moved by the step of the key. *)
Lemma getGridItemHandler_index (env : Env) (key : ArrowKey) (s : State)
  (anchor : ExplorerItem) (i : Z) :
  activeItem s = Some anchor ->
  findIndex (fun item => item_eqb item anchor) (items env) = Some i ->
  i < totalCount (grid env) ->
  getGridItemHandler env key s = Some (i + arrowDelta env key).
Proof.
  intros Ha Hi Hlt. unfold getGridItemHandler. rewrite Ha, Hi.
  assert (0 <= i) by (apply findIndex_from_ge in Hi; exact Hi).
  unfold getItem.
  replace (i <? 0) with false by (symmetry; apply Z.ltb_ge; lia).
  replace (totalCount (grid env) <=? i) with false
    by (symmetry; apply Z.leb_gt; lia).
  cbn [orb gi_index]. destruct key; cbn [arrowDelta]; f_equal; lia.
Qed.

(** When the target item exists and, in multi-select mode, the lookup
    finds its element and the shift key does not extend, the keypress
    replaces the selection by the target and makes it the active item. *)
Lemma pressArrow_replaces (env : Env) (key : ArrowKey) (shiftKey : bool)
  (s : State) (newIndex : Z) (data : ExplorerItem) :
  selectable env = true ->
  isAnyDialogOpen env = false ->
  (key = ArrowDown -> selectedItems s <> []) ->
  getGridItemHandler env key s = Some newIndex ->
  dataAt env newIndex = Some data ->
  allowMultiSelect env = false
  \/ (shiftKey && negb (quickPreviewOpen env) = false
      /\ getElementById env (uniqueId env data) <> None) ->
  selectedItems (pressArrow env key shiftKey s) = [data]
  /\ activeItem (pressArrow env key shiftKey s) = Some data.
Proof.
  intros Hsel Hdlg Hne Hidx Hd Hmode.
  rewrite (pressArrow_nonempty env key shiftKey s Hne).
  rewrite Hsel, Hdlg. cbn [negb orb].
  unfold arrowShortcut. rewrite Hidx.
  unfold keyboardHandler, dataAt in *. rewrite Hsel. cbn [negb].
  destruct (getItem env newIndex) as [it|]; [|discriminate Hd].
  rewrite Hd.
  destruct Hmode as [Hm | (Hshift & Hel)].
  - rewrite Hm. cbn. split; reflexivity.
  - destruct (allowMultiSelect env) eqn:Hm; cbn [negb].
    + destruct (getElementById env (uniqueId env data)) as [el|];
        [|contradiction].
      rewrite Hshift. unfold setSelectedTargets. rewrite Hm.
      match goal with
      | |- context [if ?c then _ else _] => destruct c
      end; cbn; split; reflexivity.
    + cbn. split; reflexivity.
Qed.

(** C6 as amended: an arrow keypress without shift for whose target item
    the element lookup ([getElementById]: the selector query written for the
    id of the item) finds an element, or any arrow keypress with multi-select
    disabled, replaces the selection with exactly the item at the computed
    index (the index of the active item moved by 1 for left and right and by
    the column count for up and down) and makes it the active item. *)
Theorem arrow_replaces_selection (env : Env) (key : ArrowKey)
  (shiftKey : bool) (s : State) (anchor : ExplorerItem) (i : Z)
  (data : ExplorerItem) :
  selectable env = true ->
  isAnyDialogOpen env = false ->
  (key = ArrowDown -> selectedItems s <> []) ->
  activeItem s = Some anchor ->
  findIndex (fun item => item_eqb item anchor) (items env) = Some i ->
  i < totalCount (grid env) ->
  dataAt env (i + arrowDelta env key) = Some data ->
  allowMultiSelect env = false
  \/ (shiftKey = false /\ getElementById env (uniqueId env data) <> None) ->
  selectedItems (pressArrow env key shiftKey s) = [data]
  /\ activeItem (pressArrow env key shiftKey s) = Some data.
Proof.
  intros Hsel Hdlg Hne Ha Hi Hlt Hd Hmode.
  apply (pressArrow_replaces env key shiftKey s (i + arrowDelta env key) data);
    try assumption.
  - exact (getGridItemHandler_index env key s anchor i Ha Hi Hlt).
  - destruct Hmode as [Hm | (-> & Hel)]; [left; exact Hm|].
    right. split; [reflexivity | exact Hel].
Qed.

(** Scenario A: 20 items in 5 columns, all mounted and found by the
    lookup, index 7 selected; the down key gives the selection {12} with the
    item of index 12 as active item. *)
Lemma arrow_replaces_selection_witness :
  let env := squareEnv 5 20 true false 0%Q (zrange 0 20) in
  let s := selectionOf 5 0%Q [7] (Some 7) in
  selectedItems (pressArrow env ArrowDown false s) = [fileItem 12]
  /\ activeItem (pressArrow env ArrowDown false s) = Some (fileItem 12).
Proof.
  intros env s.
  apply (arrow_replaces_selection env ArrowDown false s (fileItem 7) 7
           (fileItem 12));
    try reflexivity; try discriminate.
  right. split; [reflexivity | discriminate].
Defined.

(** C6 as stated fails when multi-select is enabled and the lookup finds
    no element for the target item, here because the element is not mounted:
    with index 7 selected and the view scrolled far down, the down key finds
    the item of index 12 but leaves the selection at {7}. *)
Lemma arrow_replaces_selection_counterexample :
  let far := squareEnv 5 400 true false (-33000)%Q (zrange 300 50) in
  let s := selectionOf 5 (-33000)%Q [7] (Some 7) in
  selectable far = true
  /\ isAnyDialogOpen far = false
  /\ getGridItemHandler far ArrowDown s = Some 12
  /\ dataAt far 12 = Some (fileItem 12)
  /\ selectedItems (pressArrow far ArrowDown false s) = [fileItem 7]
  /\ activeItem (pressArrow far ArrowDown false s) = Some (fileItem 7)
  /\ selectedItems (pressArrow far ArrowDown false s) <> [fileItem 12].
Proof.
  intros far s. repeat (split; [reflexivity|]).
  vm_compute. discriminate.
Qed.

Lemma dataAt_outside (env : Env) (i : Z) :
  i < 0 \/ totalCount (grid env) <= i
  \/ Z.of_nat (List.length (items env)) <= i ->
  dataAt env i = None.
Proof.
  intro H. unfold dataAt, getItem.
  destruct (i <? 0) eqn:Hneg; [reflexivity|].
  destruct (totalCount (grid env) <=? i) eqn:Htot; [reflexivity|].
  cbn [orb gi_data]. unfold at_index. rewrite Hneg.
  apply Z.ltb_ge in Hneg. apply Z.leb_gt in Htot.
  apply nth_error_None. lia.
Qed.

(** C2 as amended: an arrow keypress whose computed index has no item is a
    no-op; there is no item below index 0 or past the end of the collection,
    so the keys do not wrap around either end; in particular the left key
    changes nothing when the active item is the first of the collection. *)
Theorem arrow_without_item_is_noop (env : Env) (shiftKey : bool) (s : State) :
  (forall key newIndex,
      (key = ArrowDown -> selectedItems s <> []) ->
      getGridItemHandler env key s = Some newIndex ->
      dataAt env newIndex = None ->
      pressArrow env key shiftKey s = s)
  /\ (forall i,
      i < 0 \/ totalCount (grid env) <= i
      \/ Z.of_nat (List.length (items env)) <= i ->
      dataAt env i = None)
  /\ (forall anchor,
      activeItem s = Some anchor ->
      findIndex (fun item => item_eqb item anchor) (items env) = Some 0 ->
      pressArrow env ArrowLeft shiftKey s = s).
Proof.
  assert (Hnoop : forall key newIndex,
             (key = ArrowDown -> selectedItems s <> []) ->
             getGridItemHandler env key s = Some newIndex ->
             dataAt env newIndex = None ->
             pressArrow env key shiftKey s = s).
  { intros key newIndex Hne Hidx Hd.
    rewrite (pressArrow_nonempty env key shiftKey s Hne).
    destruct (negb (selectable env) || isAnyDialogOpen env); [reflexivity|].
    unfold arrowShortcut. rewrite Hidx.
    exact (keyboardHandler_no_data env shiftKey newIndex s Hd). }
  split; [exact Hnoop|]. split; [exact (dataAt_outside env)|].
  intros anchor Ha Hi.
  destruct (getGridItemHandler env ArrowLeft s) as [newIndex|] eqn:Hidx.
  - apply (Hnoop ArrowLeft newIndex); [discriminate | exact Hidx |].
    unfold getGridItemHandler in Hidx. rewrite Ha, Hi in Hidx.
    destruct (getItem env 0) as [it|] eqn:Hit; [|discriminate Hidx].
    unfold getItem in Hit.
    destruct ((0 <? 0) || (totalCount (grid env) <=? 0)); [discriminate Hit|].
    injection Hit as <-. cbn [gi_index] in Hidx. injection Hidx as <-.
    apply dataAt_outside. left. lia.
  - cbn [pressArrow]. unfold explorerLeft, arrowShortcut. rewrite Hidx.
    destruct (negb (selectable env) || isAnyDialogOpen env); reflexivity.
Qed.

Lemma arrow_without_item_is_noop_witness :
  let env := squareEnv 5 20 true false 0%Q (zrange 0 20) in
  let first := selectionOf 5 0%Q [0] (Some 0) in
  let last := selectionOf 5 0%Q [17] (Some 17) in
  pressArrow env ArrowLeft false first = first
  /\ pressArrow env ArrowDown false last = last.
Proof.
  intros env first last. split.
  - apply (proj2 (proj2 (arrow_without_item_is_noop env false first))
             (fileItem 0)); reflexivity.
  - apply (proj1 (arrow_without_item_is_noop env false last) ArrowDown 22);
      [discriminate | reflexivity | reflexivity].
Defined.

(** C2 as stated fails: with 20 items in 5 columns and the item of index 5
    selected and active (column 0 of the second row), the left key moves to
    index 4, the last column of the row above. *)
Lemma left_at_column_zero_counterexample :
  let env := squareEnv 5 20 true false 0%Q (zrange 0 20) in
  let s := selectionOf 5 0%Q [5] (Some 5) in
  selectedItems s <> []
  /\ option_map gi_column (getItem env 5) = Some 0
  /\ activeItem s = Some (fileItem 5)
  /\ selectedItems (pressArrow env ArrowLeft false s) = [fileItem 4]
  /\ activeItem (pressArrow env ArrowLeft false s) = Some (fileItem 4)
  /\ selectedItems (pressArrow env ArrowLeft false s) <> selectedItems s.
Proof.
  intros env s. split; [discriminate|].
  repeat (split; [reflexivity|]).
  vm_compute. discriminate.
Qed.

(** ** Shift and the quick preview *)

(** C3 as amended: while the quick preview is open the shift key does not
    extend the selection: a shift+arrow keypress does what the same key does
    without shift, so that, when the target item exists and the element
    lookup finds its element, the selection is replaced by exactly the
    target item, which becomes the active item. *)
Theorem shift_ignored_in_quick_preview (env : Env) (key : ArrowKey)
  (s : State) :
  quickPreviewOpen env = true ->
  pressArrow env key true s = pressArrow env key false s
  /\ (forall anchor i data,
      selectable env = true ->
      isAnyDialogOpen env = false ->
      (key = ArrowDown -> selectedItems s <> []) ->
      activeItem s = Some anchor ->
      findIndex (fun item => item_eqb item anchor) (items env) = Some i ->
      i < totalCount (grid env) ->
      dataAt env (i + arrowDelta env key) = Some data ->
      getElementById env (uniqueId env data) <> None ->
      selectedItems (pressArrow env key true s) = [data]
      /\ activeItem (pressArrow env key true s) = Some data).
Proof.
  intro Hqp. split.
  - assert (Hk : forall i, keyboardHandler env true i s
                           = keyboardHandler env false i s).
    { intro i. unfold keyboardHandler. rewrite Hqp. reflexivity. }
    destruct key; cbn [pressArrow];
      unfold explorerDown, explorerUp, explorerLeft, explorerRight,
        arrowShortcut;
      repeat match goal with
             | |- context [getGridItemHandler env ?k s] =>
               destruct (getGridItemHandler env k s)
             end;
      rewrite ?Hk; reflexivity.
  - intros anchor i data Hsel Hdlg Hne Ha Hi Hlt Hd Hel.
    apply (pressArrow_replaces env key true s (i + arrowDelta env key) data);
      try assumption.
    + exact (getGridItemHandler_index env key s anchor i Ha Hi Hlt).
    + right. rewrite Hqp. split; [reflexivity | exact Hel].
Qed.

Lemma shift_ignored_in_quick_preview_witness :
  let env := squareEnv 5 20 true true 0%Q (zrange 0 20) in
  let s := selectionOf 5 0%Q [3] (Some 3) in
  pressArrow env ArrowRight true s = pressArrow env ArrowRight false s
  /\ selectedItems (pressArrow env ArrowRight true s) = [fileItem 4]
  /\ activeItem (pressArrow env ArrowRight true s) = Some (fileItem 4).
Proof.
  intros env s.
  destruct (shift_ignored_in_quick_preview env ArrowRight s eq_refl)
    as [Hsame Hrep].
  split; [exact Hsame|].
  apply (Hrep (fileItem 3) 3 (fileItem 4));
    try reflexivity; discriminate.
Defined.

(** C3 as stated fails: with multi-select enabled, the selection {3}, the
    item of index 3 active and the quick preview open, shift+right leaves
    the selection at {4}, not at {3}. *)
Lemma shift_in_quick_preview_counterexample :
  let env := squareEnv 5 20 true true 0%Q (zrange 0 20) in
  let s := selectionOf 5 0%Q [3] (Some 3) in
  allowMultiSelect env = true
  /\ quickPreviewOpen env = true
  /\ selectedItems s = [fileItem 3]
  /\ activeItem s = Some (fileItem 3)
  /\ selectedItems (pressArrow env ArrowRight true s) = [fileItem 4]
  /\ selectedItems (pressArrow env ArrowRight true s) <> selectedItems s.
Proof.
  intros env s. repeat (split; [reflexivity|]).
  vm_compute. discriminate.
Qed.

(** ** Single selection *)




(** ** The open dispatcher: failures of the platform *)

Lemma awaitOpen_notToast (call : Action) (r : Outcome) :
  notToast call = true -> filter notToast (awaitOpen call r) = [call].
Proof.
  intro H. destruct r; cbn [awaitOpen filter]; rewrite H; reflexivity.
Qed.

Lemma emit_sameButToasts (a1 a2 : list Action) (w1 w2 : World) :
  filter notToast a1 = filter notToast a2 ->
  sameButToasts w1 w2 -> sameButToasts (emit a1 w1) (emit a2 w2).
Proof.
  intros Ha (He & Hq & Ht). unfold sameButToasts, emit. cbn.
  rewrite !filter_app, Ha, Ht. repeat split; assumption.
Qed.

Lemma openQuickPreview_sameButToasts (i : Z) (w1 w2 : World) :
  sameButToasts w1 w2 ->
  sameButToasts (openQuickPreview i w1) (openQuickPreview i w2).
Proof.
  intros (He & Hq & Ht). unfold sameButToasts, openQuickPreview. cbn.
  repeat split; assumption.
Qed.

Create HintDb dispatch.

#[local] Hint Resolve emit_sameButToasts openQuickPreview_sameButToasts
  : dispatch.

Lemma openNonIndexed_resolving (p : Platform) (item : option ExplorerItem)
  (i : Z) (b : Buckets) (w1 w2 : World) :
  sameButToasts w1 w2 ->
  sameButToasts (openNonIndexed p item i b w1)
                (openNonIndexed (resolving p) item i b w2).
Proof.
  intro H. destruct p as [uid uuid mode ofp oef]. unfold openNonIndexed.
  cbn [resolving openOnDoubleClick openEphemeralFiles].
  assert (Hlabel : forall v1 v2, sameButToasts v1 v2 ->
            sameButToasts
              match item with
              | Some (Label l) => emit [NavigateLabelSearch (label_id l)] v1
              | _ => v1
              end
              match item with
              | Some (Label l) => emit [NavigateLabelSearch (label_id l)] v2
              | _ => v2
              end).
  { intros v1 v2 Hv. destruct item as [[ | | | | | l]|]; auto with dispatch. }
  destruct (non_indexed b) as [|n rest]; [apply Hlabel; exact H|].
  destruct (match rest with [] => nip_is_dir n | _ => false end);
    [auto with dispatch|].
  destruct mode, oef as [open|]; cbn [option_map].
  - apply Hlabel. apply emit_sameButToasts; [|exact H].
    rewrite !awaitOpen_notToast; reflexivity.
  - apply Hlabel; exact H.
  - destruct item as [it|]; [|apply Hlabel; exact H].
    destruct (previewable it); [auto with dispatch | apply Hlabel; exact H].
  - destruct item as [it|]; [|apply Hlabel; exact H].
    destruct (previewable it); [auto with dispatch | apply Hlabel; exact H].
Qed.

Lemma openDirs_resolving (p : Platform) (item : option ExplorerItem)
  (i : Z) (b : Buckets) (w1 w2 : World) :
  sameButToasts w1 w2 ->
  sameButToasts (openDirs p item i b w1) (openDirs (resolving p) item i b w2).
Proof.
  intro H. unfold openDirs.
  destruct (dirs b); [|auto with dispatch].
  destruct (locations b); [|auto with dispatch].
  apply openNonIndexed_resolving. exact H.
Qed.

Lemma doubleClick_resolving (p : Platform) (item : option ExplorerItem)
  (w : World) :
  sameButToasts (doubleClick p item w) (doubleClick (resolving p) item w).
Proof.
  assert (Hw : sameButToasts w w) by (repeat split).
  unfold doubleClick.
  destruct (selectedItems (explorer w)) as [|x xs]; [exact Hw|].
  change (partitionSelection (resolving p) item (x :: xs))
    with (partitionSelection p item (x :: xs)).
  destruct (partitionSelection p item (x :: xs)) as [itemIndex b].
  destruct (paths b) as [|f fs]; [apply openDirs_resolving; exact Hw|].
  destruct p as [uid uuid mode ofp oef].
  cbn [resolving openOnDoubleClick openFilePaths library_uuid].
  destruct mode, ofp as [open|]; cbn [option_map].
  - apply (openDirs_resolving
             {| dc_uniqueId := uid; library_uuid := uuid;
                openOnDoubleClick := openFile; openFilePaths := Some open;
                openEphemeralFiles := oef |}).
    apply emit_sameButToasts; [|exact Hw].
    cbn [filter notToast isToast negb].
    rewrite !awaitOpen_notToast; reflexivity.
  - apply (openDirs_resolving
             {| dc_uniqueId := uid; library_uuid := uuid;
                openOnDoubleClick := openFile; openFilePaths := None;
                openEphemeralFiles := oef |}). exact Hw.
  - destruct item as [it|].
    + destruct (previewable it); [auto with dispatch|].
      apply (openDirs_resolving
               {| dc_uniqueId := uid; library_uuid := uuid;
                  openOnDoubleClick := quickPreview;
                  openFilePaths := Some open; openEphemeralFiles := oef |}).
      exact Hw.
    + apply (openDirs_resolving
               {| dc_uniqueId := uid; library_uuid := uuid;
                  openOnDoubleClick := quickPreview;
                  openFilePaths := Some open; openEphemeralFiles := oef |}).
      exact Hw.
  - destruct item as [it|].
    + destruct (previewable it); [auto with dispatch|].
      apply (openDirs_resolving
               {| dc_uniqueId := uid; library_uuid := uuid;
                  openOnDoubleClick := quickPreview;
                  openFilePaths := None; openEphemeralFiles := oef |}).
      exact Hw.
    + apply (openDirs_resolving
               {| dc_uniqueId := uid; library_uuid := uuid;
                  openOnDoubleClick := quickPreview;
                  openFilePaths := None; openEphemeralFiles := oef |}).
      exact Hw.
Qed.

(** The dispatcher never writes the selection state, only extends the
    trace, and in open-file mode never touches the quick preview. *)
Ltac dispatch_cases :=
  repeat match goal with
         | |- context [match ?x with _ => _ end] =>
           lazymatch x with
           | context [match _ with _ => _ end] => fail
           | _ => destruct x
           end
         end.

Lemma openDirs_frame (p : Platform) (item : option ExplorerItem) (i : Z)
  (b : Buckets) (w : World) :
  explorer (openDirs p item i b w) = explorer w
  /\ (forall a, In a (trace w) -> In a (trace (openDirs p item i b w)))
  /\ (openOnDoubleClick p = openFile ->
      quickPreviewStore (openDirs p item i b w) = quickPreviewStore w).
Proof.
  unfold openDirs, openNonIndexed, emit, openQuickPreview.
  dispatch_cases; cbn; repeat split; intros;
    try reflexivity; try discriminate; try assumption;
    repeat (apply in_or_app; left); assumption.
Qed.

Lemma doubleClick_explorer (p : Platform) (item : option ExplorerItem)
  (w : World) :
  explorer (doubleClick p item w) = explorer w.
Proof.
  unfold doubleClick.
  destruct (selectedItems (explorer w)) as [|x xs]; [reflexivity|].
  destruct (partitionSelection p item (x :: xs)) as [itemIndex b].
  destruct (paths b); [apply openDirs_frame|].
  destruct (openOnDoubleClick p), (openFilePaths p), item as [it|];
    try apply openDirs_frame;
    try (destruct (previewable it); [reflexivity | apply openDirs_frame]);
    match goal with
    | |- explorer (openDirs ?p ?i ?n ?b ?w) = _ =>
      rewrite (proj1 (openDirs_frame p i n b w)); reflexivity
    end.
Qed.

(** C9: when a platform open call is rejected the dispatcher does not
    fail: it emits the toast "Failed to open file" and goes on as after a
    call that resolved.  The selection state (selection, active item and
    the rest) is what it was before the double click, and the world reached
    differs from the one reached with resolving calls only by toasts; the
    quick preview is not touched either. *)
Theorem open_failure_is_recovered (p : Platform)
  (item : option ExplorerItem) (w : World) :
  explorer (doubleClick p item w) = explorer w
  /\ sameButToasts (doubleClick p item w) (doubleClick (resolving p) item w)
  /\ (forall open error,
      openOnDoubleClick p = openFile ->
      openFilePaths p = Some open ->
      selectedItems (explorer w) <> [] ->
      paths (snd (partitionSelection p item (selectedItems (explorer w))))
        <> [] ->
      open (library_uuid p)
        (map fp_id
           (paths (snd (partitionSelection p item
                          (selectedItems (explorer w))))))
        = Rejected error ->
      In (failedToOpen error) (trace (doubleClick p item w))
      /\ quickPreviewStore (doubleClick p item w) = quickPreviewStore w)
  /\ (forall open error,
      openOnDoubleClick p = openFile ->
      openEphemeralFiles p = Some open ->
      selectedItems (explorer w) <> [] ->
      let b := snd (partitionSelection p item (selectedItems (explorer w))) in
      dirs b = [] -> locations b = [] -> non_indexed b <> [] ->
      (forall n, non_indexed b = [n] -> nip_is_dir n = false) ->
      open (map nip_path (non_indexed b)) = Rejected error ->
      In (failedToOpen error) (trace (doubleClick p item w))
      /\ quickPreviewStore (doubleClick p item w) = quickPreviewStore w).
Proof.
  split; [apply doubleClick_explorer|].
  split; [apply doubleClick_resolving|].
  split.
  - intros open error Hmode Hopen Hsel Hpaths Hrej.
    unfold doubleClick.
    destruct (selectedItems (explorer w)) as [|x xs]; [contradiction|].
    destruct (partitionSelection p item (x :: xs)) as [itemIndex b].
    cbn [snd] in Hpaths, Hrej.
    destruct (paths b) as [|f fs] eqn:Hp; [contradiction|].
    rewrite Hmode, Hopen, Hrej.
    match goal with
    | |- In _ (trace (openDirs ?p ?i ?n ?b ?w')) /\ _ =>
      destruct (openDirs_frame p i n b w') as (_ & Hin & Hqp)
    end.
    split.
    + apply Hin. cbn. apply in_or_app. right. right. right. left.
      reflexivity.
    + rewrite (Hqp Hmode). reflexivity.
  - intros open error Hmode Hopen Hsel b Hd Hl Hn Hlone Hrej.
    unfold doubleClick. subst b.
    destruct (selectedItems (explorer w)) as [|x xs]; [contradiction|].
    destruct (partitionSelection p item (x :: xs)) as [itemIndex b].
    cbn [snd] in *.
    assert (Hgo : forall w',
               In (failedToOpen error) (trace (openDirs p item itemIndex b w'))
               /\ quickPreviewStore (openDirs p item itemIndex b w')
                  = quickPreviewStore w').
    { intro w'. unfold openDirs, openNonIndexed. rewrite Hd, Hl.
      destruct (non_indexed b) as [|n rest] eqn:Hnb; [contradiction|].
      assert (Hnot : match rest with
                     | [] => nip_is_dir n
                     | _ :: _ => false
                     end = false).
      { destruct rest; [apply Hlone|]; reflexivity. }
      rewrite Hnot, Hmode, Hopen, Hrej.
      destruct item as [[ | | | | | l]|]; cbn; split; try reflexivity;
        repeat (apply in_or_app; first [right; cbn; tauto | left]). }
    destruct (paths b) as [|f fs]; [apply Hgo|].
    rewrite Hmode.
    destruct (openFilePaths p) as [openf|].
    + match goal with
      | |- In _ (trace (openDirs _ _ _ _ ?w')) /\ _ =>
        destruct (Hgo w') as (Hin & Hqp)
      end.
      split; [exact Hin | rewrite Hqp; reflexivity].
    + destruct item; apply Hgo.
Qed.

Lemma open_failure_is_recovered_witness :
  let p := failingPlatform openFile in
  let w := freshWorld [fileItem 1; fileItem 2] in
  let clicked := Some (fileItem 2) in
  explorer (doubleClick p clicked w) = explorer w
  /\ In (failedToOpen "denied") (trace (doubleClick p clicked w))
  /\ quickPreviewStore (doubleClick p clicked w) = quickPreviewStore w
  /\ trace (doubleClick p clicked w)
     = [UpdateAccessTime [3; 2]; OpenFilePaths "lib" [2; 1];
        failedToOpen "denied"]
  /\ trace (doubleClick (resolving p) clicked w)
     = [UpdateAccessTime [3; 2]; OpenFilePaths "lib" [2; 1]].
Proof.
  intros p w clicked.
  destruct (open_failure_is_recovered p clicked w) as (He & _ & Hfile & _).
  split; [exact He|].
  destruct (Hfile (fun _ _ => Rejected "denied") "denied"%string)
    as (Hin & Hqp); try reflexivity; try discriminate.
  split; [exact Hin|]. split; [exact Hqp|].
  split; reflexivity.
Defined.

(** ** The open dispatcher: buckets and priority *)











(** ** The order inside a bucket *)

Lemma splice_front {A} (x : A) (l : list A) : splice 0 x l = x :: l.
Proof.
  unfold splice. cbn [Z.ltb Z.compare].
  replace (Z.to_nat (Z.min 0 (Z.of_nat (List.length l)))) with 0%nat by lia.
  reflexivity.
Qed.

Lemma splice_back {A} (y : A) (l : list A) :
  splice (-1) y (firstLast l) = firstLast (l ++ [y]).
Proof.
  destruct l as [|x r]; [reflexivity|]. cbn [firstLast app].
  unfold splice. cbn [Z.ltb Z.compare].
  rewrite length_app. cbn [List.length].
  replace (Z.to_nat (Z.max (Z.of_nat (List.length r + 1) + -1) 0))
    with (List.length r + 0)%nat by lia.
  rewrite firstn_app_2, skipn_app. cbn [firstn].
  rewrite skipn_all2 by lia.
  replace (List.length r + 0 - List.length r)%nat with 0%nat by lia.
  cbn [skipn app]. rewrite app_nil_r, <- app_assoc. reflexivity.
Qed.

(** Insertions of which none is the clicked item rotate the array by one;
    the clicked item goes to the front unless the bucket was empty. *)
Lemma spliceAll_unflagged {A} (ins : list (bool * A)) :
  forall pre,
    (forall fx, In fx ins -> fst fx = false) ->
    spliceAll ins (firstLast pre) = firstLast (pre ++ map snd ins).
Proof.
  induction ins as [|[f y] ins IH]; intros pre Hun; cbn [spliceAll fold_left map].
  - rewrite app_nil_r. reflexivity.
  - assert (Hf : f = false) by exact (Hun (f, y) (or_introl eq_refl)).
    subst f. cbn [fst snd]. rewrite splice_back.
    fold (spliceAll ins (firstLast (pre ++ [y]))).
    rewrite IH by (intros fx Hfx; apply Hun; right; exact Hfx).
    rewrite <- app_assoc. reflexivity.
Qed.

Lemma spliceAll_app {A} (ins1 ins2 : list (bool * A)) (b : list A) :
  spliceAll (ins1 ++ ins2) b = spliceAll ins2 (spliceAll ins1 b).
Proof. unfold spliceAll. apply fold_left_app. Qed.

Lemma spliceAll_clicked {A} (pre post : list (bool * A)) (x : A) :
  (forall fx, In fx pre -> fst fx = false) ->
  (forall fx, In fx post -> fst fx = false) ->
  spliceAll (pre ++ (true, x) :: post) []
  = match pre with
    | [] => firstLast (x :: map snd post)
    | _ :: _ => x :: firstLast (map snd pre ++ map snd post)
    end.
Proof.
  intros Hpre Hpost.
  change ((true, x) :: post) with ([(true, x)] ++ post).
  rewrite !spliceAll_app.
  change (@nil A) with (@firstLast A []) at 1.
  rewrite (spliceAll_unflagged pre [] Hpre). cbn [app].
  unfold spliceAll at 2. cbn [fold_left fst snd]. rewrite splice_front.
  destruct pre as [|[f0 y0] pre'].
  - cbn [map firstLast].
    change [x] with (firstLast [x]).
    rewrite (spliceAll_unflagged post [x] Hpost). reflexivity.
  - cbn [map snd firstLast].
    change (x :: map snd pre' ++ [y0])
      with (firstLast (y0 :: x :: map snd pre')).
    rewrite (spliceAll_unflagged post _ Hpost).
    cbn [firstLast app]. rewrite <- !app_assoc. reflexivity.
Qed.

Lemma addFilePath_spliceAll (same : bool) (fps : list FilePath) :
  forall b,
    let b' := fold_left (addFilePath same) fps b in
    dirs b'
    = spliceAll (map (fun fp => (same, fp))
                   (filter (fun fp => Bool.eqb (fp_is_dir fp) true) fps))
        (dirs b)
    /\ paths b'
       = spliceAll (map (fun fp => (same, fp))
                      (filter (fun fp => Bool.eqb (fp_is_dir fp) false) fps))
           (paths b)
    /\ locations b' = locations b
    /\ non_indexed b' = non_indexed b.
Proof.
  induction fps as [|f fps IH]; intro b; cbn [fold_left]; cbv zeta.
  - repeat split; reflexivity.
  - destruct (IH (addFilePath same b f)) as (Hd & Hp & Hl & Hn).
    cbv zeta in Hd, Hp, Hl, Hn. rewrite Hd, Hp, Hl, Hn.
    unfold addFilePath. cbn [filter].
    destruct (fp_is_dir f); cbn [Bool.eqb map dirs paths locations non_indexed];
      repeat split; reflexivity.
Qed.

Lemma partition_spliceAll (p : Platform) (item : option ExplorerItem)
  (sel : list ExplorerItem) :
  forall acc,
    let b := snd (fst acc) in
    let b' := snd (fst (fold_left (bucketStep p item) sel acc)) in
    dirs b' = spliceAll (filePathInsertions true p item sel) (dirs b)
    /\ paths b' = spliceAll (filePathInsertions false p item sel) (paths b)
    /\ locations b' = spliceAll (locationInsertions p item sel) (locations b)
    /\ non_indexed b'
       = spliceAll (nonIndexedInsertions p item sel) (non_indexed b).
Proof.
  induction sel as [|x sel IH]; intro acc; cbn [fold_left]; cbv zeta.
  - repeat split; reflexivity.
  - destruct (IH (bucketStep p item acc x)) as (Hd & Hp & Hl & Hn).
    cbv zeta in Hd, Hp, Hl, Hn. rewrite Hd, Hp, Hl, Hn.
    unfold filePathInsertions, locationInsertions, nonIndexedInsertions.
    cbn [flat_map]. rewrite !spliceAll_app.
    destruct acc as [[idx b] i]. cbn [fst snd bucketStep].
    destruct x as [f | o | l0 | n0 | name | lab]; cbn [fst snd].
    + destruct (addFilePath_spliceAll (sameAsClicked p item (Path f)) [f] b)
        as (Sd & Sp & Sl & Sn).
      cbv zeta in Sd, Sp, Sl, Sn. rewrite Sd, Sp, Sl, Sn.
      repeat split; reflexivity.
    + destruct (addFilePath_spliceAll (sameAsClicked p item (Object o))
                  (obj_file_paths o) b) as (Sd & Sp & Sl & Sn).
      cbv zeta in Sd, Sp, Sl, Sn. rewrite Sd, Sp, Sl, Sn.
      repeat split; reflexivity.
    + repeat split; reflexivity.
    + repeat split; reflexivity.
    + repeat split; reflexivity.
    + repeat split; reflexivity.
Qed.







(** ** The marquee tick in a single column *)

Lemma has_In (x : ExplorerItem) (l : list ExplorerItem) :
  has x l = true <-> In x l.
Proof.
  unfold has. rewrite existsb_exists. split.
  - intros (y & Hy & He). unfold item_eqb in He.
    destruct (ExplorerItem_eq_dec x y); [subst; exact Hy | discriminate].
  - intro H. exists x. split; [exact H|]. unfold item_eqb.
    destruct (ExplorerItem_eq_dec x x); [reflexivity | contradiction].
Qed.

Lemma In_addSelectedItem (env : Env) (x y : ExplorerItem) (s : State) :
  allowMultiSelect env = true ->
  In y (selectedItems (addSelectedItem env x s)) <->
  y = x \/ In y (selectedItems s).
Proof.
  intro Hm. unfold addSelectedItem. rewrite Hm.
  destruct (has x (selectedItems s)) eqn:Hh.
  - apply has_In in Hh. split; [tauto|]. intros [-> | H]; assumption.
  - cbn [selectedItems set_selectedItems]. rewrite in_app_iff. cbn [In].
    intuition congruence.
Qed.

Lemma In_removeSelectedItem (x y : ExplorerItem) (s : State) :
  In y (selectedItems (removeSelectedItem x s)) <->
  y <> x /\ In y (selectedItems s).
Proof.
  unfold removeSelectedItem. cbn [selectedItems set_selectedItems].
  rewrite filter_In. unfold item_eqb.
  destruct (ExplorerItem_eq_dec x y); cbn [negb]; intuition congruence.
Qed.

(** The indices of the loop are those [k] rows away, [k = 1 .. n]. *)
Lemma dragIndices_In (down : bool) (firstIndex n cc j : Z) :
  In j (dragIndices down firstIndex n cc) <->
  exists k, 1 <= k <= n /\ j = firstIndex + (if down then - k else k) * cc.
Proof.
  unfold dragIndices, dragIndex. rewrite in_map_iff. split.
  - intros (i & <- & Hi). apply in_seq in Hi.
    destruct down.
    + exists (n - Z.of_nat i). split; [lia | reflexivity].
    + exists (Z.of_nat i + 1). split; [lia | reflexivity].
  - intros (k & Hk & ->). destruct down.
    + exists (Z.to_nat (n - k)). split.
      * rewrite Z2Nat.id by lia. f_equal. f_equal. lia.
      * apply in_seq. lia.
    + exists (Z.to_nat (k - 1)). split.
      * rewrite Z2Nat.id by lia. f_equal. f_equal. lia.
      * apply in_seq. lia.
Qed.

Lemma dragIndices_NoDup (down : bool) (firstIndex n cc : Z) :
  cc <> 0 -> NoDup (dragIndices down firstIndex n cc).
Proof.
  intro Hcc. unfold dragIndices.
  apply Injective_map_NoDup; [|apply seq_NoDup].
  intros a b H. unfold dragIndex in H. destruct down; nia.
Qed.

Section SynthLoop.

Variable env : Env.
Variables shiftKey inArea : bool.
Hypothesis multi : allowMultiSelect env = true.

Let step := synthItem env shiftKey inArea.

(** One turn of the loop touches the membership of at most the item at
    its index. *)
Lemma synthItem_other (acc : State * list string) (j : Z) (x : ExplorerItem) :
  at_index (items env) j <> Some x ->
  (In x (selectedItems (fst (step acc j))) <-> In x (selectedItems (fst acc))).
Proof using multi.
  intro Hne. unfold step, synthItem. destruct acc as [s un].
  destruct (at_index (items env) j) as [item|]; [|reflexivity].
  assert (x <> item) by congruence.
  destruct shiftKey; [destruct (has item (selectedItems s))|
                      destruct (negb inArea)];
    cbn [fst];
    rewrite ?In_removeSelectedItem, ?(In_addSelectedItem env item x s multi);
    tauto.
Qed.

Lemma synth_frame (l : list Z) (x : ExplorerItem) :
  forall acc,
    (forall j, In j l -> at_index (items env) j <> Some x) ->
    (In x (selectedItems (fst (fold_left step l acc)))
     <-> In x (selectedItems (fst acc))).
Proof using multi.
  induction l as [|j l IH]; intros acc Hl; cbn [fold_left]; [reflexivity|].
  rewrite IH by (intros j' Hj'; apply Hl; right; exact Hj').
  apply synthItem_other. apply Hl. left. reflexivity.
Qed.

(** What the turn at the index of [x] does to [x]. *)
Lemma synthItem_self (acc : State * list string) (j : Z) (x : ExplorerItem) :
  at_index (items env) j = Some x ->
  (shiftKey = false -> inArea = true ->
   In x (selectedItems (fst (step acc j))))
  /\ (shiftKey = false -> inArea = false ->
      ~ In x (selectedItems (fst (step acc j))))
  /\ (shiftKey = true ->
      (In x (selectedItems (fst (step acc j)))
       <-> ~ In x (selectedItems (fst acc)))).
Proof using multi.
  intro Hx. unfold step, synthItem. destruct acc as [s un]. rewrite Hx.
  split; [|split].
  - intros -> ->. cbn [negb fst].
    apply (In_addSelectedItem env x x s multi). left. reflexivity.
  - intros -> ->. cbn [negb fst]. rewrite In_removeSelectedItem. tauto.
  - intros ->. destruct (has x (selectedItems s)) eqn:Hh; cbn [fst].
    + apply has_In in Hh. rewrite In_removeSelectedItem. tauto.
    + rewrite (In_addSelectedItem env x x s multi).
      assert (~ In x (selectedItems s)).
      { intro H. apply has_In in H. congruence. }
      tauto.
Qed.

(** The loop over indices that name [x] exactly once. *)
Lemma synth_once (l1 l2 : list Z) (j : Z) (x : ExplorerItem)
  (acc : State * list string) :
  at_index (items env) j = Some x ->
  (forall j', In j' (l1 ++ l2) -> at_index (items env) j' <> Some x) ->
  let s' := fst (fold_left step (l1 ++ j :: l2) acc) in
  (shiftKey = false -> inArea = true -> In x (selectedItems s'))
  /\ (shiftKey = false -> inArea = false -> ~ In x (selectedItems s'))
  /\ (shiftKey = true ->
      (In x (selectedItems s') <-> ~ In x (selectedItems (fst acc)))).
Proof using multi.
  intros Hx Hothers s'. unfold s'.
  rewrite fold_left_app. cbn [fold_left].
  assert (H1 : forall j', In j' l1 -> at_index (items env) j' <> Some x).
  { intros j' Hj'. apply Hothers. apply in_or_app. left. exact Hj'. }
  assert (H2 : forall j', In j' l2 -> at_index (items env) j' <> Some x).
  { intros j' Hj'. apply Hothers. apply in_or_app. right. exact Hj'. }
  rewrite (synth_frame l2 x _ H2).
  destruct (synthItem_self (fold_left step l1 acc) j x Hx) as (Ha & Hr & Ht).
  split; [exact Ha|]. split; [exact Hr|].
  intro Hs. rewrite (Ht Hs), (synth_frame l1 x acc H1). reflexivity.
Qed.

(** Without shift the loop only adds in the drag area and only removes
    outside of it. *)
Lemma synth_selects (l : list Z) (x : ExplorerItem) :
  shiftKey = false -> inArea = true ->
  forall acc,
    In x (selectedItems (fst acc))
    \/ (exists j, In j l /\ at_index (items env) j = Some x) ->
    In x (selectedItems (fst (fold_left step l acc))).
Proof using multi.
  intros Hs Ha. induction l as [|a l IH]; intros acc H; cbn [fold_left].
  - destruct H as [H | (j & [] & _)]. exact H.
  - apply IH. destruct H as [H | (j & [<- | Hj] & Hat)].
    + left. unfold step, synthItem. destruct acc as [s un].
      destruct (at_index (items env) a) as [item|]; [|exact H].
      rewrite Hs, Ha. cbn [negb fst].
      apply (In_addSelectedItem env item x s multi). right. exact H.
    + left. exact (proj1 (synthItem_self acc a x Hat) Hs Ha).
    + right. exists j. tauto.
Qed.

Lemma synth_unselects (l : list Z) (x : ExplorerItem) :
  shiftKey = false -> inArea = false ->
  forall acc,
    ~ In x (selectedItems (fst acc))
    \/ (exists j, In j l /\ at_index (items env) j = Some x) ->
    ~ In x (selectedItems (fst (fold_left step l acc))).
Proof using multi.
  intros Hs Ha. induction l as [|a l IH]; intros acc H; cbn [fold_left].
  - destruct H as [H | (j & [] & _)]. exact H.
  - apply IH. destruct H as [H | (j & [<- | Hj] & Hat)].
    + left. unfold step, synthItem. destruct acc as [s un].
      destruct (at_index (items env) a) as [item|]; [|exact H].
      rewrite Hs, Ha. cbn [negb fst].
      rewrite In_removeSelectedItem. tauto.
    + left. exact (proj1 (proj2 (synthItem_self acc a x Hat)) Hs Ha).
    + right. exists j. tauto.
Qed.

End SynthLoop.

Lemma at_index_NoDup {A} (l : list A) (i j : Z) (x : A) :
  NoDup l -> at_index l i = Some x -> at_index l j = Some x -> i = j.
Proof.
  unfold at_index. intros Hnd Hi Hj.
  destruct (i <? 0) eqn:Ei; [discriminate|].
  destruct (j <? 0) eqn:Ej; [discriminate|].
  apply Z.ltb_ge in Ei. apply Z.ltb_ge in Ej.
  assert (Z.to_nat i = Z.to_nat j).
  { apply (proj1 (NoDup_nth_error l) Hnd).
    - apply nth_error_Some. congruence.
    - congruence. }
  lia.
Qed.

(** The ceiling above 1 and the rounding with halves up otherwise is
    [ceil_or_round]. *)
Lemma rounding_spec (q : Q) :
  ceil_or_round q (if Qltb 1 q then Qceiling q else Qfloor (q + (1 # 2))).
Proof.
  unfold ceil_or_round, Qltb.
  destruct (Qle_bool q 1) eqn:Hq; cbn [negb].
  - apply Qle_bool_iff in Hq. split; [intro H1; lra|]. intros _.
    pose proof (Qfloor_le (q + (1 # 2))) as Hlo.
    pose proof (Qlt_floor (q + (1 # 2))) as Hhi.
    rewrite inject_Z_plus in Hhi. change (inject_Z 1) with 1%Q in Hhi.
    revert Hlo Hhi. generalize (inject_Z (Qfloor (q + (1 # 2)))).
    intros z Hlo Hhi. split; lra.
  - assert (H1 : (1 < q)%Q).
    { apply Qnot_le_lt. intro H. apply Qle_bool_iff in H. congruence. }
    split; [|intro H; lra]. intros _.
    pose proof (Qceiling_lt q) as Hlt. pose proof (Qle_ceiling q) as Hle.
    unfold Z.sub in Hlt. rewrite inject_Z_plus in Hlt.
    change (inject_Z (- (1))) with (-1 # 1)%Q in Hlt.
    revert Hlt Hle. generalize (inject_Z (Qceiling q)).
    intros z Hlt Hle. split; lra.
Qed.

Lemma arrayLength_integer (z n : Z) :
  arrayLength (Double.Finite (inject_Z z)) = Some n ->
  n = z /\ 0 <= n <= 4294967295.
Proof.
  unfold arrayLength. rewrite Qfloor_Z.
  destruct (Qeq_bool (inject_Z z) (inject_Z z) && (0 <=? z)
            && (z <=? 4294967295)) eqn:Hb; [|discriminate].
  intro H. injection H as <-.
  apply andb_true_iff in Hb. destruct Hb as [Hb Hhi].
  apply andb_true_iff in Hb. destruct Hb as [_ Hlo].
  apply Z.leb_le in Hlo. apply Z.leb_le in Hhi. lia.
Qed.

(** The rounded count comes from a finite quotient, is what
    [ceil_or_round] asks for of it, and is an array length. *)
Lemma itemsInDragCount_spec (dragHeight : Double.t) (gap height : Q) (n : Z) :
  itemsInDragCount dragHeight gap height = Some n ->
  0 <= n
  /\ exists q,
      itemsInDragQuotient dragHeight gap height = Double.Finite q
      /\ ceil_or_round q n.
Proof.
  unfold itemsInDragCount. cbv zeta.
  destruct (itemsInDragQuotient dragHeight gap height) as [q | neg |].
  - cbn [Double.ltb Math_ceil Math_round].
    pose proof (rounding_spec q) as Hr.
    destruct (Qltb 1 q); intro H; apply arrayLength_integer in H;
      destruct H as [-> H]; (split; [lia|]); exists q;
      (split; [reflexivity | exact Hr]).
  - cbn [Double.ltb]. destruct (negb neg); discriminate.
  - discriminate.
Qed.

(** The count is defined, and the loop runs, whenever the quotient is
    finite and lies between -1/2 and the largest array length. *)
Lemma itemsInDragCount_defined (dragHeight : Double.t) (gap height : Q)
  (q : Q) :
  itemsInDragQuotient dragHeight gap height = Double.Finite q ->
  (- (1 # 2) <= q)%Q ->
  (q <= 4294967295)%Q ->
  exists n, itemsInDragCount dragHeight gap height = Some n.
Proof.
  intros Hq Hlo Hhi. unfold itemsInDragCount. rewrite Hq. cbv zeta.
  cbn [Double.ltb].
  assert (Hm : 0 <= (if Qltb 1 q then Qceiling q else Qfloor (q + (1 # 2)))
               <= 4294967295).
  { unfold Qltb.
    destruct (Qle_bool q 1) eqn:Hq1; cbn [negb].
    - apply Qle_bool_iff in Hq1. split.
      + rewrite <- (Qfloor_Z 0). apply Qfloor_resp_le.
        change (inject_Z 0) with 0%Q. lra.
      + rewrite <- (Qfloor_Z 4294967295). apply Qfloor_resp_le.
        change (inject_Z 4294967295) with 4294967295%Q. lra.
    - assert (H1 : (1 < q)%Q).
      { apply Qnot_le_lt. intro H. apply Qle_bool_iff in H. congruence. }
      split.
      + rewrite <- (Qceiling_Z 0). apply Qceiling_resp_le.
        change (inject_Z 0) with 0%Q. lra.
      + rewrite <- (Qceiling_Z 4294967295). apply Qceiling_resp_le.
        change (inject_Z 4294967295) with 4294967295%Q. exact Hhi. }
  assert (Hint : forall z, 0 <= z <= 4294967295 ->
                           arrayLength (Double.Finite (inject_Z z)) = Some z).
  { intros z Hz. unfold arrayLength. rewrite Qfloor_Z.
    replace (Qeq_bool (inject_Z z) (inject_Z z)) with true
      by (symmetry; apply Qeq_bool_iff; reflexivity).
    replace (0 <=? z) with true by (symmetry; apply Z.leb_le; lia).
    replace (z <=? 4294967295) with true by (symmetry; apply Z.leb_le; lia).
    reflexivity. }
  destruct (Qltb 1 q); cbn [Math_ceil Math_round];
    eexists; apply Hint; exact Hm.
Qed.

Lemma directHits_lastColumn (env : Env) (e : SelectEvent) (s : State) :
  selectoLastColumn (fst (directHits env e s)) = selectoLastColumn s.
Proof.
  unfold directHits.
  assert (Ha : forall l s0,
             selectoLastColumn (fold_left (addHit env) l s0)
             = selectoLastColumn s0).
  { induction l as [|el l IH]; intro s0; cbn [fold_left]; [reflexivity|].
    rewrite IH. unfold addHit, addSelectedItem.
    destruct (getElementItem env el) as [it|]; [|reflexivity].
    destruct (gi_data it); [|reflexivity].
    destruct (allowMultiSelect env); [|reflexivity].
    destruct (has e0 (selectedItems s0)); reflexivity. }
  assert (Hr : forall l acc,
             selectoLastColumn (fst (fold_left (removeHit env) l acc))
             = selectoLastColumn (fst acc)).
  { induction l as [|el l IH]; intro acc; cbn [fold_left]; [reflexivity|].
    rewrite IH. unfold removeHit. destruct acc as [s0 un].
    destruct (getElementItem env el) as [it|]; [|reflexivity].
    destruct (gi_data it), (gi_id it); try reflexivity.
    destruct (document_contains env el); reflexivity. }
  rewrite Hr. cbn [fst]. apply Ha.
Qed.

Lemma mergeUnselected_selectedItems (inArea : bool) (column : Z) (s : State)
  (un : list string) :
  selectedItems (mergeUnselected (touchColumn inArea column s, un))
  = selectedItems s.
Proof.
  unfold mergeUnselected, touchColumn.
  destruct (0 <? Z.of_nat (List.length un));
    destruct (negb inArea && option_Z_eqb (selectoFirstColumn s) column);
    reflexivity.
Qed.

(** C1 as amended.  Take a tick of the marquee whose added and removed
    targets lie in exactly one column, such that the column is not the last
    touched one or the pointer is outside the drag area of the column, and
    such that the drag started beyond the near edge of the nearest hit item
    (above its top when dragging down, below its bottom when dragging up).
    Then the tick ends normally; the count [n] of implied rows is the
    quotient (dragHeight - rowGap) / (rowHeight + rowGap), taken in doubles
    as the drag height is, rounded up when it exceeds 1 and to the nearest
    integer otherwise; the loop visits exactly
    the indices [firstItem.index -/+ k * columnCount], [k = 1 .. n]; and,
    relative to the selection left by the directly hit targets, only the
    items at those indices change: without shift they are all selected when
    the pointer is in the drag area and all unselected when it is not, and
    with shift each is toggled. *)
Theorem single_column_sweep (env : Env) (e : SelectEvent) (s : State)
  (el0 : Element) (rest : list Element) (column : Z) (firstItem : GridItem)
  (n : Z) :
  allowMultiSelect env = true ->
  added e ++ removed e = el0 :: rest ->
  dragColumns (dragItems env (added e ++ removed e)) = [column] ->
  gateOpen s column (inDragArea e (el_rect el0)) = true ->
  (if dragDown e
   then hd_error (sortBy gi_row (dragItems env (added e ++ removed e)))
   else hd_error (rev (sortBy gi_row (dragItems env (added e ++ removed e)))))
  = Some firstItem ->
  crossed env e firstItem = true ->
  itemsInDragCount (dragHeight env e firstItem) (gap_y (grid env))
    (virtualItemSize_height (grid env)) = Some n ->
  exists s',
    onSelectMouseMove env e s = Some s'
    /\ (exists q,
           itemsInDragQuotient (dragHeight env e firstItem) (gap_y (grid env))
             (virtualItemSize_height (grid env)) = Double.Finite q
           /\ ceil_or_round q n)
    /\ (forall j,
           In j (dragIndices (dragDown e) (gi_index firstItem) n
                   (columnCount (grid env)))
           <-> exists k, 1 <= k <= n
                         /\ j = gi_index firstItem
                                + (if dragDown e then - k else k)
                                  * columnCount (grid env))
    /\ (forall x,
           ~ impliedItem env (dragDown e) (gi_index firstItem) n x ->
           (In x (selectedItems s')
            <-> In x (selectedItems (fst (directHits env e s)))))
    /\ (ev_shiftKey e = false -> inDragArea e (el_rect el0) = true ->
        forall x, impliedItem env (dragDown e) (gi_index firstItem) n x ->
                  In x (selectedItems s'))
    /\ (ev_shiftKey e = false -> inDragArea e (el_rect el0) = false ->
        forall x, impliedItem env (dragDown e) (gi_index firstItem) n x ->
                  ~ In x (selectedItems s'))
    /\ (ev_shiftKey e = true -> NoDup (items env) ->
        columnCount (grid env) <> 0 ->
        forall x, impliedItem env (dragDown e) (gi_index firstItem) n x ->
                  (In x (selectedItems s')
                   <-> ~ In x (selectedItems (fst (directHits env e s))))).
Proof.
  intros Hm Hels Hcols Hgate Hfirst Hcross Hcount.
  set (acc := directHits env e s).
  set (inArea := inDragArea e (el_rect el0)) in *.
  set (l := dragIndices (dragDown e) (gi_index firstItem) n
              (columnCount (grid env))).
  set (out := fold_left (synthItem env (ev_shiftKey e) inArea) l acc).
  exists (mergeUnselected (touchColumn inArea column (fst out), snd out)).
  assert (Himplied : forall x,
             impliedItem env (dragDown e) (gi_index firstItem) n x
             <-> exists j, In j l /\ at_index (items env) j = Some x).
  { intro x. unfold impliedItem, l. split.
    - intros (k & Hk & Hx). eexists. split; [|exact Hx].
      apply dragIndices_In. exists k. split; [exact Hk | reflexivity].
    - intros (j & Hj & Hx). apply dragIndices_In in Hj.
      destruct Hj as (k & Hk & ->). exists k. split; assumption. }
  assert (Hg : gateOpen (fst acc) column inArea = true).
  { unfold gateOpen in *. unfold acc. rewrite directHits_lastColumn.
    exact Hgate. }
  split.
  { unfold onSelectMouseMove. rewrite Hels in Hcols, Hfirst |- *.
    rewrite Hcols.
    change (1 <? Z.of_nat (List.length [column])) with false. cbv iota.
    unfold singleColumn. fold acc. fold inArea.
    rewrite Hg, Hfirst.
    unfold synthesize. rewrite Hcross, Hcount. fold l. fold out.
    destruct out as [s1 un]. reflexivity. }
  split; [exact (proj2 (itemsInDragCount_spec _ _ _ _ Hcount))|].
  split; [intro j; apply dragIndices_In|].
  rewrite mergeUnselected_selectedItems.
  split.
  { intros x Hx. apply (synth_frame env _ _ Hm).
    intros j Hj Hat. apply Hx. apply Himplied. exists j. tauto. }
  split.
  { intros Hs Ha x Hx.
    apply (synth_selects env _ _ Hm l x Hs Ha). right.
    apply Himplied. exact Hx. }
  split.
  { intros Hs Ha x Hx.
    apply (synth_unselects env _ _ Hm l x Hs Ha). right.
    apply Himplied. exact Hx. }
  intros Hs Hnd Hcc x Hx. apply Himplied in Hx.
  destruct Hx as (j & Hj & Hat).
  destruct (in_split _ _ Hj) as (l1 & l2 & Hl).
  assert (Hothers : forall j', In j' (l1 ++ l2) ->
                               at_index (items env) j' <> Some x).
  { intros j' Hj' Hat'.
    assert (j' = j) by (apply (at_index_NoDup (items env) j' j x); assumption).
    subst j'.
    pose proof (dragIndices_NoDup (dragDown e) (gi_index firstItem) n
                  (columnCount (grid env)) Hcc) as Hnodup.
    fold l in Hnodup. rewrite Hl in Hnodup.
    apply NoDup_remove_2 in Hnodup. contradiction. }
  unfold out. rewrite Hl.
  exact (proj2 (proj2 (synth_once env (ev_shiftKey e) inArea Hm l1 l2 j x acc
                         Hat Hothers)) Hs).
Qed.

(** The sweep of property P5: in a grid of 4 columns the rectangle covers
    the rows 1 to 4 of column 1 while only the rows 4 and 5 are mounted; the
    tick selects exactly the items of indices 5, 9, 13 and 17. *)
Lemma single_column_sweep_witness :
  exists s',
    onSelectMouseMove sweepEnv sweepEvent sweepStart = Some s'
    /\ selectedItems s' = map fileItem [17; 5; 9; 13]
    /\ (forall x, In x (selectedItems s')
                  <-> In x (map fileItem [1 * 4 + 1; 2 * 4 + 1; 3 * 4 + 1;
                                          4 * 4 + 1]))
    /\ (forall x, impliedItem sweepEnv true 17 3 x -> In x (selectedItems s'))
    /\ getElementById sweepEnv (kindKey (fileItem 9)) = None.
Proof.
  destruct (single_column_sweep sweepEnv sweepEvent sweepStart
              (fileElement 4 (-300)%Q 17) [] 1 sweepFirst 3
              eq_refl eq_refl eq_refl eq_refl eq_refl eq_refl eq_refl)
    as (s' & Hrun & _ & _ & _ & Hadd & _).
  exists s'. split; [exact Hrun|].
  specialize (Hadd eq_refl eq_refl).
  pose proof Hrun as Hval. vm_compute in Hval. injection Hval as <-.
  split; [reflexivity|]. split; [|split; [exact Hadd | reflexivity]].
  intro x. cbn [selectedItems map In]. tauto.
Defined.

(** C1 as stated fails when the column is the last touched one and the
    pointer is in its drag area: the same tick, met in a drag that has stayed
    in column 1, hits one column only and starts above the top of the nearest
    hit item, yet the implied rows get no change; the items of indices 9 and
    13 stay unselected. *)
Lemma single_column_sweep_counterexample :
  dragColumns (dragItems sweepEnv (added sweepEvent ++ removed sweepEvent))
  = [1]
  /\ crossed sweepEnv sweepEvent sweepFirst = true
  /\ itemsInDragCount (dragHeight sweepEnv sweepEvent sweepFirst)
       (gap_y (grid sweepEnv)) (virtualItemSize_height (grid sweepEnv))
     = Some 3
  /\ selectoLastColumn sweepInColumn = Some 1
  /\ option_map selectedItems
       (onSelectMouseMove sweepEnv sweepEvent sweepInColumn)
     = Some (map fileItem [5; 17])
  /\ forall s',
      onSelectMouseMove sweepEnv sweepEvent sweepInColumn = Some s' ->
      ~ In (fileItem 9) (selectedItems s')
      /\ ~ In (fileItem 13) (selectedItems s').
Proof.
  repeat (split; [reflexivity|]).
  intros s' H. vm_compute in H. injection H as <-.
  split; intro Hin; cbn in Hin;
    repeat (destruct Hin as [Hin | Hin]; [discriminate Hin|]); exact Hin.
Qed.

(** The count is taken in doubles.  In the tick of [tieEvent] the top of
    the nearest hit item is 320 as a double, the drag height is 230 and the
    quotient is 2: two rows are implied and the items of indices 9 and 13 are
    selected beside the hit one.  On the reals the quotient is above 2 and
    its ceiling is 3. *)
Lemma sweep_count_is_rounded :
  dragHeight tieEnv tieEvent sweepFirst = Double.Finite 230
  /\ itemsInDragCount (dragHeight tieEnv tieEvent sweepFirst)
       (gap_y (grid tieEnv)) (virtualItemSize_height (grid tieEnv))
     = Some 2
  /\ option_map selectedItems (onSelectMouseMove tieEnv tieEvent sweepStart)
     = Some (map fileItem [17; 9; 13])
  /\ Qceiling ((Qabs (90 - (440 + viewRectTop tieEnv)) - 10) / (100 + 10))
     = 3.
Proof.
  repeat split; vm_compute; reflexivity.
Qed.



(** * Further properties of the grid *)

(** ** Shift and the arrow keys *)

Lemma dataAt_at_index (env : Env) (i : Z) (d : ExplorerItem) :
  dataAt env i = Some d -> at_index (items env) i = Some d.
Proof.
  unfold dataAt, getItem.
  destruct ((i <? 0) || (totalCount (grid env) <=? i)); [discriminate|].
  cbn [gi_data]. tauto.
Qed.

Lemma at_index_dataAt (env : Env) (i : Z) (d : ExplorerItem) :
  i < totalCount (grid env) ->
  at_index (items env) i = Some d -> dataAt env i = Some d.
Proof.
  intros Hlt Hat. unfold dataAt, getItem.
  assert (Hneg : (i <? 0) = false).
  { unfold at_index in Hat. destruct (i <? 0); [discriminate | reflexivity]. }
  rewrite Hneg.
  replace (totalCount (grid env) <=? i) with false
    by (symmetry; apply Z.leb_gt; lia).
  cbn [orb gi_data]. exact Hat.
Qed.

(** X1: with multi-select enabled and the quick preview closed, a
    shift+arrow keypress whose target item exists and whose element the
    lookup ([getElementById]) finds extends the selection: the target is selected, every item selected before stays
    selected, nothing else is, and the target becomes the active item.  A
    target not yet selected is appended to the selection and its element to
    the widget's targets; on a target already selected only the active item
    moves. *)
Theorem shift_arrow_extends (env : Env) (key : ArrowKey) (s : State)
  (anchor : ExplorerItem) (i : Z) (data : ExplorerItem) (el : Element) :
  selectable env = true ->
  isAnyDialogOpen env = false ->
  allowMultiSelect env = true ->
  quickPreviewOpen env = false ->
  (key = ArrowDown -> selectedItems s <> []) ->
  activeItem s = Some anchor ->
  findIndex (fun item => item_eqb item anchor) (items env) = Some i ->
  i < totalCount (grid env) ->
  dataAt env (i + arrowDelta env key) = Some data ->
  getElementById env (uniqueId env data) = Some el ->
  let s' := pressArrow env key true s in
  (forall x, In x (selectedItems s') <-> x = data \/ In x (selectedItems s))
  /\ activeItem s' = Some data
  /\ (In data (selectedItems s) -> s' = set_activeItem (Some data) s)
  /\ (~ In data (selectedItems s) ->
      selectedItems s' = selectedItems s ++ [data]
      /\ selectoTargets s' = selectoTargets s ++ [el]).
Proof.
  intros Hsel Hdlg Hm Hqp Hne Ha Hi Hlt Hd Hel s'.
  assert (Hs' : s' = set_activeItem (Some data)
                       (if negb (has data (selectedItems s))
                        then setSelectedTargets env
                               (getSelectedTargets env
                                  (addSelectedItem env data s) ++ [el])
                               (addSelectedItem env data s)
                        else s)).
  { unfold s'. rewrite (pressArrow_nonempty env key true s Hne).
    rewrite Hsel, Hdlg. cbn [negb orb]. unfold arrowShortcut.
    rewrite (getGridItemHandler_index env key s anchor i Ha Hi Hlt).
    unfold keyboardHandler, dataAt in *. rewrite Hsel. cbn [negb].
    destruct (getItem env (i + arrowDelta env key)) as [it|];
      [|discriminate Hd].
    rewrite Hd, Hm, Hel, Hqp. reflexivity. }
  clearbody s'. subst s'.
  destruct (has data (selectedItems s)) eqn:Hh; cbn [negb].
  - apply has_In in Hh. cbn [set_activeItem selectedItems activeItem].
    split; [intro x; split; [tauto | intros [-> | H]; assumption]|].
    split; [reflexivity|]. split; [reflexivity|]. intro H. contradiction.
  - assert (Hnot : ~ In data (selectedItems s)).
    { intro H. apply has_In in H. congruence. }
    unfold setSelectedTargets, getSelectedTargets, addSelectedItem.
    rewrite Hm, Hh. cbn.
    split; [intro x; rewrite in_app_iff; cbn [In]; intuition congruence|].
    split; [reflexivity|]. split; [intro H; contradiction|].
    intros _. split; reflexivity.
Qed.

(** Scenario B: selection {3}, shift+right with the quick preview closed
    gives {3, 4} with the item of index 4 active. *)
Lemma shift_arrow_extends_witness :
  let env := squareEnv 5 20 true false 0%Q (zrange 0 20) in
  let s := selectionOf 5 0%Q [3] (Some 3) in
  selectedItems (pressArrow env ArrowRight true s) = map fileItem [3; 4]
  /\ activeItem (pressArrow env ArrowRight true s) = Some (fileItem 4).
Proof.
  intros env s.
  destruct (shift_arrow_extends env ArrowRight s (fileItem 3) 3 (fileItem 4)
              (fileElement 5 0%Q 4))
    as (_ & Hact & _ & Happ); try reflexivity; try discriminate.
  split; [|exact Hact].
  apply Happ. cbn. intros [H | []]. discriminate H.
Defined.

(** ** Arrow keys without an anchor *)

Lemma item_eqb_true (x y : ExplorerItem) : item_eqb x y = true <-> x = y.
Proof.
  unfold item_eqb. destruct (ExplorerItem_eq_dec x y); split;
    intro H; congruence.
Qed.

Lemma findIndex_from_absent {A} (p : A -> bool) (l : list A) :
  forall i, (forall x, In x l -> p x = false) -> findIndex_from p l i = None.
Proof.
  induction l as [|x l IH]; intros i H; cbn [findIndex_from]; [reflexivity|].
  rewrite (H x (or_introl eq_refl)). apply IH.
  intros y Hy. apply H. right. exact Hy.
Qed.

(** X2: an arrow key does nothing at all when the view is not selectable,
    when a dialog is open, or when there is no active item or the active
    item is no longer in the collection (the down key on an empty selection
    apart, which starts a selection instead). *)
Theorem arrows_need_an_anchor (env : Env) (key : ArrowKey) (shiftKey : bool)
  (s : State) :
  (key = ArrowDown -> selectedItems s <> []) ->
  selectable env = false
  \/ isAnyDialogOpen env = true
  \/ activeItem s = None
  \/ (exists a, activeItem s = Some a /\ ~ In a (items env)) ->
  pressArrow env key shiftKey s = s.
Proof.
  intros Hne H. rewrite (pressArrow_nonempty env key shiftKey s Hne).
  destruct H as [H | [H | H]].
  - rewrite H. reflexivity.
  - rewrite H, orb_true_r. reflexivity.
  - destruct (negb (selectable env) || isAnyDialogOpen env); [reflexivity|].
    unfold arrowShortcut, getGridItemHandler.
    destruct H as [H | (a & Ha & Hout)]; rewrite ?H, ?Ha; [reflexivity|].
    unfold findIndex. rewrite findIndex_from_absent; [reflexivity|].
    intros x Hx. destruct (item_eqb x a) eqn:E; [|reflexivity].
    apply item_eqb_true in E. subst x. contradiction.
Qed.

Lemma arrows_need_an_anchor_witness :
  let env := squareEnv 5 20 true false 0%Q (zrange 0 20) in
  let stale :=
    {| selectedItems := [fileItem 99]; selectoTargets := [];
       selectoUnselected := []; selectoFirstColumn := None;
       selectoLastColumn := None; activeItem := Some (fileItem 99);
       dragFromThumbnail := false; isDragSelecting := false |} in
  pressArrow env ArrowUp false stale = stale
  /\ pressArrow env ArrowDown true stale = stale.
Proof.
  intros env stale.
  assert (Hout : ~ In (fileItem 99) (items env)).
  { cbn. intro H.
    repeat (destruct H as [H | H]; [discriminate H|]). exact H. }
  split; apply arrows_need_an_anchor;
    try discriminate;
    right; right; right; exists (fileItem 99); split;
    [reflexivity | exact Hout | reflexivity | exact Hout].
Defined.

(** ** The active item stays selected *)

Lemma keyboardHandler_anchorSelected (env : Env) (shiftKey : bool) (i : Z)
  (s : State) :
  anchorSelected s -> anchorSelected (keyboardHandler env shiftKey i s).
Proof.
  intro Hinv. unfold keyboardHandler.
  destruct (selectable env); cbn [negb]; [|exact Hinv].
  destruct (getItem env i) as [it|]; [|exact Hinv].
  destruct (gi_data it) as [data|]; [|exact Hinv].
  destruct (allowMultiSelect env) eqn:Hm; cbn [negb].
  - destruct (getElementById env (uniqueId env data)) as [el|]; [|exact Hinv].
    destruct (shiftKey && negb (quickPreviewOpen env)).
    + destruct (has data (selectedItems s)) eqn:Hh; cbn [negb].
      * intros a Ha. cbn in Ha. injection Ha as <-.
        cbn. apply has_In. exact Hh.
      * intros a Ha. unfold setSelectedTargets, addSelectedItem in *.
        rewrite Hm, Hh in *. cbn in Ha. injection Ha as <-.
        cbn. apply in_or_app. right. left. reflexivity.
    + intros a Ha. unfold setSelectedTargets in *. rewrite Hm in *.
      destruct (0 <? Z.of_nat (List.length
                  (selectoUnselected
                     (set_selectoTargets [el] (resetSelectedItems [data] s)))));
        cbn in Ha; injection Ha as <-; cbn; left; reflexivity.
  - intros a Ha. cbn in Ha. injection Ha as <-. cbn. left. reflexivity.
Qed.

Lemma applyOp_anchorSelected (env : Env) (op : SelectionOp) (s : State) :
  match op with
  | OpMouseDown _ _ => allowMultiSelect env = false
  | _ => True
  end ->
  anchorSelected s -> anchorSelected (applyOp env op s).
Proof.
  intros Hop Hinv.
  assert (Ha : forall key shiftKey,
             anchorSelected (arrowShortcut env key shiftKey s)).
  { intros key shiftKey. unfold arrowShortcut.
    destruct (getGridItemHandler env key s);
      [apply keyboardHandler_anchorSelected|]; exact Hinv. }
  destruct op as [key shiftKey | | button index]; cbn [applyOp].
  - destruct key; cbn [pressArrow];
      unfold explorerDown, explorerUp, explorerLeft, explorerRight;
      destruct (negb (selectable env) || isAnyDialogOpen env);
      try exact Hinv; try apply Ha.
    destruct (Z.of_nat (List.length (selectedItems s)) =? 0); [|apply Ha].
    destruct (getItem env 0) as [it|]; [|exact Hinv].
    destruct (gi_data it) as [data|]; [|exact Hinv].
    destruct (getElementById env (uniqueId env data)); [|exact Hinv].
    intros a Hact. unfold setSelectedTargets in *.
    destruct (allowMultiSelect env); cbn in Hact; injection Hact as <-;
      cbn; left; reflexivity.
  - unfold escapeShortcut, explorerEscape, clearActiveEffect,
      setSelectedTargets.
    destruct (negb (selectable env)
              || (Z.of_nat (List.length (selectedItems s)) =? 0)).
    + destruct (Z.of_nat (List.length (selectedItems s)) =? 0);
        [|exact Hinv].
      intros a Hact. discriminate Hact.
    + destruct (allowMultiSelect env); intros a Hact; discriminate Hact.
  - unfold onMouseDown.
    destruct (negb (button =? 0) || negb (selectable env)); [exact Hinv|].
    destruct (getItem env index) as [it|]; [|exact Hinv].
    destruct (gi_data it) as [data|]; [|exact Hinv].
    rewrite Hop. intros a Hact. cbn in Hact. injection Hact as <-.
    cbn. left. reflexivity.
Qed.

(** X3: the arrow keys (with or without shift, in either selection mode),
    escape, and mouse-down with multi-select disabled keep the active item
    inside the selection: if it was selected before a run of such
    operations, it is selected after it. *)
Theorem anchor_stays_selected (ops : list (Env * SelectionOp)) (s : State) :
  Forall (fun eo => match snd eo with
                    | OpMouseDown _ _ => allowMultiSelect (fst eo) = false
                    | _ => True
                    end) ops ->
  anchorSelected s ->
  anchorSelected (runOps ops s).
Proof.
  revert s. induction ops as [|[env op] ops IH]; intros s Hall Hinv;
    [exact Hinv|].
  inversion Hall as [|eo ops' Hop Hrest]; subst. cbn [fst snd] in Hop.
  unfold runOps. cbn [fold_left fst snd]. apply IH; [exact Hrest|].
  apply applyOp_anchorSelected; assumption.
Qed.

Lemma anchor_stays_selected_witness :
  let env := squareEnv 5 20 true false 0%Q (zrange 0 20) in
  let s := selectionOf 5 0%Q [7] (Some 7) in
  let ops := [(env, OpArrow ArrowDown true); (env, OpArrow ArrowRight true);
              (env, OpArrow ArrowUp false); (env, OpArrow ArrowLeft true)] in
  anchorSelected (runOps ops s)
  /\ activeItem (runOps ops s) = Some (fileItem 7)
  /\ selectedItems (runOps ops s) = map fileItem [8; 7].
Proof.
  intros env s ops. split; [|split; reflexivity].
  apply anchor_stays_selected.
  - repeat constructor.
  - intros a Ha. cbn in Ha. injection Ha as <-. left. reflexivity.
Defined.

(** ** Walking the grid *)

Lemma findIndex_from_NoDup (a : ExplorerItem) (l : list ExplorerItem) :
  forall (n : nat) (k : Z),
    NoDup l -> nth_error l n = Some a ->
    findIndex_from (fun item => item_eqb item a) l k = Some (k + Z.of_nat n).
Proof.
  induction l as [|x l IH]; intros n k Hnd Hn; [destruct n; discriminate|].
  cbn [findIndex_from]. destruct n as [|n]; cbn [nth_error] in Hn.
  - injection Hn as ->.
    rewrite (proj2 (item_eqb_true a a) eq_refl). f_equal. lia.
  - inversion Hnd as [|y l' Hx Hl]; subst.
    destruct (item_eqb x a) eqn:E.
    + apply item_eqb_true in E. subst x.
      elim Hx. eapply nth_error_In. exact Hn.
    + rewrite (IH n (k + 1) Hl Hn). f_equal. lia.
Qed.

Lemma findIndex_NoDup (env : Env) (a : ExplorerItem) (i : Z) :
  NoDup (items env) -> at_index (items env) i = Some a ->
  findIndex (fun item => item_eqb item a) (items env) = Some i.
Proof.
  intros Hnd Hat. unfold at_index in Hat.
  destruct (i <? 0) eqn:Hneg; [discriminate|]. apply Z.ltb_ge in Hneg.
  unfold findIndex.
  rewrite (findIndex_from_NoDup a (items env) (Z.to_nat i) 0 Hnd Hat).
  f_equal. lia.
Qed.

(** X4: arrow keys without shift compose.  In a collection without
    repeated items, a run of arrow keys, each of which lands on an existing
    item whose element the lookup finds (or with multi-select disabled),
    started with the active item at index [i], ends with the active item at
    the index obtained by adding the steps of the keys to [i]; after at least
    one key the selection is exactly that item.  So a key followed by its
    opposite leads back to the item it started from. *)
Theorem arrow_keys_walk (env : Env) (keys : list ArrowKey) :
  NoDup (items env) ->
  selectable env = true ->
  isAnyDialogOpen env = false ->
  forall (s : State) (a : ExplorerItem) (i : Z),
    selectedItems s <> [] ->
    activeItem s = Some a ->
    at_index (items env) i = Some a ->
    i < totalCount (grid env) ->
    walkable env i keys ->
    activeItem (pressArrows env keys s)
    = at_index (items env) (walkIndex env i keys)
    /\ (keys <> [] ->
        exists d, activeItem (pressArrows env keys s) = Some d
                  /\ selectedItems (pressArrows env keys s) = [d]).
Proof.
  intros Hnd Hsel Hdlg.
  induction keys as [|key keys IH]; intros s a i Hne Ha Hat Hlt Hwalk.
  - cbn. split; [congruence | intro H; contradiction].
  - cbn [walkable] in Hwalk. destruct Hwalk as (Hj & (d & Hd & Hmode) & Hrest).
    unfold pressArrows, walkIndex. cbn [fold_left].
    fold (pressArrows env keys (pressArrow env key false s)).
    fold (walkIndex env (i + arrowDelta env key) keys).
    destruct (pressArrow_replaces env key false s (i + arrowDelta env key) d)
      as (Hs1 & Ha1); try assumption.
    + intros _. exact Hne.
    + apply (getGridItemHandler_index env key s a i Ha); [|exact Hlt].
      apply findIndex_NoDup; assumption.
    + apply at_index_dataAt; assumption.
    + destruct Hmode as [Hm | Hel]; [left; exact Hm|].
      right. split; [reflexivity | exact Hel].
    + assert (Hne1 : selectedItems (pressArrow env key false s) <> [])
        by (rewrite Hs1; discriminate).
      destruct (IH (pressArrow env key false s) d (i + arrowDelta env key)
                  Hne1 Ha1 Hd Hj Hrest) as (Hact & Hsome).
      split; [exact Hact|]. intros _.
      destruct keys as [|key' keys'].
      * exists d. split; assumption.
      * apply Hsome. discriminate.
Qed.

Lemma arrow_keys_walk_witness :
  let env := squareEnv 5 20 true false 0%Q (zrange 0 20) in
  let s := selectionOf 5 0%Q [7; 3] (Some 7) in
  activeItem (pressArrows env [ArrowRight; ArrowLeft] s) = Some (fileItem 7)
  /\ selectedItems (pressArrows env [ArrowRight; ArrowLeft] s) = [fileItem 7]
  /\ activeItem (pressArrows env [ArrowDown; ArrowDown; ArrowRight; ArrowUp] s)
     = Some (fileItem 13).
Proof.
  intros env s.
  assert (Hnd : NoDup (items env)).
  { apply (NoDup_map_inv kindKey). vm_compute.
    repeat (constructor; [cbn; intuition discriminate|]). constructor. }
  assert (Hmounted : forall j, getElementById env (kindKey (fileItem j)) <> None
                               -> allowMultiSelect env = false
                                  \/ getElementById env
                                       (uniqueId env (fileItem j)) <> None).
  { intros j H. right. exact H. }
  destruct (arrow_keys_walk env [ArrowRight; ArrowLeft] Hnd eq_refl eq_refl
              s (fileItem 7) 7) as (Hact & Hsome);
    try reflexivity; try discriminate.
  { cbn [walkable]. repeat split; try reflexivity;
      eexists; (split; [reflexivity|]); apply Hmounted; discriminate. }
  destruct (Hsome ltac:(discriminate)) as (d & Hd & Hsel).
  split; [exact Hact|]. split.
  - rewrite Hsel. f_equal. rewrite Hact in Hd. injection Hd as <-. reflexivity.
  - apply (arrow_keys_walk env [ArrowDown; ArrowDown; ArrowRight; ArrowUp]
             Hnd eq_refl eq_refl s (fileItem 7) 7);
      try reflexivity; try discriminate.
    cbn [walkable]. repeat split; try reflexivity;
      eexists; (split; [reflexivity|]); apply Hmounted; discriminate.
Defined.

(** ** The marquee tick across columns *)

Lemma insertBy_In (key : GridItem -> Z) (y : GridItem) (l : list GridItem)
  (x : GridItem) :
  In x (insertBy key y l) <-> x = y \/ In x l.
Proof.
  induction l as [|z l IH]; cbn [insertBy In]; [intuition congruence|].
  destruct (key y <=? key z); cbn [In]; [intuition congruence|].
  rewrite IH. intuition congruence.
Qed.

Lemma sortBy_In (key : GridItem -> Z) (l : list GridItem) (x : GridItem) :
  In x (sortBy key l) <-> In x l.
Proof.
  unfold sortBy. induction l as [|y l IH]; cbn [fold_right In]; [tauto|].
  rewrite insertBy_In, IH. intuition congruence.
Qed.

Lemma insertBy_sorted (key : GridItem -> Z) (y : GridItem) (l : list GridItem) :
  StronglySorted (fun a b => key a <= key b) l ->
  StronglySorted (fun a b => key a <= key b) (insertBy key y l).
Proof.
  induction l as [|z l IH]; intro Hs; cbn [insertBy].
  - constructor; constructor.
  - inversion Hs as [|z' l' Hl Hz]; subst.
    destruct (key y <=? key z) eqn:E.
    + apply Z.leb_le in E. constructor; [exact Hs|].
      constructor; [exact E|].
      apply Forall_forall. intros x Hx.
      rewrite Forall_forall in Hz. specialize (Hz x Hx). lia.
    + apply Z.leb_gt in E. constructor; [apply IH; exact Hl|].
      apply Forall_forall. intros x Hx. apply insertBy_In in Hx.
      destruct Hx as [-> | Hx]; [lia|].
      rewrite Forall_forall in Hz. exact (Hz x Hx).
Qed.

Lemma sortBy_sorted (key : GridItem -> Z) (l : list GridItem) :
  StronglySorted (fun a b => key a <= key b) (sortBy key l).
Proof.
  unfold sortBy. induction l as [|y l IH]; cbn [fold_right]; [constructor|].
  apply insertBy_sorted. exact IH.
Qed.

(** The first item of the sorted array has the least key and the last one
    the greatest. *)
Lemma sortBy_ends (key : GridItem -> Z) (l : list GridItem) :
  l <> [] ->
  exists f t,
    hd_error (sortBy key l) = Some f
    /\ hd_error (rev (sortBy key l)) = Some t
    /\ In f l /\ In t l
    /\ forall x, In x l -> key f <= key x <= key t.
Proof.
  intro Hne.
  pose proof (sortBy_sorted key l) as Hs.
  pose proof (sortBy_In key l) as Hin.
  revert Hs Hin. generalize (sortBy key l). intros sl Hs Hin.
  assert (Hsl : sl <> []).
  { destruct l as [|x l]; [contradiction|]. intro H. subst sl.
    exact (proj2 (Hin x) (or_introl eq_refl)). }
  destruct sl as [|f sl']; [contradiction|].
  destruct (exists_last Hsl) as (pre & t & Hlast).
  exists f, t. split; [reflexivity|]. split.
  { rewrite Hlast, rev_app_distr. reflexivity. }
  split; [apply Hin; left; reflexivity|].
  split; [apply Hin; rewrite Hlast; apply in_or_app; right; left; reflexivity|].
  intros x Hx. apply Hin in Hx. split.
  - inversion Hs as [|f' l' _ Hf]; subst.
    destruct Hx as [<- | Hx]; [lia|].
    rewrite Forall_forall in Hf. exact (Hf x Hx).
  - rewrite Hlast in Hs, Hx. clear Hlast Hin Hsl.
    induction pre as [|p pre IH]; cbn [app] in Hs, Hx.
    + destruct Hx as [<- | []]. lia.
    + inversion Hs as [|p' l' Hl Hp]; subst.
      destruct Hx as [<- | Hx]; [|exact (IH Hl Hx)].
      rewrite Forall_forall in Hp. apply Hp.
      apply in_or_app. right. left. reflexivity.
Qed.

Lemma dragItems_In (env : Env) (elements : list Element) (it : GridItem) :
  In it (dragItems env elements) <->
  exists el, In el elements /\ getElementItem env el = Some it.
Proof.
  unfold dragItems.
  assert (H : forall acc,
             In it (fold_left
                      (fun items el =>
                         match getElementItem env el with
                         | Some item => items ++ [item]
                         | None => items
                         end) elements acc)
             <-> In it acc
                 \/ exists el, In el elements
                               /\ getElementItem env el = Some it).
  { induction elements as [|el els IH]; intro acc; cbn [fold_left].
    - split; [tauto | intros [H | (el & [] & _)]; exact H].
    - rewrite IH. cbn [In]. split.
      + intros [H | (el' & Hin & Hel)].
        * destruct (getElementItem env el) as [item|] eqn:E; [|tauto].
          apply in_app_or in H. destruct H as [H | [<- | []]]; [tauto|].
          right. exists el. tauto.
        * right. exists el'. tauto.
      + intros [H | (el' & [<- | Hin] & Hel)].
        * left. destruct (getElementItem env el); [|exact H].
          apply in_or_app. left. exact H.
        * left. rewrite Hel. apply in_or_app. right. left. reflexivity.
        * right. exists el'. tauto. }
  rewrite H. cbn [In]. tauto.
Qed.

(** The hit loops write the selection only. *)
Lemma directHits_frame (env : Env) (e : SelectEvent) (s : State) :
  fst (directHits env e s)
  = set_selectedItems (selectedItems (fst (directHits env e s))) s.
Proof.
  unfold directHits.
  assert (Ha : forall l s0,
             fold_left (addHit env) l s0
             = set_selectedItems
                 (selectedItems (fold_left (addHit env) l s0)) s0).
  { induction l as [|el l IH]; intro s0; cbn [fold_left];
      [destruct s0; reflexivity|].
    rewrite IH. unfold addHit, addSelectedItem.
    destruct (getElementItem env el) as [it|]; [|reflexivity].
    destruct (gi_data it); [|reflexivity].
    destruct (allowMultiSelect env); [|reflexivity].
    destruct (has e0 (selectedItems s0)); reflexivity. }
  assert (Hr : forall l acc,
             fst (fold_left (removeHit env) l acc)
             = set_selectedItems
                 (selectedItems (fst (fold_left (removeHit env) l acc)))
                 (fst acc)).
  { induction l as [|el l IH]; intro acc; cbn [fold_left];
      [destruct acc as [[] un]; reflexivity|].
    rewrite IH. unfold removeHit. destruct acc as [s0 un].
    destruct (getElementItem env el) as [it|]; [|reflexivity].
    destruct (gi_data it), (gi_id it); try reflexivity.
    destruct (document_contains env el); reflexivity. }
  rewrite Hr. cbn [fst]. rewrite Ha at 2. reflexivity.
Qed.

Lemma mergeUnselected_fields (acc : State * list string) :
  selectedItems (mergeUnselected acc) = selectedItems (fst acc)
  /\ selectoFirstColumn (mergeUnselected acc) = selectoFirstColumn (fst acc)
  /\ selectoLastColumn (mergeUnselected acc) = selectoLastColumn (fst acc).
Proof.
  unfold mergeUnselected. destruct acc as [s un]. cbn [fst].
  destruct (0 <? Z.of_nat (List.length un)); repeat split; reflexivity.
Qed.

(** X5: a tick whose hit targets span more than one column implies no
    item: it ends normally, the selection is the one left by the directly
    hit targets, and the first and last touched columns become the extreme
    columns of the hit items, ordered by the horizontal direction of the
    drag (least column first when dragging right, greatest first when
    dragging left). *)
Theorem multi_column_tick (env : Env) (e : SelectEvent) (s : State) :
  (1 < List.length (dragColumns (dragItems env (added e ++ removed e))))%nat ->
  exists s' first last,
    onSelectMouseMove env e s = Some s'
    /\ selectedItems s' = selectedItems (fst (directHits env e s))
    /\ selectoFirstColumn s' = Some first
    /\ selectoLastColumn s' = Some last
    /\ (exists el it, In el (added e ++ removed e)
                      /\ getElementItem env el = Some it
                      /\ gi_column it = first)
    /\ (exists el it, In el (added e ++ removed e)
                      /\ getElementItem env el = Some it
                      /\ gi_column it = last)
    /\ forall el it,
        In el (added e ++ removed e) -> getElementItem env el = Some it ->
        if dragRight e then first <= gi_column it <= last
        else last <= gi_column it <= first.
Proof.
  intro Hcols.
  set (its := dragItems env (added e ++ removed e)) in *.
  assert (Hne : its <> []).
  { intro H. rewrite H in Hcols. cbn in Hcols. lia. }
  destruct (sortBy_ends gi_column its Hne) as (f & t & Hf & Ht & Hfin & Htin & Hb).
  assert (Hrun : onSelectMouseMove env e s
                 = Some (mergeUnselected
                           (multiColumn e (sortBy gi_column its)
                              (directHits env e s)))).
  { unfold onSelectMouseMove. fold its.
    replace (1 <? Z.of_nat (List.length (dragColumns its))) with true
      by (symmetry; apply Z.ltb_lt; lia).
    reflexivity. }
  assert (Hall : forall el it,
             In el (added e ++ removed e) -> getElementItem env el = Some it ->
             gi_column f <= gi_column it <= gi_column t).
  { intros el it Hel Hit. apply Hb. apply dragItems_In. exists el. tauto. }
  apply dragItems_In in Hfin. apply dragItems_In in Htin.
  destruct Hfin as (elf & Helf & Hitf). destruct Htin as (elt & Helt & Hitt).
  destruct (mergeUnselected_fields
              (multiColumn e (sortBy gi_column its) (directHits env e s)))
    as (Hsel & Hfirst & Hlast).
  unfold multiColumn in Hsel, Hfirst, Hlast. rewrite Hf, Ht in *.
  destruct (dragRight e) eqn:Hdir; cbn [fst] in Hsel, Hfirst, Hlast.
  - exists (mergeUnselected
              (multiColumn e (sortBy gi_column its) (directHits env e s))),
      (gi_column f), (gi_column t).
    split; [exact Hrun|].
    unfold multiColumn. rewrite Hf, Ht, Hdir.
    split; [exact Hsel|]. split; [exact Hfirst|]. split; [exact Hlast|].
    split; [exists elf, f; tauto|]. split; [exists elt, t; tauto|].
    exact Hall.
  - exists (mergeUnselected
              (multiColumn e (sortBy gi_column its) (directHits env e s))),
      (gi_column t), (gi_column f).
    split; [exact Hrun|].
    unfold multiColumn. rewrite Hf, Ht, Hdir.
    split; [exact Hsel|]. split; [exact Hfirst|]. split; [exact Hlast|].
    split; [exists elt, t; tauto|]. split; [exists elf, f; tauto|].
    exact Hall.
Qed.

Lemma multi_column_tick_witness :
  exists s',
    onSelectMouseMove acrossEnv acrossEvent (selectionOf 4 0%Q [] None)
    = Some s'
    /\ selectedItems s' = map fileItem [10; 5; 6; 9]
    /\ selectoFirstColumn s' = Some 1
    /\ selectoLastColumn s' = Some 2.
Proof.
  destruct (multi_column_tick acrossEnv acrossEvent (selectionOf 4 0%Q [] None))
    as (s' & first & last & Hrun & _).
  { vm_compute. lia. }
  exists s'. split; [exact Hrun|].
  vm_compute in Hrun. injection Hrun as <-.
  repeat split; reflexivity.
Defined.

(** ** The marquee tick inside the last touched column *)

(** X6: a tick whose hit targets lie in exactly one column, when that
    column is the last touched one and the pointer is in its drag area,
    implies no item whatever the geometry: it ends normally, the selection
    is the one left by the directly hit targets, and the touched columns
    stay as they were.  A mouse-down on an item makes its column the last
    touched one, so a drag that starts on an item and stays in its column
    selects by direct hits only. *)
Theorem in_column_tick_only_hits (env : Env) (e : SelectEvent) (s : State)
  (el0 : Element) (rest : list Element) (column : Z) :
  added e ++ removed e = el0 :: rest ->
  dragColumns (dragItems env (added e ++ removed e)) = [column] ->
  selectoLastColumn s = Some column ->
  inDragArea e (el_rect el0) = true ->
  exists s',
    onSelectMouseMove env e s = Some s'
    /\ selectedItems s' = selectedItems (fst (directHits env e s))
    /\ selectoFirstColumn s' = selectoFirstColumn s
    /\ selectoLastColumn s' = Some column.
Proof.
  intros Hels Hcols Hlast Harea.
  exists (mergeUnselected (directHits env e s)).
  destruct (mergeUnselected_fields (directHits env e s)) as (Hs & Hf & Hl).
  split.
  - unfold onSelectMouseMove. rewrite Hels in Hcols |- *. rewrite Hcols.
    change (1 <? Z.of_nat (List.length [column])) with false. cbv iota.
    unfold singleColumn, gateOpen.
    rewrite directHits_lastColumn, Hlast, Harea.
    cbn [option_Z_eqb]. rewrite Z.eqb_refl. reflexivity.
  - rewrite Hs, Hf, Hl, directHits_lastColumn, Hlast.
    split; [reflexivity|]. split; [|reflexivity].
    rewrite (directHits_frame env e s). reflexivity.
Qed.

Lemma in_column_tick_only_hits_witness :
  let pressed := onMouseDown sweepEnv 0 21 sweepStart in
  selectoLastColumn pressed = Some 1
  /\ exists s',
      onSelectMouseMove sweepEnv sweepEvent pressed = Some s'
      /\ selectedItems s' = [fileItem 17].
Proof.
  intro pressed. split; [reflexivity|].
  destruct (in_column_tick_only_hits sweepEnv sweepEvent pressed
              (fileElement 4 (-300)%Q 17) [] 1 eq_refl eq_refl eq_refl eq_refl)
    as (s' & Hrun & Hsel & _).
  exists s'. split; [exact Hrun|]. rewrite Hsel. reflexivity.
Defined.

(** ** The directly hit targets *)

Lemma getElementItem_id (env : Env) (el : Element) (it : GridItem)
  (d : ExplorerItem) :
  getElementItem env el = Some it -> gi_data it = Some d ->
  gi_id it = inl (uniqueId env d).
Proof.
  unfold getElementItem, getElementIndex, getItem.
  destruct (el_index el) as [i|]; [|discriminate].
  destruct ((i <? 0) || (totalCount (grid env) <=? i)); [discriminate|].
  intro H. injection H as <-. cbn [gi_data gi_id]. intros ->. reflexivity.
Qed.

Lemma addHits_In (env : Env) (l : list Element) (x : ExplorerItem) :
  allowMultiSelect env = true ->
  forall s,
    In x (selectedItems (fold_left (addHit env) l s)) <->
    In x (selectedItems s)
    \/ exists el, In el l /\ elementData env el = Some x.
Proof.
  intro Hm. induction l as [|el l IH]; intro s; cbn [fold_left].
  - split; [tauto | intros [H | (el & [] & _)]; exact H].
  - rewrite IH. unfold addHit, elementData. cbn [In].
    destruct (getElementItem env el) as [it|] eqn:Hit.
    + destruct (gi_data it) as [d|] eqn:Hd.
      * rewrite (In_addSelectedItem env d x s Hm). split.
        -- intros [[-> | H] | (el' & Hin & Hel)]; [right | tauto | right].
           ++ exists el. rewrite Hit. tauto.
           ++ exists el'. tauto.
        -- intros [H | (el' & [<- | Hin] & Hel)]; [tauto | | right].
           ++ rewrite Hit, Hd in Hel. injection Hel as ->. tauto.
           ++ exists el'. tauto.
      * split.
        -- intros [H | (el' & Hin & Hel)]; [tauto | right; exists el'; tauto].
        -- intros [H | (el' & [<- | Hin] & Hel)]; [tauto | | right].
           ++ rewrite Hit, Hd in Hel. discriminate Hel.
           ++ exists el'. tauto.
    + split.
      * intros [H | (el' & Hin & Hel)]; [tauto | right; exists el'; tauto].
      * intros [H | (el' & [<- | Hin] & Hel)]; [tauto | | right].
        -- rewrite Hit in Hel. discriminate Hel.
        -- exists el'. tauto.
Qed.

Lemma removeHits_spec (env : Env) (l : list Element) :
  forall acc,
    let out := fold_left (removeHit env) l acc in
    (forall x,
        In x (selectedItems (fst out)) <->
        In x (selectedItems (fst acc))
        /\ ~ exists el, In el l /\ document_contains env el = true
                        /\ elementData env el = Some x)
    /\ (forall id,
           In id (snd out) <->
           In id (snd acc)
           \/ exists el d, In el l /\ document_contains env el = false
                           /\ elementData env el = Some d
                           /\ id = uniqueId env d).
Proof.
  induction l as [|el l IH]; intro acc; cbn [fold_left]; cbv zeta.
  - split; [intro x | intro id].
    + split; [intro H; split; [exact H | intros (el & [] & _)] | tauto].
    + split; [tauto | intros [H | (el & d & [] & _)]; exact H].
  - destruct (IH (removeHit env acc el)) as (Hsel & Hun). cbv zeta in Hsel, Hun.
    assert (Hstep :
              (forall x,
                  In x (selectedItems (fst (removeHit env acc el))) <->
                  In x (selectedItems (fst acc))
                  /\ ~ (document_contains env el = true
                        /\ elementData env el = Some x))
              /\ (forall id,
                     In id (snd (removeHit env acc el)) <->
                     In id (snd acc)
                     \/ exists d, document_contains env el = false
                                  /\ elementData env el = Some d
                                  /\ id = uniqueId env d)).
    { unfold removeHit, elementData. destruct acc as [s un]. cbn [fst snd].
      destruct (getElementItem env el) as [it|] eqn:Hit.
      - destruct (gi_data it) as [d|] eqn:Hd.
        + rewrite (getElementItem_id env el it d Hit Hd).
          destruct (document_contains env el) eqn:Hdoc; cbn [fst snd].
          * split; [intro x | intro id].
            -- rewrite In_removeSelectedItem. intuition congruence.
            -- split; [tauto | intros [H | (d' & H & _)]; [exact H|]].
               discriminate H.
          * split; [intro x | intro id].
            -- intuition congruence.
            -- rewrite in_app_iff. cbn [In]. split.
               ++ intros [H | [<- | []]]; [tauto|].
                  right. exists d. tauto.
               ++ intros [H | (d' & _ & Hd' & ->)]; [tauto|].
                  injection Hd' as <-. tauto.
        + split; [intro x | intro id].
          * intuition congruence.
          * split; [tauto | intros [H | (d' & _ & H & _)]; [exact H|]].
            discriminate H.
      - split; [intro x | intro id].
        + intuition congruence.
        + split; [tauto | intros [H | (d' & _ & H & _)]; [exact H|]].
          discriminate H. }
    destruct Hstep as (Ssel & Sun). split; [intro x | intro id].
    + rewrite Hsel, Ssel. cbn [In]. split.
      * intros [[H1 H2] H3]. split; [exact H1|].
        intros (el' & [<- | Hin] & Hdoc & Hel); [tauto|].
        apply H3. exists el'. tauto.
      * intros [H1 H2]. split; [split; [exact H1|]|].
        -- intros [Hdoc Hel]. apply H2. exists el. tauto.
        -- intros (el' & Hin & Hdoc & Hel). apply H2. exists el'. tauto.
    + rewrite Hun, Sun. cbn [In]. split.
      * intros [[H | (d & Hdoc & Hel & ->)] | (el' & d & Hin & Hdoc & Hel & ->)];
          [tauto | right; exists el, d; tauto | right; exists el', d; tauto].
      * intros [H | (el' & d & [<- | Hin] & Hdoc & Hel & ->)];
          [tauto | left; right; exists d; tauto | right; exists el', d; tauto].
Qed.

(** X7: what the directly hit targets of a tick do to the selection.  An
    item is selected after the two hit loops exactly when it was selected
    before or is the item of an added target, and it is not the item of a
    removed target that is still in the document.  So a removed target
    that has been unmounted does not unselect its item, and a target both
    added and removed while mounted ends unselected. *)
Theorem direct_hits_membership (env : Env) (e : SelectEvent) (s : State)
  (x : ExplorerItem) :
  allowMultiSelect env = true ->
  In x (selectedItems (fst (directHits env e s))) <->
  (In x (selectedItems s)
   \/ exists el, In el (added e) /\ elementData env el = Some x)
  /\ ~ exists el, In el (removed e) /\ document_contains env el = true
                  /\ elementData env el = Some x.
Proof.
  intro Hm. unfold directHits.
  destruct (removeHits_spec env (removed e)
              (fold_left (addHit env) (added e) s, [])) as (Hsel & _).
  cbv zeta in Hsel. rewrite Hsel. cbn [fst].
  rewrite (addHits_In env (added e) x Hm s). reflexivity.
Qed.

Lemma direct_hits_membership_witness :
  let s := selectionOf 4 0%Q [10; 5; 6; 9] None in
  In (fileItem 10) (selectedItems (fst (directHits shrinkEnv shrinkEvent s)))
  /\ ~ In (fileItem 6) (selectedItems (fst (directHits shrinkEnv shrinkEvent s)))
  /\ selectedItems (fst (directHits shrinkEnv shrinkEvent s))
     = map fileItem [10; 5].
Proof.
  intro s. split; [|split; [|reflexivity]].
  - apply (direct_hits_membership shrinkEnv shrinkEvent s (fileItem 10) eq_refl).
    split; [left; left; reflexivity|].
    intros (el & Hin & Hdoc & Hel). cbn in Hin.
    destruct Hin as [<- | [<- | [<- | []]]]; vm_compute in Hdoc, Hel;
      discriminate.
  - intro H.
    apply (direct_hits_membership shrinkEnv shrinkEvent s (fileItem 6) eq_refl)
      in H.
    destruct H as [_ H]. apply H. exists (fileElement 4 0%Q 6).
    split; [left; reflexivity|]. split; reflexivity.
Defined.

(** ** The shadow set *)

Lemma stringSet_In (l : list string) (x : string) :
  In x (stringSet l) <-> In x l.
Proof.
  unfold stringSet.
  assert (H : forall acc,
             In x (fold_left
                     (fun acc y => if existsb (String.eqb y) acc then acc
                                   else acc ++ [y]) l acc)
             <-> In x acc \/ In x l).
  { induction l as [|y l IH]; intro acc; cbn [fold_left In]; [tauto|].
    rewrite IH. destruct (existsb (String.eqb y) acc) eqn:E.
    - apply existsb_exists in E. destruct E as (z & Hz & Heq).
      apply String.eqb_eq in Heq. subst z. intuition congruence.
    - rewrite in_app_iff. cbn [In]. intuition congruence. }
  rewrite H. cbn [In]. tauto.
Qed.

Lemma synth_loop_shadow (env : Env) (shiftKey inArea : bool) (l : list Z) :
  forall acc,
    let out := fold_left (synthItem env shiftKey inArea) l acc in
    selectoUnselected (fst out) = selectoUnselected (fst acc)
    /\ forall id, In id (snd acc) -> In id (snd out).
Proof.
  induction l as [|j l IH]; intro acc; cbn [fold_left]; cbv zeta;
    [split; [reflexivity | tauto]|].
  destruct (IH (synthItem env shiftKey inArea acc j)) as (Hu & Hin).
  cbv zeta in Hu, Hin. rewrite Hu.
  assert (Hstep :
            selectoUnselected (fst (synthItem env shiftKey inArea acc j))
            = selectoUnselected (fst acc)
            /\ forall id, In id (snd acc) ->
                          In id (snd (synthItem env shiftKey inArea acc j))).
  { unfold synthItem, addSelectedItem, removeSelectedItem.
    destruct acc as [s un]. cbn [fst snd].
    destruct (at_index (items env) j) as [item|];
      [|split; [reflexivity | tauto]].
    destruct shiftKey, inArea, (has item (selectedItems s)),
      (allowMultiSelect env); cbn;
      (split; [reflexivity|]); intros id H;
      try exact H; apply in_or_app; left; exact H. }
  destruct Hstep as (Su & Sin). split; [exact Su|].
  intros id H. apply Hin, Sin, H.
Qed.

Lemma singleColumn_shadow (env : Env) (e : SelectEvent) (inArea : bool)
  (column : Z) (its : list GridItem) (acc out : State * list string) :
  singleColumn env e inArea column its acc = Some out ->
  selectoUnselected (fst out) = selectoUnselected (fst acc)
  /\ forall id, In id (snd acc) -> In id (snd out).
Proof.
  unfold singleColumn, synthesize.
  destruct (gateOpen (fst acc) column inArea).
  - destruct (if dragDown e then hd_error its else hd_error (rev its))
      as [firstItem|].
    + destruct (crossed env e firstItem).
      * destruct (itemsInDragCount _ _ _) as [n|]; [|discriminate].
        match goal with
        | |- context [fold_left ?f ?l acc] =>
          destruct (synth_loop_shadow env (ev_shiftKey e) inArea l acc)
            as (Hu & Hin);
          cbv zeta in Hu, Hin; destruct (fold_left f l acc) as [s1 un]
        end.
        intro H. injection H as <-. cbn [fst snd] in *.
        split; [|exact Hin]. rewrite <- Hu. unfold touchColumn.
        destruct (negb inArea && option_Z_eqb (selectoFirstColumn s1) column);
          reflexivity.
      * destruct acc as [s1 un]. intro H. injection H as <-. cbn [fst snd].
        split; [|tauto]. unfold touchColumn.
        destruct (negb inArea && option_Z_eqb (selectoFirstColumn s1) column);
          reflexivity.
    + destruct acc as [s1 un]. intro H. injection H as <-. cbn [fst snd].
      split; [|tauto]. unfold touchColumn.
      destruct (negb inArea && option_Z_eqb (selectoFirstColumn s1) column);
        reflexivity.
  - intro H. injection H as <-. split; [reflexivity | tauto].
Qed.

(** X8: within a tick the shadow set only grows, and it records every
    removed target that is no longer in the document: after a tick that ends
    normally each id that was in the shadow set is still in it, and so is the
    id of the item of each unmounted removed target. *)
Theorem tick_grows_shadow (env : Env) (e : SelectEvent) (s s' : State) :
  onSelectMouseMove env e s = Some s' ->
  (forall id, In id (selectoUnselected s) -> In id (selectoUnselected s'))
  /\ (forall el d,
         In el (removed e) -> document_contains env el = false ->
         elementData env el = Some d ->
         In (uniqueId env d) (selectoUnselected s')).
Proof.
  unfold onSelectMouseMove.
  set (acc := directHits env e s).
  assert (Hacc : selectoUnselected (fst acc) = selectoUnselected s
                 /\ forall el d,
                     In el (removed e) -> document_contains env el = false ->
                     elementData env el = Some d ->
                     In (uniqueId env d) (snd acc)).
  { split.
    - unfold acc. rewrite (directHits_frame env e s). reflexivity.
    - intros el d Hin Hdoc Hel. unfold acc, directHits.
      destruct (removeHits_spec env (removed e)
                  (fold_left (addHit env) (added e) s, [])) as (_ & Hun).
      cbv zeta in Hun. apply Hun. right. exists el, d. tauto. }
  destruct Hacc as (Hu & Hrec).
  assert (Hmerge : forall out,
             selectoUnselected (fst out) = selectoUnselected s ->
             (forall id, In id (snd acc) -> In id (snd out)) ->
             (forall id, In id (selectoUnselected s) ->
                         In id (selectoUnselected (mergeUnselected out)))
             /\ (forall el d,
                    In el (removed e) -> document_contains env el = false ->
                    elementData env el = Some d ->
                    In (uniqueId env d)
                      (selectoUnselected (mergeUnselected out)))).
  { intros [s1 un] Hs1 Hin. cbn [fst snd] in Hs1, Hin.
    unfold mergeUnselected.
    destruct (0 <? Z.of_nat (List.length un)) eqn:Hlen.
    - cbn [selectoUnselected set_selectoUnselected]. split.
      + intros id H. apply stringSet_In, in_or_app. left. congruence.
      + intros el d H1 H2 H3. apply stringSet_In, in_or_app. right.
        apply Hin. exact (Hrec el d H1 H2 H3).
    - split; [intros id H; congruence|].
      intros el d H1 H2 H3. exfalso.
      pose proof (Hin _ (Hrec el d H1 H2 H3)) as Hmem.
      destruct un; [destruct Hmem|]. cbn in Hlen. discriminate Hlen. }
  destruct (1 <? Z.of_nat (List.length
              (dragColumns (dragItems env (added e ++ removed e))))).
  - cbn [option_map]. intro H. injection H as <-. apply Hmerge.
    + unfold multiColumn.
      destruct (if dragRight e then _ else _) as [f|]; [|exact Hu].
      destruct (if dragRight e then _ else _) as [l|]; [|exact Hu].
      cbn [fst]. exact Hu.
    + intros id H. unfold multiColumn.
      destruct (if dragRight e then _ else _) as [f|]; [|exact H].
      destruct (if dragRight e then _ else _) as [l|]; exact H.
  - destruct (dragColumns (dragItems env (added e ++ removed e)))
      as [|column [|c2 cs]];
      try (cbn [option_map]; intro H; injection H as <-; apply Hmerge;
           [exact Hu | tauto]).
    destruct (added e ++ removed e) as [|el0 rest];
      [cbn [option_map]; intro H; injection H as <-; apply Hmerge;
       [exact Hu | tauto]|].
    destruct (singleColumn env e (inDragArea e (el_rect el0)) column
                (sortBy gi_row (dragItems env (el0 :: rest))) acc)
      as [out|] eqn:Hsc; [|discriminate].
    cbn [option_map]. intro H. injection H as <-.
    destruct (singleColumn_shadow _ _ _ _ _ _ _ Hsc) as (Hso & Hsin).
    apply Hmerge; [congruence | exact Hsin].
Qed.

Lemma tick_grows_shadow_witness :
  let s :=
    {| selectedItems := map fileItem [10; 5; 6; 9];
       selectoTargets := map (fileElement 4 0%Q) [10; 5; 6; 9];
       selectoUnselected := ["path:20"%string];
       selectoFirstColumn := Some 1; selectoLastColumn := Some 2;
       activeItem := None;
       dragFromThumbnail := false; isDragSelecting := true |} in
  exists s',
    onSelectMouseMove shrinkEnv shrinkEvent s = Some s'
    /\ In "path:20"%string (selectoUnselected s')
    /\ In (kindKey (fileItem 10)) (selectoUnselected s')
    /\ selectedItems s' = map fileItem [10; 5].
Proof.
  intro s.
  destruct (onSelectMouseMove shrinkEnv shrinkEvent s) as [s'|] eqn:Hrun;
    [|vm_compute in Hrun; discriminate Hrun].
  exists s'. split; [reflexivity|].
  destruct (tick_grows_shadow shrinkEnv shrinkEvent s s' Hrun) as (Hold & Hnew).
  split; [apply Hold; left; reflexivity|].
  split.
  - apply (Hnew (fileElement 4 0%Q 10) (fileItem 10));
      [right; right; left; reflexivity | reflexivity | reflexivity].
  - vm_compute in Hrun. injection Hrun as <-. reflexivity.
Defined.

(** ** Clicks seen by the drag-select widget *)

(** X9: how a click reported by the widget changes the selection, with
    multi-select enabled.  Without shift, a click on an item that is already
    selected keeps the whole selection and hands the widget its previous
    targets back, and a click on an item that is not selected makes it the
    only selected item and empties the shadow set.  With shift, a click
    toggles the clicked item alone: the item of an added target joins the
    selection, that of a removed target leaves it, and no other item
    changes.  A click that names no element, or an element without item
    data, changes nothing. *)
Theorem click_changes_selection (env : Env) (e : SelectEvent) (s : State) :
  allowMultiSelect env = true ->
  let s' := onSelectMouseDown env e s in
  (ev_shiftKey e = false ->
   forall el rest d,
     selected e = el :: rest -> elementData env el = Some d ->
     (In d (selectedItems s) ->
      selectedItems s' = selectedItems s
      /\ selectoTargets s' = beforeSelected e
      /\ selectoUnselected s' = selectoUnselected s)
     /\ (~ In d (selectedItems s) ->
         selectedItems s' = [d] /\ selectoUnselected s' = []))
  /\ (ev_shiftKey e = true ->
      forall el rest d,
        added e = el :: rest -> elementData env el = Some d ->
        forall x, In x (selectedItems s') <-> x = d \/ In x (selectedItems s))
  /\ (ev_shiftKey e = true ->
      forall el rest d,
        added e = [] -> removed e = el :: rest ->
        elementData env el = Some d ->
        forall x, In x (selectedItems s') <-> x <> d /\ In x (selectedItems s))
  /\ ((if ev_shiftKey e
       then match added e with
            | a :: _ => elementData env a
            | [] => match removed e with
                    | r :: _ => elementData env r
                    | [] => None
                    end
            end
       else match selected e with
            | c :: _ => elementData env c
            | [] => None
            end) = None ->
      s' = s).
Proof.
  intros Hm s'. unfold s', onSelectMouseDown, elementData.
  split; [|split; [|split]].
  - intros Hshift el rest d Hsel Hd. rewrite Hshift, Hsel. cbn [hd_error negb].
    destruct (getElementItem env el) as [it|]; [|discriminate Hd].
    rewrite Hd. split.
    + intro Hin. rewrite (proj2 (has_In d (selectedItems s)) Hin).
      unfold setSelectedTargets. rewrite Hm. repeat split; reflexivity.
    + intro Hout. destruct (has d (selectedItems s)) eqn:Hh.
      * apply has_In in Hh. contradiction.
      * split; reflexivity.
  - intros Hshift el rest d Hadd Hd x. rewrite Hshift, Hadd. cbn [negb].
    destruct (getElementItem env el) as [it|]; [|discriminate Hd].
    rewrite Hd. apply (In_addSelectedItem env d x s Hm).
  - intros Hshift el rest d Hadd Hrem Hd x. rewrite Hshift, Hadd, Hrem.
    cbn [hd_error negb].
    destruct (getElementItem env el) as [it|]; [|discriminate Hd].
    rewrite Hd. apply In_removeSelectedItem.
  - destruct (ev_shiftKey e).
    + destruct (added e) as [|a l].
      * destruct (removed e) as [|r l']; cbn [hd_error]; [reflexivity|].
        destruct (getElementItem env r) as [it|]; [|reflexivity].
        intros ->. reflexivity.
      * destruct (getElementItem env a) as [it|]; [|reflexivity].
        intros ->. reflexivity.
    + destruct (selected e) as [|c l]; cbn [hd_error]; [reflexivity|].
      destruct (getElementItem env c) as [it|]; [|reflexivity].
      intros ->. reflexivity.
Qed.

Lemma click_changes_selection_witness :
  let s := selectionOf 4 0%Q [10; 5; 6] (Some 6) in
  let click (index : Z) (shift : bool) (add : bool) :=
    {| added := if add then [fileElement 4 0%Q index] else [];
       removed := if add then [] else [fileElement 4 0%Q index];
       selected := [fileElement 4 0%Q index];
       beforeSelected := selectoTargets s;
       ev_rect := {| top := 0%Q; bottom := 0%Q; left := 0%Q; right := 0%Q |};
       input_x := 0%Q; input_y := 0%Q; ev_shiftKey := shift |} in
  selectedItems (onSelectMouseDown acrossEnv (click 5 false true) s)
  = map fileItem [10; 5; 6]
  /\ selectedItems (onSelectMouseDown acrossEnv (click 9 false true) s)
     = [fileItem 9]
  /\ (forall x,
         In x (selectedItems (onSelectMouseDown acrossEnv (click 9 true true) s))
         <-> x = fileItem 9 \/ In x (selectedItems s))
  /\ selectedItems (onSelectMouseDown acrossEnv (click 5 true false) s)
     = map fileItem [10; 6].
Proof.
  intros s click.
  split; [|split; [|split; [|reflexivity]]].
  - destruct (click_changes_selection acrossEnv (click 5 false true) s eq_refl)
      as (Hplain & _).
    destruct (Hplain eq_refl (fileElement 4 0%Q 5) [] (fileItem 5)
                eq_refl eq_refl) as (Hkeep & _).
    apply Hkeep. right. left. reflexivity.
  - reflexivity.
  - destruct (click_changes_selection acrossEnv (click 9 true true) s eq_refl)
      as (_ & Hadd & _).
    exact (Hadd eq_refl (fileElement 4 0%Q 9) [] (fileItem 9) eq_refl eq_refl).
Defined.

(** ** Reconciling the widget with the selection *)

Lemma stringSet_delete_In (id : string) (set : list string) (x : string) :
  In x (stringSet_delete id set) <-> x <> id /\ In x set.
Proof.
  unfold stringSet_delete. rewrite filter_In.
  destruct (String.eqb id x) eqn:E; cbn [negb].
  - apply String.eqb_eq in E. intuition congruence.
  - apply String.eqb_neq in E. intuition congruence.
Qed.

Lemma find_by_id_Some (elements : list Element) (h : string) (el : Element) :
  find (fun x => string_opt_eqb (el_id x) h) elements = Some el ->
  In el elements /\ el_id el = Some h.
Proof.
  intro H. apply find_some in H. destruct H as [Hin Hid].
  split; [exact Hin|]. unfold string_opt_eqb in Hid.
  destruct (el_id el) as [a|]; [|discriminate].
  apply String.eqb_eq in Hid. congruence.
Qed.

(** The kept elements are the first elements of the ids of the set, and the
    set is left with the ids that no element carries. *)
Lemma keepSelected_spec (elements : list Element) :
  forall set,
    let out := keepSelected elements set in
    (forall h, In h (snd out) <->
               In h set
               /\ find (fun x => string_opt_eqb (el_id x) h) elements = None)
    /\ (forall el, In el (fst out) <->
                   exists h, In h set
                             /\ find (fun x => string_opt_eqb (el_id x) h)
                                  elements = Some el)
    /\ NoDup (map el_id (fst out)).
Proof.
  induction elements as [|item rest IH]; intro set; cbn [keepSelected find];
    cbv zeta.
  - cbn [fst snd map In]. split; [intro h; tauto|]. split; [|constructor].
    intro el. split; [intros [] | intros (h & _ & H); discriminate H].
  - unfold getElementId. destruct (el_id item) as [id|] eqn:Hid.
    + cbn [string_opt_eqb].
      destruct (existsb (String.eqb id) set) eqn:Hsel.
      * apply existsb_exists in Hsel. destruct Hsel as (z & Hz & Heq).
        apply String.eqb_eq in Heq. subst z.
        destruct (IH (stringSet_delete id set)) as (Hleft & Hkept & Hnd).
        cbv zeta in Hleft, Hkept, Hnd.
        destruct (keepSelected rest (stringSet_delete id set)) as [kept left_].
        cbn [fst snd] in *. split; [|split].
        -- intro h. rewrite Hleft, stringSet_delete_In.
           destruct (String.eqb id h) eqn:E.
           ++ apply String.eqb_eq in E. intuition congruence.
           ++ apply String.eqb_neq in E. intuition congruence.
        -- intro el. cbn [In]. rewrite Hkept. split.
           ++ intros [<- | (h & Hh & Hf)].
              ** exists id. rewrite String.eqb_refl. tauto.
              ** apply stringSet_delete_In in Hh. exists h.
                 replace (String.eqb id h) with false
                   by (symmetry; apply String.eqb_neq; intuition congruence).
                 tauto.
           ++ intros (h & Hh & Hf). destruct (String.eqb id h) eqn:E.
              ** injection Hf as <-. tauto.
              ** apply String.eqb_neq in E. right. exists h.
                 rewrite stringSet_delete_In. intuition congruence.
        -- cbn [map]. constructor; [|exact Hnd].
           intro Hin. apply in_map_iff in Hin. destruct Hin as (el & Hel & Hk).
           apply Hkept in Hk. destruct Hk as (h & Hh & Hf).
           apply find_by_id_Some in Hf. destruct Hf as [_ Hf].
           apply stringSet_delete_In in Hh. destruct Hh as [Hh _]. congruence.
      * assert (Hout : ~ In id set).
        { intro H. assert (existsb (String.eqb id) set = true); [|congruence].
          apply existsb_exists. exists id. rewrite String.eqb_refl. tauto. }
        destruct (IH set) as (Hleft & Hkept & Hnd).
        cbv zeta in Hleft, Hkept, Hnd.
        destruct (keepSelected rest set) as [kept left_].
        cbn [fst snd] in *. split; [|split; [|exact Hnd]].
        -- intro h. rewrite Hleft. destruct (String.eqb id h) eqn:E.
           ++ apply String.eqb_eq in E. subst h. tauto.
           ++ tauto.
        -- intro el. rewrite Hkept. split; intros (h & Hh & Hf); exists h.
           ++ destruct (String.eqb id h) eqn:E; [|tauto].
              apply String.eqb_eq in E. subst h. contradiction.
           ++ destruct (String.eqb id h) eqn:E; [|tauto].
              apply String.eqb_eq in E. subst h. contradiction.
    + cbn [string_opt_eqb]. apply IH.
Qed.

(** X10: the reconciliation run when the items or the column count change
    splits the selected hashes between the widget and the shadow set.  With
    the widget rendered and some hash selected, afterwards the shadow set
    holds exactly the selected hashes that no mounted element carries, the
    widget's targets are exactly the first mounted elements of the other
    selected hashes, no two targets carry the same id, the active item is
    the one [getActiveItem] reads off the targets, and the selection itself
    is not touched.  With no hash selected nothing changes. *)
Theorem sync_splits_hashes (env : Env) (hashes : list string) (s : State) :
  allowMultiSelect env = true ->
  let s' := syncSelecto env hashes s in
  (hashes = [] -> s' = s)
  /\ (hashes <> [] ->
      (forall h, In h (selectoUnselected s') <->
                 In h hashes /\ elementWithId env h = None)
      /\ (forall el, In el (selectoTargets s') <->
                     exists h, In h hashes /\ elementWithId env h = Some el)
      /\ NoDup (map el_id (selectoTargets s'))
      /\ activeItem s' = getActiveItem env (selectoTargets s')
      /\ selectedItems s' = selectedItems s).
Proof.
  intros Hm s'. unfold s', syncSelecto. rewrite Hm. cbn [negb].
  split; [intros ->; reflexivity|]. intro Hne.
  assert (Hset : stringSet hashes <> []).
  { destruct hashes as [|h hs]; [contradiction|]. intro H.
    assert (Hin : In h (stringSet (h :: hs)))
      by (apply stringSet_In; left; reflexivity).
    rewrite H in Hin. exact Hin. }
  rewrite (size_nonzero _ Hset).
  destruct (keepSelected_spec (document env) (stringSet hashes))
    as (Hleft & Hkept & Hnd).
  cbv zeta in Hleft, Hkept, Hnd.
  destruct (keepSelected (document env) (stringSet hashes)) as [kept left_].
  cbn [fst snd] in *. unfold setSelectedTargets. rewrite Hm. cbn.
  unfold elementWithId.
  split; [intro h; rewrite Hleft, stringSet_In; reflexivity|].
  split.
  { intro el. rewrite Hkept. split; intros (h & Hh & Hf); exists h.
    - split; [exact (proj1 (stringSet_In _ _) Hh) | exact Hf].
    - split; [exact (proj2 (stringSet_In _ _) Hh) | exact Hf]. }
  split; [exact Hnd|]. split; reflexivity.
Qed.

Lemma sync_splits_hashes_witness :
  let s := selectionOf 4 0%Q [] None in
  let hashes := map (fun i => kindKey (fileItem i)) [10; 5; 6; 5] in
  selectoUnselected (syncSelecto shrinkEnv hashes s) = [kindKey (fileItem 10)]
  /\ selectoTargets (syncSelecto shrinkEnv hashes s)
     = map (fileElement 4 0%Q) [5; 6]
  /\ activeItem (syncSelecto shrinkEnv hashes s) = Some (fileItem 5)
  /\ forall h, In h (selectoUnselected (syncSelecto shrinkEnv hashes s)) <->
               In h hashes /\ elementWithId shrinkEnv h = None.
Proof.
  intros s hashes. repeat (split; [reflexivity|]).
  destruct (sync_splits_hashes shrinkEnv hashes s eq_refl) as (_ & H).
  destruct (H ltac:(discriminate)) as (Hshadow & _). exact Hshadow.
Defined.

(** * Further properties of the open dispatcher *)

(** ** The index of the quick preview *)

(** The [itemIndex] left by the reducer started at index [i0] with
    [idx0]: the index of the last selected item with the id of the clicked
    one, or [idx0] when there is none. *)
Lemma itemIndex_fold (p : Platform) (item : option ExplorerItem)
  (sel : list ExplorerItem) :
  forall idx0 b0 i0,
    let out := fold_left (bucketStep p item) sel (idx0, b0, i0) in
    snd out = i0 + Z.of_nat (List.length sel)
    /\ ((forall x, In x sel -> sameAsClicked p item x = false)
        /\ fst (fst out) = idx0
        \/ exists n x, nth_error sel n = Some x
                       /\ sameAsClicked p item x = true
                       /\ fst (fst out) = i0 + Z.of_nat n).
Proof.
  induction sel as [|y sel IH]; intros idx0 b0 i0; cbn [fold_left]; cbv zeta.
  - cbn. split; [lia|]. left. split; [intros x []|reflexivity].
  - unfold bucketStep at 2 4 6.
    match goal with
    | |- context [fold_left _ sel (?idx, ?b, ?i)] =>
      destruct (IH idx b i) as (Hlen & Hcase)
    end.
    cbv zeta in Hlen, Hcase. split.
    + rewrite Hlen. cbn [List.length]. lia.
    + destruct Hcase as [(Hnone & Hidx) | (n & x & Hn & Hx & Hidx)].
      * destruct (sameAsClicked p item y) eqn:Hy.
        -- right. exists 0%nat, y. cbn [nth_error]. rewrite Hidx.
           repeat split; [exact Hy | lia].
        -- left. split; [|exact Hidx].
           intros x [<- | Hx]; [exact Hy | exact (Hnone x Hx)].
      * right. exists (S n), x. cbn [nth_error]. rewrite Hidx.
        repeat split; [exact Hn | exact Hx | lia].
Qed.

(** X11: in quick-preview mode a double click on a previewable item,
    with a file among the selected items, opens the quick preview at the
    position of the clicked item in the selection, provided the clicked item
    is selected and no other selected item has its id.  When no selected item
    has the id of the clicked one the preview opens at position 0. *)
Theorem quick_preview_opens_at_clicked (p : Platform) (it : ExplorerItem)
  (w : World) :
  openOnDoubleClick p = quickPreview ->
  previewable it = true ->
  paths (snd (partitionSelection p (Some it) (selectedItems (explorer w))))
    <> [] ->
  let w' := doubleClick p (Some it) w in
  qp_open (quickPreviewStore w') = true
  /\ trace w' = trace w
  /\ (In it (selectedItems (explorer w)) ->
      (forall x, In x (selectedItems (explorer w)) ->
                 dc_uniqueId p x = dc_uniqueId p it -> x = it) ->
      at_index (selectedItems (explorer w))
        (qp_itemIndex (quickPreviewStore w')) = Some it)
  /\ ((forall x, In x (selectedItems (explorer w)) ->
                 dc_uniqueId p x <> dc_uniqueId p it) ->
      qp_itemIndex (quickPreviewStore w') = 0).
Proof.
  intros Hmode Hprev Hpaths w'.
  assert (Hsel : selectedItems (explorer w) <> []).
  { intro H. rewrite H in Hpaths. apply Hpaths. reflexivity. }
  assert (Hw' : w' = openQuickPreview
                       (fst (partitionSelection p (Some it)
                               (selectedItems (explorer w)))) w).
  { unfold w', doubleClick.
    destruct (selectedItems (explorer w)) as [|x xs]; [contradiction|].
    destruct (partitionSelection p (Some it) (x :: xs)) as [itemIndex b].
    cbn [fst snd] in *.
    destruct (paths b) as [|f fs]; [contradiction|].
    rewrite Hmode, Hprev.
    destruct (openFilePaths p); reflexivity. }
  rewrite Hw'. unfold openQuickPreview.
  cbn [quickPreviewStore qp_open qp_itemIndex trace].
  split; [reflexivity|]. split; [reflexivity|].
  unfold partitionSelection.
  destruct (itemIndex_fold p (Some it) (selectedItems (explorer w))
              0 emptyBuckets 0) as (_ & Hcase).
  cbv zeta in Hcase. split.
  - intros Hin Huniq.
    destruct Hcase as [(Hnone & _) | (n & x & Hn & Hx & Hidx)].
    + specialize (Hnone it Hin). unfold sameAsClicked in Hnone.
      rewrite String.eqb_refl in Hnone. discriminate Hnone.
    + rewrite Hidx. unfold at_index.
      replace (0 + Z.of_nat n <? 0) with false
        by (symmetry; apply Z.ltb_ge; lia).
      replace (Z.to_nat (0 + Z.of_nat n)) with n by lia.
      rewrite Hn. f_equal. apply Huniq.
      * eapply nth_error_In. exact Hn.
      * unfold sameAsClicked in Hx. apply String.eqb_eq in Hx. congruence.
  - intros Hnone.
    destruct Hcase as [(_ & Hidx) | (n & x & Hn & Hx & _)]; [exact Hidx|].
    exfalso. apply (Hnone x); [eapply nth_error_In; exact Hn|].
    unfold sameAsClicked in Hx. apply String.eqb_eq in Hx. congruence.
Qed.

Lemma quick_preview_opens_at_clicked_witness :
  let p := failingPlatform quickPreview in
  let w := freshWorld [dirItem 1; fileItem 4; fileItem 5] in
  quickPreviewStore (doubleClick p (Some (fileItem 5)) w)
  = {| qp_open := true; qp_itemIndex := 2 |}
  /\ at_index (selectedItems (explorer w))
       (qp_itemIndex (quickPreviewStore (doubleClick p (Some (fileItem 5)) w)))
     = Some (fileItem 5).
Proof.
  intros p w. split; [reflexivity|].
  destruct (quick_preview_opens_at_clicked p (fileItem 5) w eq_refl eq_refl)
    as (_ & _ & Hat & _); [vm_compute; discriminate|].
  apply Hat; [right; right; left; reflexivity|].
  intros x Hx Hid. cbn in Hx.
  destruct Hx as [<- | [<- | [<- | []]]]; vm_compute in Hid;
    try discriminate Hid; reflexivity.
Defined.

(** X12: when no selected item has the id of the clicked item (in
    particular when nothing was clicked), every bucket lists its members,
    the payloads the reducer inserts into it, in selection order with the
    first member moved to the end. *)
Theorem bucket_order_without_clicked (p : Platform)
  (item : option ExplorerItem) (sel : list ExplorerItem) :
  (forall x, In x sel -> sameAsClicked p item x = false) ->
  let b := snd (partitionSelection p item sel) in
  dirs b = firstLast (map snd (filePathInsertions true p item sel))
  /\ paths b = firstLast (map snd (filePathInsertions false p item sel))
  /\ locations b = firstLast (map snd (locationInsertions p item sel))
  /\ non_indexed b = firstLast (map snd (nonIndexedInsertions p item sel)).
Proof.
  intros Hnone b.
  destruct (partition_spliceAll p item sel (0, emptyBuckets, 0))
    as (Hd & Hp & Hl & Hn).
  cbv zeta in Hd, Hp, Hl, Hn. cbn [fst snd emptyBuckets dirs paths locations
                                   non_indexed] in Hd, Hp, Hl, Hn.
  unfold b, partitionSelection. rewrite Hd, Hp, Hl, Hn.
  assert (Hfp : forall isDir fx,
             In fx (filePathInsertions isDir p item sel) -> fst fx = false).
  { intros isDir fx H. unfold filePathInsertions in H.
    apply in_flat_map in H. destruct H as (x & Hx & H).
    apply in_map_iff in H. destruct H as (fp & <- & _).
    exact (Hnone x Hx). }
  assert (Hloc : forall fx,
             In fx (locationInsertions p item sel) -> fst fx = false).
  { intros fx H. unfold locationInsertions in H.
    apply in_flat_map in H. destruct H as (x & Hx & H).
    destruct x; try contradiction. destruct H as [<- | []].
    exact (Hnone _ Hx). }
  assert (Hni : forall fx,
             In fx (nonIndexedInsertions p item sel) -> fst fx = false).
  { intros fx H. unfold nonIndexedInsertions in H.
    apply in_flat_map in H. destruct H as (x & Hx & H).
    destruct x; try contradiction. destruct H as [<- | []].
    exact (Hnone _ Hx). }
  pose proof (spliceAll_unflagged _ [] (Hfp true)) as Ed.
  pose proof (spliceAll_unflagged _ [] (Hfp false)) as Ep.
  pose proof (spliceAll_unflagged _ [] Hloc) as El.
  pose proof (spliceAll_unflagged _ [] Hni) as En.
  cbn [firstLast app] in Ed, Ep, El, En.
  rewrite Ed, Ep, El, En.
  repeat split; reflexivity.
Qed.

Lemma bucket_order_without_clicked_witness :
  let p := failingPlatform openFile in
  map fp_id (dirs (snd (partitionSelection p None mixedSelection))) = [2; 3; 1]
  /\ trace (doubleClick (failingPlatform quickPreview) None
              (freshWorld mixedSelection))
     = [SetSearchParamsPath "/2/"].
Proof.
  intro p. split; [|reflexivity].
  destruct (bucket_order_without_clicked p None mixedSelection) as (Hd & _).
  { intros x _. reflexivity. }
  rewrite Hd. reflexivity.
Defined.

(** X13: when exactly one insertion of a bucket comes from the clicked
    item, the clicked member is first in the bucket if another member was
    selected before it, the other members following in selection order with
    the first of them moved to the end; but when the clicked member is the
    first member of the bucket it comes last, after the other members in
    selection order. *)
Theorem bucket_order_with_clicked (p : Platform) (item : option ExplorerItem)
  (sel : list ExplorerItem) :
  let b := snd (partitionSelection p item sel) in
  let law {A} (ins : list (bool * A)) (bucket : list A) :=
    forall pre x post,
      ins = pre ++ (true, x) :: post ->
      (forall fx, In fx pre -> fst fx = false) ->
      (forall fx, In fx post -> fst fx = false) ->
      bucket = match pre with
               | [] => map snd post ++ [x]
               | _ :: _ => x :: firstLast (map snd pre ++ map snd post)
               end in
  law (filePathInsertions true p item sel) (dirs b)
  /\ law (filePathInsertions false p item sel) (paths b)
  /\ law (locationInsertions p item sel) (locations b)
  /\ law (nonIndexedInsertions p item sel) (non_indexed b).
Proof.
  intros b law.
  destruct (partition_spliceAll p item sel (0, emptyBuckets, 0))
    as (Hd & Hp & Hl & Hn).
  cbv zeta in Hd, Hp, Hl, Hn. cbn [fst snd emptyBuckets dirs paths locations
                                   non_indexed] in Hd, Hp, Hl, Hn.
  unfold b, partitionSelection, law. rewrite Hd, Hp, Hl, Hn.
  repeat split; intros pre x post -> Hpre Hpost;
    rewrite (spliceAll_clicked pre post x Hpre Hpost);
    destruct pre; reflexivity.
Qed.

Lemma bucket_order_with_clicked_witness :
  let p := failingPlatform openFile in
  map fp_id (dirs (snd (partitionSelection p (Some (dirItem 2)) mixedSelection)))
  = [2; 3; 1]
  /\ map fp_id
       (dirs (snd (partitionSelection p (Some (dirItem 1)) mixedSelection)))
     = [2; 3; 1]
  /\ trace (doubleClick p (Some (dirItem 3)) (freshWorld [dirItem 1; dirItem 3]))
     = [SetSearchParamsPath "/3/"].
Proof.
  intro p.
  destruct (bucket_order_with_clicked p (Some (dirItem 2)) mixedSelection)
    as (Hd2 & _).
  destruct (bucket_order_with_clicked p (Some (dirItem 1)) mixedSelection)
    as (Hd1 & _).
  split; [|split; [|reflexivity]].
  - rewrite (Hd2 (filePathInsertions true p (Some (dirItem 2)) [dirItem 1])
               {| fp_id := 2; fp_is_dir := true; fp_materialized_path := "/";
                  fp_name := decimal 2; fp_object_id := None |}
               (filePathInsertions true p (Some (dirItem 2)) [dirItem 3])).
    + reflexivity.
    + reflexivity.
    + intros fx [<- | []]. reflexivity.
    + intros fx [<- | []]. reflexivity.
  - rewrite (Hd1 []
               {| fp_id := 1; fp_is_dir := true; fp_materialized_path := "/";
                  fp_name := decimal 1; fp_object_id := None |}
               (filePathInsertions true p (Some (dirItem 1))
                  [dirItem 2; dirItem 3])).
    + reflexivity.
    + reflexivity.
    + intros fx [].
    + intros fx [<- | [<- | []]]; reflexivity.
Defined.


(** * Properties of the renamable item text *)

Lemma reset_effects (p : RenamableItemText.Props) (st : RenamableItemText.Text) :
  RenamableItemText.effects (RenamableItemText.reset p st)
  = RenamableItemText.effects st.
Proof.
  unfold RenamableItemText.reset.
  destruct (RenamableItemText.innerText st); [|reflexivity].
  destruct (RenamableItemText.fullName p) as [n|]; [|reflexivity].
  destruct (String.eqb n ""); reflexivity.
Qed.

Lemma reset_idempotent (p : RenamableItemText.Props)
  (st : RenamableItemText.Text) :
  RenamableItemText.reset p (RenamableItemText.reset p st)
  = RenamableItemText.reset p st.
Proof.
  unfold RenamableItemText.reset.
  destruct st as [[t|] eff]; cbn [RenamableItemText.innerText]; [|reflexivity].
  destruct (RenamableItemText.fullName p) as [n|]; [|reflexivity].
  destruct (String.eqb n "") eqn:En;
    cbn [RenamableItemText.innerText]; rewrite ?En; reflexivity.
Qed.

Lemma skipn_length_app {A} (l new : list A) :
  skipn (List.length l) (l ++ new) = new.
Proof. induction l; [reflexivity|assumption]. Qed.

Lemma reset_log (p : RenamableItemText.Props) (e : RenamableItemText.Effect)
  (st : RenamableItemText.Text) :
  RenamableItemText.reset p (RenamableItemText.log e st)
  = RenamableItemText.log e (RenamableItemText.reset p st).
Proof.
  unfold RenamableItemText.reset, RenamableItemText.log.
  destruct st as [[t|] eff];
    cbn [RenamableItemText.innerText RenamableItemText.effects];
    [|reflexivity].
  destruct (RenamableItemText.fullName p) as [n|]; [|reflexivity].
  destruct (String.eqb n ""); reflexivity.
Qed.

Lemma handleRename_run (p : RenamableItemText.Props) (newName : string)
  (st : RenamableItemText.Text) : RenameRun p newName st.
Proof.
  assert (Hrefuse : forall message,
    RenamableItemText.tryRename p newName st
    = (st, Some (RenamableItemText.ErrorObject message)) ->
    (message = "Invalid explorer item type"%string
     <-> RenamableItemText.includes RenamableItemText.RENAMABLE_ITEM_TYPES
           (RenamableItemText.typeOf (RenamableItemText.item p)) = false) ->
    RenameRun p newName st).
  { intros message Htry Hmsg. apply (RunRefused p newName st message).
    - unfold RenamableItemText.emitted, RenamableItemText.handleRename.
      rewrite Htry. cbn. rewrite reset_effects. apply skipn_length_app.
    - unfold RenamableItemText.handleRename. rewrite Htry. reflexivity.
    - exact Hmsg. }
  assert (Hasync : forall m,
    (forall a b, m <> RenamableItemText.EphemeralFilesRenameFile a b) ->
    RenamableItemText.includes RenamableItemText.RENAMABLE_ITEM_TYPES
      (RenamableItemText.typeOf (RenamableItemText.item p)) = true ->
    RenamableItemText.tryRename p newName st
    = RenamableItemText.mutateAsync p m st ->
    RenameRun p newName st).
  { intros m Hm Hin Htry.
    destruct (RenamableItemText.server p m) as [|error] eqn:Hs.
    - apply (RunResolved p newName st m Hs Hin).
      + unfold RenamableItemText.emitted, RenamableItemText.handleRename.
        rewrite Htry. unfold RenamableItemText.mutateAsync,
          RenamableItemText.settle. rewrite Hs. cbn.
        rewrite <- app_assoc. apply skipn_length_app.
      + unfold RenamableItemText.handleRename. rewrite Htry.
        unfold RenamableItemText.mutateAsync, RenamableItemText.settle.
        rewrite Hs. reflexivity.
    - apply (RunRejected p newName st m error Hs Hin).
      + unfold RenamableItemText.emitted, RenamableItemText.handleRename.
        rewrite Htry. unfold RenamableItemText.mutateAsync,
          RenamableItemText.settle. rewrite Hs. cbn.
        rewrite !reset_effects. cbn. rewrite <- app_assoc.
        rewrite skipn_length_app.
        destruct m; try reflexivity. exfalso. eapply Hm. reflexivity.
      + unfold RenamableItemText.handleRename. rewrite Htry.
        unfold RenamableItemText.mutateAsync, RenamableItemText.settle.
        rewrite Hs. cbn [RenamableItemText.log RenamableItemText.innerText].
        rewrite reset_idempotent, reset_log. reflexivity. }
  assert (Hno : forall s : string,
             s <> "Invalid explorer item type"%string ->
             RenamableItemText.includes RenamableItemText.RENAMABLE_ITEM_TYPES
               (RenamableItemText.typeOf (RenamableItemText.item p)) = true ->
             (s = "Invalid explorer item type"%string
              <-> RenamableItemText.includes
                    RenamableItemText.RENAMABLE_ITEM_TYPES
                    (RenamableItemText.typeOf (RenamableItemText.item p))
                  = false)).
  { intros s Hs Hin. rewrite Hin. split; [contradiction|discriminate]. }
  destruct (RenamableItemText.item p) as [f | o | l | n | name | lab] eqn:Hitem.
  - destruct (RenamableItemText.getIndexedItemFilePath p (Path f))
      as [d|] eqn:Hd.
    + destruct (RenamableItemText.location_id d) as [lid|] eqn:Hl.
      * destruct (lid =? 0) eqn:Hz.
        -- apply (Hrefuse "Missing location id"%string).
           ++ unfold RenamableItemText.tryRename.
              rewrite Hitem, Hd, Hl, Hz. reflexivity.
           ++ apply Hno; [discriminate|reflexivity].
        -- apply (Hasync (RenamableItemText.FilesRenameFile lid
                            (RenamableItemText.id d) newName)).
           ++ discriminate.
           ++ reflexivity.
           ++ unfold RenamableItemText.tryRename.
              rewrite Hitem, Hd, Hl, Hz. reflexivity.
      * apply (Hrefuse "Missing location id"%string).
        -- unfold RenamableItemText.tryRename. rewrite Hitem, Hd, Hl.
           reflexivity.
        -- apply Hno; [discriminate|reflexivity].
    + apply (Hrefuse "Failed to get file path object"%string).
      * unfold RenamableItemText.tryRename. rewrite Hitem, Hd. reflexivity.
      * apply Hno; [discriminate|reflexivity].
  - destruct (RenamableItemText.getIndexedItemFilePath p (Object o))
      as [d|] eqn:Hd.
    + destruct (RenamableItemText.location_id d) as [lid|] eqn:Hl.
      * destruct (lid =? 0) eqn:Hz.
        -- apply (Hrefuse "Missing location id"%string).
           ++ unfold RenamableItemText.tryRename.
              rewrite Hitem, Hd, Hl, Hz. reflexivity.
           ++ apply Hno; [discriminate|reflexivity].
        -- apply (Hasync (RenamableItemText.FilesRenameFile lid
                            (RenamableItemText.id d) newName)).
           ++ discriminate.
           ++ reflexivity.
           ++ unfold RenamableItemText.tryRename.
              rewrite Hitem, Hd, Hl, Hz. reflexivity.
      * apply (Hrefuse "Missing location id"%string).
        -- unfold RenamableItemText.tryRename. rewrite Hitem, Hd, Hl.
           reflexivity.
        -- apply Hno; [discriminate|reflexivity].
    + apply (Hrefuse "Failed to get file path object"%string).
      * unfold RenamableItemText.tryRename. rewrite Hitem, Hd. reflexivity.
      * apply Hno; [discriminate|reflexivity].
  - destruct (loc_id l =? 0) eqn:Hz.
    + apply (Hrefuse "Missing location id"%string).
      * unfold RenamableItemText.tryRename. rewrite Hitem. cbv zeta.
        rewrite Hz. reflexivity.
      * apply Hno; [discriminate|reflexivity].
    + apply (Hasync (RenamableItemText.LocationsUpdate (loc_id l) newName)).
      * discriminate.
      * reflexivity.
      * unfold RenamableItemText.tryRename. rewrite Hitem. cbv zeta.
        rewrite Hz. reflexivity.
  - destruct (RenamableItemText.getEphemeralPath p (NonIndexedPath n))
      as [f|] eqn:Hf.
    + assert (Htry : RenamableItemText.tryRename p newName st
                     = (RenamableItemText.mutate p
                          (RenamableItemText.EphemeralFilesRenameFile
                             (nip_path f) newName) st, None)).
      { unfold RenamableItemText.tryRename. rewrite Hitem, Hf. reflexivity. }
      assert (Hin : RenamableItemText.includes
                      RenamableItemText.RENAMABLE_ITEM_TYPES
                      (RenamableItemText.typeOf (RenamableItemText.item p))
                    = true).
      { rewrite Hitem. reflexivity. }
      destruct (RenamableItemText.server p
                  (RenamableItemText.EphemeralFilesRenameFile (nip_path f)
                     newName)) as [|error] eqn:Hs.
      * apply (RunResolved p newName st _ Hs Hin).
        -- unfold RenamableItemText.emitted, RenamableItemText.handleRename.
           rewrite Htry. unfold RenamableItemText.mutate,
             RenamableItemText.settle. rewrite Hs. cbn.
           rewrite <- app_assoc. apply skipn_length_app.
        -- unfold RenamableItemText.handleRename. rewrite Htry.
           unfold RenamableItemText.mutate, RenamableItemText.settle.
           rewrite Hs. reflexivity.
      * apply (RunRejected p newName st _ error Hs Hin).
        -- unfold RenamableItemText.emitted, RenamableItemText.handleRename.
           rewrite Htry. unfold RenamableItemText.mutate,
             RenamableItemText.settle. rewrite Hs. cbn.
           rewrite reset_effects. cbn. apply skipn_length_app.
        -- unfold RenamableItemText.handleRename. rewrite Htry.
           unfold RenamableItemText.mutate, RenamableItemText.settle.
           rewrite Hs. cbn [fst]. rewrite reset_log. reflexivity.
    + apply (Hrefuse "Failed to get ephemeral file object"%string).
      * unfold RenamableItemText.tryRename. rewrite Hitem, Hf. reflexivity.
      * apply Hno; [discriminate|reflexivity].
  - apply (Hrefuse "Invalid explorer item type"%string).
    + unfold RenamableItemText.tryRename. rewrite Hitem. reflexivity.
    + split; reflexivity.
  - apply (Hrefuse "Invalid explorer item type"%string).
    + unfold RenamableItemText.tryRename. rewrite Hitem. reflexivity.
    + split; reflexivity.
Qed.


Lemma disabled_false_renamable (p : RenamableItemText.Props) :
  RenamableItemText.disabled p = false ->
  RenamableItemText.includes RenamableItemText.RENAMABLE_ITEM_TYPES
    (RenamableItemText.typeOf (RenamableItemText.item p)) = true.
Proof.
  unfold RenamableItemText.disabled. intro H.
  apply orb_false_iff in H. destruct H as [_ H].
  destruct (RenamableItemText.explorerSelection p); [|discriminate].
  apply orb_false_iff in H. destruct H as [_ H].
  apply negb_false_iff in H. exact H.
Qed.

(** X14: the rename handler reports the error 'Invalid explorer item type'
    exactly for the items whose type is not in [RENAMABLE_ITEM_TYPES], and
    for these the error toast is all it emits (no mutation is sent); so
    whenever [disabled] is false the handler never reports this error. *)
Theorem invalid_type_only_when_not_renamable (p : RenamableItemText.Props)
  (newName : string) (st : RenamableItemText.Text) :
  let invalid :=
    RenamableItemText.CouldNotRename (RenamableItemText.fullName p) newName
      (RenamableItemText.ErrorObject "Invalid explorer item type") in
  let renamable :=
    RenamableItemText.includes RenamableItemText.RENAMABLE_ITEM_TYPES
      (RenamableItemText.typeOf (RenamableItemText.item p)) in
  (In invalid (RenamableItemText.emitted p newName st) <-> renamable = false)
  /\ (renamable = false ->
      RenamableItemText.emitted p newName st = [invalid])
  /\ (RenamableItemText.disabled p = false ->
      ~ In invalid (RenamableItemText.emitted p newName st)).
Proof.
  intros invalid renamable.
  assert (Hiff : In invalid (RenamableItemText.emitted p newName st)
                 <-> renamable = false).
  { unfold invalid, renamable.
    destruct (handleRename_run p newName st)
      as [msg He _ Hm | m _ Hin He _ | m error _ Hin He _]; rewrite He.
    - split.
      + intros [H | []]. injection H as H. apply Hm. exact H.
      + intro H. apply Hm in H. subst msg. left. reflexivity.
    - rewrite Hin. split; [|discriminate].
      intros [H | [H | []]]; discriminate.
    - rewrite Hin. split; [|discriminate].
      destruct m; intros [H | H]; try discriminate;
        try (destruct H as [H | []]; discriminate); destruct H. }
  split; [exact Hiff|]. split.
  - intro Hr. unfold invalid.
    destruct (handleRename_run p newName st)
      as [msg He _ Hm | m _ Hin He _ | m error _ Hin He _].
    + rewrite He. apply Hm in Hr. subst msg. reflexivity.
    + unfold renamable in Hr. congruence.
    + unfold renamable in Hr. congruence.
  - intros Hd Hin. apply Hiff in Hin.
    apply disabled_false_renamable in Hd. unfold renamable in Hin. congruence.
Qed.

Lemma invalid_type_only_when_not_renamable_witness :
  RenamableItemText.disabled (RenamableItemText.locationProps 5 true) = false
  /\ ~ In (RenamableItemText.CouldNotRename (Some "Home"%string) "Work"
             (RenamableItemText.ErrorObject "Invalid explorer item type"))
          (RenamableItemText.emitted (RenamableItemText.locationProps 5 true)
             "Work" (RenamableItemText.shown "Work")).
Proof.
  split; [reflexivity|].
  apply (proj2 (proj2 (invalid_type_only_when_not_renamable
                         (RenamableItemText.locationProps 5 true) "Work"
                         (RenamableItemText.shown "Work")))).
  reflexivity.
Defined.

Lemma handleRename_unattached (p : RenamableItemText.Props)
  (newName : string) (st : RenamableItemText.Text) :
  RenamableItemText.innerText st = None ->
  RenamableItemText.handleRename p newName st
  = {| RenamableItemText.innerText := None;
       RenamableItemText.effects :=
         RenamableItemText.effects st
         ++ RenamableItemText.emitted p newName st |}.
Proof.
  intro Hnull.
  assert (Hreset : forall st0,
             RenamableItemText.innerText st0 = None ->
             RenamableItemText.reset p st0 = st0).
  { intros st0 H. unfold RenamableItemText.reset. rewrite H. reflexivity. }
  assert (Htext : RenamableItemText.innerText
                    (RenamableItemText.handleRename p newName st) = None).
  { destruct (handleRename_run p newName st)
      as [msg _ Hs _ | m _ _ _ Ht | m error _ _ _ Ht].
    - rewrite Hs, (Hreset st Hnull). exact Hnull.
    - rewrite Ht. exact Hnull.
    - rewrite Ht, (Hreset st Hnull). exact Hnull. }
  assert (Hlog : exists new,
             RenamableItemText.effects
               (RenamableItemText.handleRename p newName st)
             = RenamableItemText.effects st ++ new).
  { assert (Hsettle : forall m,
               exists new,
                 RenamableItemText.effects
                   (fst (RenamableItemText.settle p m st))
                 = RenamableItemText.effects st ++ new).
    { intro m. unfold RenamableItemText.settle.
      destruct (RenamableItemText.server p m);
        cbn [fst RenamableItemText.log RenamableItemText.effects];
        rewrite ?reset_effects;
        cbn [RenamableItemText.log RenamableItemText.effects];
        rewrite <- ?app_assoc; eexists; reflexivity. }
    assert (Hasync : forall m,
               exists new,
                 RenamableItemText.effects
                   (fst (RenamableItemText.mutateAsync p m st))
                 = RenamableItemText.effects st ++ new).
    { intro m. unfold RenamableItemText.mutateAsync.
      destruct (Hsettle m) as (new & H).
      destruct (RenamableItemText.settle p m st) as [st1 [|e]];
        exists new; exact H. }
    assert (Hid : exists new,
               RenamableItemText.effects st
               = RenamableItemText.effects st ++ new).
    { exists []. rewrite app_nil_r. reflexivity. }
    assert (Htry : exists new,
               RenamableItemText.effects
                 (fst (RenamableItemText.tryRename p newName st))
               = RenamableItemText.effects st ++ new).
    { unfold RenamableItemText.tryRename.
      destruct (RenamableItemText.item p) as [f | o | l | n | name | lab];
        try exact Hid.
      - destruct (RenamableItemText.getIndexedItemFilePath p (Path f))
          as [d|]; [|exact Hid].
        destruct (RenamableItemText.location_id d) as [lid|]; [|exact Hid].
        destruct (lid =? 0); [exact Hid | apply Hasync].
      - destruct (RenamableItemText.getIndexedItemFilePath p (Object o))
          as [d|]; [|exact Hid].
        destruct (RenamableItemText.location_id d) as [lid|]; [|exact Hid].
        destruct (lid =? 0); [exact Hid | apply Hasync].
      - cbv zeta. destruct (loc_id l =? 0); [exact Hid | apply Hasync].
      - destruct (RenamableItemText.getEphemeralPath p (NonIndexedPath n))
          as [f|]; [|exact Hid].
        cbn [fst]. unfold RenamableItemText.mutate. apply Hsettle. }
    destruct Htry as (new & Htry).
    unfold RenamableItemText.handleRename.
    destruct (RenamableItemText.tryRename p newName st) as [st1 [e|]];
      cbn [fst] in Htry;
      cbn [RenamableItemText.log RenamableItemText.effects];
      rewrite ?reset_effects, Htry, <- ?app_assoc;
      eexists; reflexivity. }
  destruct Hlog as (new & Hlog).
  unfold RenamableItemText.emitted. rewrite Hlog, skipn_length_app.
  rewrite <- Hlog, <- Htext.
  destruct (RenamableItemText.handleRename p newName st). reflexivity.
Qed.

(** X15: the component creates [ref] with null and attaches it to no
    element, so that [reset] returns before it writes.  From the state the
    component starts in, no run of renames, whatever the props, the new names
    and the answers of the library, sets the text of the element: a refused
    or rejected rename does not put the full name back.  With the ref
    unattached a rename changes nothing but the effects it adds. *)
Theorem rename_never_restores_name
  (calls : list (RenamableItemText.Props * string)) :
  RenamableItemText.innerText
    (RenamableItemText.renames calls RenamableItemText.initialText) = None
  /\ forall p newName st,
       RenamableItemText.innerText st = None ->
       RenamableItemText.handleRename p newName st
       = {| RenamableItemText.innerText := None;
            RenamableItemText.effects :=
              RenamableItemText.effects st
              ++ RenamableItemText.emitted p newName st |}.
Proof.
  split; [|exact handleRename_unattached].
  unfold RenamableItemText.renames.
  assert (H : forall st,
             RenamableItemText.innerText st = None ->
             RenamableItemText.innerText
               (fold_left
                  (fun st call =>
                     RenamableItemText.handleRename (fst call) (snd call) st)
                  calls st) = None).
  { induction calls as [|call calls IH]; intros st Hst; cbn [fold_left].
    - exact Hst.
    - apply IH. rewrite (handleRename_unattached _ _ st Hst). reflexivity. }
  apply H. reflexivity.
Qed.

Lemma rename_never_restores_name_witness :
  RenamableItemText.handleRename (RenamableItemText.locationProps 5 true)
    "Work" RenamableItemText.initialText
  = {| RenamableItemText.innerText := None;
       RenamableItemText.effects :=
         [RenamableItemText.Sent (RenamableItemText.LocationsUpdate 5 "Work");
          RenamableItemText.CouldNotRename (Some "Home"%string) "Work"
            (RenamableItemText.MutationError "denied")] |}.
Proof.
  exact (proj2 (rename_never_restores_name [])
           (RenamableItemText.locationProps 5 true) "Work"%string
           RenamableItemText.initialText eq_refl).
Defined.

(** X16: one call of the rename handler sends at most one mutation.  When
    the library rejects the mutation that was sent, the rename of a location
    or of an indexed file raises one toast carrying the library's error,
    whereas the rename of a non-indexed file raises none. *)
Theorem rejected_rename_reports (p : RenamableItemText.Props)
  (newName : string) (st : RenamableItemText.Text) :
  let out := RenamableItemText.emitted p newName st in
  (List.length (filter RenamableItemText.isSent out) <= 1)%nat
  /\ forall m error,
       In (RenamableItemText.Sent m) out ->
       RenamableItemText.server p m = Rejected error ->
       out = match m with
             | RenamableItemText.EphemeralFilesRenameFile _ _ =>
                 [RenamableItemText.Sent m]
             | _ =>
                 [RenamableItemText.Sent m;
                  RenamableItemText.CouldNotRename
                    (RenamableItemText.fullName p) newName
                    (RenamableItemText.MutationError error)]
             end.
Proof.
  intro out. unfold out.
  destruct (handleRename_run p newName st)
    as [msg He _ _ | m Hsv _ He _ | m error Hsv _ He _]; rewrite He.
  - split; [cbn; lia|]. intros m error [H | []]. discriminate.
  - split; [cbn; lia|]. intros m' error [H | [H | []]]; [|discriminate].
    injection H as <-. congruence.
  - split; [destruct m; cbn; lia|].
    intros m' error' Hin Hsv'.
    assert (m' = m) as ->.
    { destruct m; destruct Hin as [H | H];
        try (injection H as <-; reflexivity);
        try (destruct H as [H | []]; discriminate); destruct H. }
    rewrite Hsv in Hsv'. injection Hsv' as <-. reflexivity.
Qed.

Lemma rejected_rename_reports_witness :
  RenamableItemText.emitted (RenamableItemText.locationProps 5 true) "Work"
    (RenamableItemText.shown "Work")
  = [RenamableItemText.Sent (RenamableItemText.LocationsUpdate 5 "Work");
     RenamableItemText.CouldNotRename (Some "Home"%string) "Work"
       (RenamableItemText.MutationError "denied")]
  /\ RenamableItemText.emitted
       (RenamableItemText.ephemeralProps "/tmp/notes.txt" true) "draft.txt"
       (RenamableItemText.shown "draft.txt")
     = [RenamableItemText.Sent
          (RenamableItemText.EphemeralFilesRenameFile "/tmp/notes.txt"
             "draft.txt")].
Proof.
  split.
  - apply (proj2 (rejected_rename_reports
                    (RenamableItemText.locationProps 5 true) "Work"
                    (RenamableItemText.shown "Work"))
             (RenamableItemText.LocationsUpdate 5 "Work") "denied"%string).
    + left. reflexivity.
    + reflexivity.
  - apply (proj2 (rejected_rename_reports
                    (RenamableItemText.ephemeralProps "/tmp/notes.txt" true)
                    "draft.txt" (RenamableItemText.shown "draft.txt"))
             (RenamableItemText.EphemeralFilesRenameFile "/tmp/notes.txt"
                "draft.txt") "denied"%string).
    + left. reflexivity.
    + reflexivity.
Defined.

(** * Properties of the horizontal scroller *)

(** X17: with the component state fresh or brought up to date by
    [updateScrollState], at the start of the scroll range (scrollLeft 0) a
    click on either arrow button that reaches [scrollTo] asks for a negative
    position; and with the state up to date at the end of the range
    (scrollLeft = scrollWidth - clientWidth) such a click asks for a position
    beyond the end. *)
Theorem arrows_at_the_ends (element : HorizontalScroll.ScrollElement)
  (st0 st : HorizontalScroll.ScrollState) :
  let ref := Some element in
  let synced := HorizontalScroll.updateScrollState ref st0 in
  let requested t :=
    HorizontalScroll.clickLeftButton ref st = Some t
    \/ HorizontalScroll.clickRightButton ref st = Some t in
  let last :=
    (HorizontalScroll.scrollWidth element
     - HorizontalScroll.clientWidth element)%Q in
  (st = HorizontalScroll.initialState \/ st = synced ->
   (HorizontalScroll.scrollLeft element == 0)%Q ->
   forall t, requested t -> (t < 0)%Q)
  /\ (st = synced ->
      (HorizontalScroll.scrollLeft element == last)%Q ->
      forall t, requested t -> (last < t)%Q).
Proof.
  intros ref synced requested last. split.
  - intros Hst H0 t [Hl | Hr].
    + exfalso. unfold HorizontalScroll.clickLeftButton in Hl.
      assert (Hs : Qeq_bool (HorizontalScroll.scroll st) 0 = true).
      { destruct Hst as [-> | ->]; [reflexivity|].
        apply Qeq_bool_iff. exact H0. }
      rewrite Hs in Hl. discriminate.
    + unfold HorizontalScroll.clickRightButton in Hr.
      destruct (HorizontalScroll.lastItemVisible st); [discriminate|].
      cbn in Hr. injection Hr as <-. lra.
  - intros -> Hlast t [Hl | Hr].
    + unfold HorizontalScroll.clickLeftButton in Hl.
      destruct (Qeq_bool _ 0); [discriminate|].
      cbn in Hl. injection Hl as <-. unfold last in *. lra.
    + exfalso. unfold HorizontalScroll.clickRightButton, synced in Hr.
      cbn [HorizontalScroll.updateScrollState ref
           HorizontalScroll.lastItemVisible] in Hr.
      assert (Hs : Qeq_bool
                     (HorizontalScroll.scrollWidth element
                      - HorizontalScroll.clientWidth element)
                     (HorizontalScroll.scrollLeft element) = true).
      { apply Qeq_bool_iff. unfold last in Hlast. lra. }
      rewrite Hs in Hr. discriminate.
Qed.

Lemma arrows_at_the_ends_witness :
  let element :=
    {| HorizontalScroll.scrollLeft := 0; HorizontalScroll.scrollWidth := 1000;
       HorizontalScroll.clientWidth := 300 |} in
  HorizontalScroll.clickRightButton (Some element)
    HorizontalScroll.initialState = Some (0 - 200)%Q
  /\ (0 - 200 < 0)%Q.
Proof.
  intro element. split; [reflexivity|].
  apply (proj1 (arrows_at_the_ends element HorizontalScroll.initialState
                  HorizontalScroll.initialState)).
  - left. reflexivity.
  - reflexivity.
  - right. reflexivity.
Defined.
